(** * Patient-management backend: data-access and query layer

    A shallow embedding of [backend/server.py]: the pydantic models, the
    handlers of the [/api] router, and the part of the document store
    (MongoDB through motor) that the handlers rely on.

    Conventions of the embedding:
    - a stored document is a finite map from field names to [value]s
      (a Python [dict] / BSON document);
    - a collection is the list of its documents in natural order;
    - handlers take the store and every reading of the outside world
      they make (clock readings, the random bits of [uuid.uuid4]) as
      arguments and return a [result]: [Ok] carries the response (and the
      new store for handlers that write), [Err] the raised exception;
    - strings are sequences of 8-bit characters.

    The listing of a patient's contact logs (a sorted read) and the set-up
    of the application (environment, CORS, logging) are not embedded. *)

From Stdlib Require Import ZArith NArith Ascii String List Bool Lia.
From stdpp Require Import base option list gmap strings fin_maps sorting.

Local Open Scope string_scope.
#[local] Arguments String.append !_ _ / : simpl nomatch.

(** ** Exceptions and results *)

Inductive error :=
| HTTPException (status_code : Z) (detail : string)
| ValidationError (field : string)
| OverflowError
| OperationFailure (msg : string)
| TypeError.

Inductive result (A : Type) :=
| Ok (a : A)
| Err (e : error).
Arguments Ok {A} a.
Arguments Err {A} e.

Definition bind {A B} (r : result A) (k : A → result B) : result B :=
  match r with
  | Ok a => k a
  | Err e => Err e
  end.

Notation "x ← r ;;; k" := (bind r (λ x, k))
  (at level 20, r at level 100, k at level 200, right associativity,
   format "x  ←  r  ;;;  '/' k").

(** [[f(x) for x in xs]] where [f] may raise: the first exception wins. *)
Fixpoint traverse {A B} (f : A → result B) (xs : list A) : result (list B) :=
  match xs with
  | [] => Ok []
  | x :: xs' =>
      y ← f x;;;
      ys ← traverse f xs';;;
      Ok (y :: ys)
  end.

(** ** Strings *)

Module Str.

Definition is_upper (c : ascii) : bool :=
  ((65 <=? N_of_ascii c) && (N_of_ascii c <=? 90))%N.

(** ASCII case folding, as a caseless match does on 8-bit subjects. *)
Definition lower_char (c : ascii) : ascii :=
  if is_upper c then ascii_of_N (N_of_ascii c + 32) else c.

Fixpoint lower (s : string) : string :=
  match s with
  | EmptyString => EmptyString
  | String c s' => String (lower_char c) (lower s')
  end.

Fixpoint starts_with (p s : string) : bool :=
  match p, s with
  | EmptyString, _ => true
  | String _ _, EmptyString => false
  | String a p', String b s' => Ascii.eqb a b && starts_with p' s'
  end.

(** [needle in hay] of Python. *)
Fixpoint contains (needle hay : string) : bool :=
  starts_with needle hay ||
  match hay with
  | EmptyString => false
  | String _ hay' => contains needle hay'
  end.

(** Python truthiness of a [str]. *)
Definition truthy (s : string) : bool :=
  match s with
  | EmptyString => false
  | String _ _ => true
  end.

End Str.

(** ** Dates and times ([datetime]) *)

Module Datetime.

Local Open Scope Z_scope.

Record date := { year : Z; month : Z; day : Z }.

Definition date_eqb (a b : date) : bool :=
  (year a =? year b) && (month a =? month b) && (day a =? day b).

Lemma date_eqb_eq (a b : date) : date_eqb a b = true ↔ a = b.
Proof.
  destruct a, b; unfold date_eqb; simpl.
  rewrite !andb_true_iff, !Z.eqb_eq. split; [intros [[-> ->] ->] | intros [= -> -> ->]]; done.
Qed.

(** [tzinfo] is [true] for a reading taken with [timezone.utc] and
    [false] for a naive local reading. *)
Record datetime := {
  date_of : date;
  hour : Z;
  minute : Z;
  second : Z;
  microsecond : Z;
  tzinfo : bool;
}.

Definition is_leap (y : Z) : bool :=
  (y mod 4 =? 0) && (negb (y mod 100 =? 0) || (y mod 400 =? 0)).

Definition days_in_month (y m : Z) : Z :=
  if m =? 2 then (if is_leap y then 29 else 28)
  else if (m =? 4) || (m =? 6) || (m =? 9) || (m =? 11) then 30
  else 31.

Definition valid_date (d : date) : Prop :=
  1 <= year d <= 9999 ∧ 1 <= month d <= 12 ∧
  1 <= day d <= days_in_month (year d) (month d).

Definition valid_datetime (t : datetime) : Prop :=
  valid_date (date_of t) ∧ 0 <= hour t <= 23 ∧ 0 <= minute t <= 59 ∧
  0 <= second t <= 59 ∧ 0 <= microsecond t <= 999999.

Definition next_day (d : date) : date :=
  if day d <? days_in_month (year d) (month d) then
    {| year := year d; month := month d; day := day d + 1 |}
  else if month d <? 12 then
    {| year := year d; month := month d + 1; day := 1 |}
  else
    {| year := year d + 1; month := 1; day := 1 |}.

(** [d + timedelta(days=n)]; past year 9999 the addition raises. *)
Fixpoint add_days (n : nat) (d : date) : result date :=
  match n with
  | O => Ok d
  | S n' =>
      let d' := next_day d in
      if year d' <=? 9999 then add_days n' d' else Err OverflowError
  end.

(** [t + timedelta(days=n)] keeps the time of day. *)
Definition plus_days (t : datetime) (n : nat) : result datetime :=
  d ← add_days n (date_of t);;;
  Ok {| date_of := d; hour := hour t; minute := minute t; second := second t;
        microsecond := microsecond t; tzinfo := tzinfo t |}.

Definition digit (d : Z) : ascii := ascii_of_N (48 + Z.to_N d).

(** The [w] low decimal digits of [n], most significant first: ["%0wd"]
    for [0 <= n < 10^w]. *)
Fixpoint digits (w : nat) (n : Z) : string :=
  match w with
  | O => ""
  | S w' => digits w' (n / 10) ++ String (digit (n mod 10)) ""
  end.

(** [date.isoformat()] *)
Definition date_isoformat (d : date) : string :=
  digits 4 (year d) ++ "-" ++ digits 2 (month d) ++ "-" ++ digits 2 (day d).

(** [datetime.isoformat()] *)
Definition isoformat (t : datetime) : string :=
  date_isoformat (date_of t) ++ "T" ++ digits 2 (hour t) ++ ":" ++
  digits 2 (minute t) ++ ":" ++ digits 2 (second t) ++
  (if microsecond t =? 0 then "" else "." ++ digits 6 (microsecond t)) ++
  (if tzinfo t then "+00:00" else "").

(** ["%Y"] of [strftime]: the C library writes the year in decimal and
    does not pad it, unlike [isoformat]. *)
Definition year_text (y : Z) : string :=
  if y <? 10 then digits 1 y
  else if y <? 100 then digits 2 y
  else if y <? 1000 then digits 3 y
  else digits 4 y.

(** [t.strftime("%Y-%m")] *)
Definition strftime_Y_m (t : datetime) : string :=
  year_text (year (date_of t)) ++ "-" ++ digits 2 (month (date_of t)).

End Datetime.

(** ** Identifiers ([uuid]) *)

Module Uuid.

Local Open Scope Z_scope.

(** [uuid.uuid4()] on 128 random bits: the variant and version bits are
    forced. *)
Definition uuid4 (random : Z) : Z :=
  let i := Z.land random (Z.ones 128) in
  let i := Z.land i (Z.lnot (Z.shiftl 0xc000 48)) in
  let i := Z.lor i (Z.shiftl 0x8000 48) in
  let i := Z.land i (Z.lnot (Z.shiftl 0xf000 64)) in
  Z.lor i (Z.shiftl 4 76).

Definition hex_digit (d : Z) : ascii :=
  if d <? 10 then ascii_of_N (48 + Z.to_N d) else ascii_of_N (87 + Z.to_N d).

(** ['%0wx' % n] *)
Fixpoint hex (w : nat) (n : Z) : string :=
  match w with
  | O => ""
  | S w' => hex w' (n / 16) ++ String (hex_digit (n mod 16)) ""
  end.

(** [str(u)]: the 32 hex digits in groups of 8-4-4-4-12. *)
Definition str (u : Z) : string :=
  let h := hex 32 u in
  substring 0 8 h ++ "-" ++ substring 8 4 h ++ "-" ++ substring 12 4 h ++ "-" ++
  substring 16 4 h ++ "-" ++ substring 20 12 h.

End Uuid.

(** ** BSON values and documents *)

#[local] Unset Elimination Schemes.
Inductive value :=
| VNull
| VBool (b : bool)
| VStr (s : string)
| VOid (n : N)
| VDate (d : Datetime.date)
| VList (l : list value)
| VDict (d : list (string * value)).
#[local] Set Elimination Schemes.

Section value_induction.
Variable P : value → Prop.
Hypothesis HNull : P VNull.
Hypothesis HBool : ∀ b, P (VBool b).
Hypothesis HStr : ∀ s, P (VStr s).
Hypothesis HOid : ∀ n, P (VOid n).
Hypothesis HDate : ∀ d, P (VDate d).
Hypothesis HList : ∀ l, List.Forall P l → P (VList l).
Hypothesis HDict : ∀ d, List.Forall (λ kv, P (snd kv)) d → P (VDict d).

Fixpoint value_ind (v : value) : P v :=
  match v with
  | VNull => HNull
  | VBool b => HBool b
  | VStr s => HStr s
  | VOid n => HOid n
  | VDate d => HDate d
  | VList l =>
      HList l
        ((fix all (l : list value) : List.Forall P l :=
            match l with
            | [] => List.Forall_nil P
            | x :: l' => List.Forall_cons P x l' (value_ind x) (all l')
            end) l)
  | VDict d =>
      HDict d
        ((fix all (d : list (string * value)) : List.Forall (λ kv, P (snd kv)) d :=
            match d with
            | [] => List.Forall_nil _
            | kv :: d' =>
                List.Forall_cons (λ kv, P (snd kv)) kv d' (value_ind (snd kv)) (all d')
            end) d)
  end.
End value_induction.

Fixpoint value_eqb (a b : value) : bool :=
  match a, b with
  | VNull, VNull => true
  | VBool x, VBool y => Bool.eqb x y
  | VStr x, VStr y => String.eqb x y
  | VOid x, VOid y => N.eqb x y
  | VDate x, VDate y => Datetime.date_eqb x y
  | VList xs, VList ys =>
      (fix go (xs ys : list value) : bool :=
         match xs, ys with
         | [], [] => true
         | x :: xs', y :: ys' => value_eqb x y && go xs' ys'
         | _, _ => false
         end) xs ys
  | VDict xs, VDict ys =>
      (fix go (xs ys : list (string * value)) : bool :=
         match xs, ys with
         | [], [] => true
         | (k, x) :: xs', (k', y) :: ys' =>
             String.eqb k k' && value_eqb x y && go xs' ys'
         | _, _ => false
         end) xs ys
  | _, _ => false
  end.

Lemma value_eqb_eq (a b : value) : value_eqb a b = true ↔ a = b.
Proof.
  revert b.
  induction a as [| x | x | x | x | xs IH | xs IH] using value_ind;
    intros [| y | y | y | y | ys | ys]; simpl; try (split; [discriminate | discriminate]);
    try (split; [done | done]).
  - rewrite Bool.eqb_true_iff. split; congruence.
  - rewrite String.eqb_eq. split; congruence.
  - rewrite N.eqb_eq. split; congruence.
  - rewrite Datetime.date_eqb_eq. split; congruence.
  - revert ys. induction IH as [| x xs Hx _ IHxs]; intros [| y ys]; simpl;
      try (split; [done | done]).
    rewrite andb_true_iff, Hx, IHxs. split; [intros [-> E]; congruence | intros E].
    by inversion E.
  - revert ys. induction IH as [| [k x] xs Hx _ IHxs]; intros [| [k' y] ys]; simpl;
      try (split; [done | done]).
    simpl in Hx.
    rewrite !andb_true_iff, String.eqb_eq, Hx, IHxs.
    split; [intros [[-> ->] E]; congruence | intros E]. by inversion E.
Qed.

#[global] Instance value_eq_dec : EqDecision value.
Proof.
  refine (λ a b,
    match value_eqb a b as c return value_eqb a b = c → Decision (a = b) with
    | true => λ H, left _
    | false => λ H, right _
    end eq_refl).
  - by apply value_eqb_eq.
  - intros E; apply value_eqb_eq in E; congruence.
Defined.

(** A stored document: field name ↦ value. *)
Abbreviation document := (gmap string value).

(** ** Regular expressions of the store's [$regex] operator

    The store matches [$regex] with a PCRE engine that is not part of the
    repository.  The fragment modelled here: literal characters, [.],
    a backslash before a punctuation character, the postfix quantifiers
    [*], [+], [?] on one character, and [^] at the head of the pattern.
    [regex_compile] returns [None] on every other pattern: on the malformed
    ones the store raises too, the others are outside the model. *)

Module Regex.

Inductive atom :=
| AChar (c : ascii)
| AAny.

Inductive quant := QOne | QStar | QPlus | QOpt.

Inductive token :=
| TAtom (a : atom)
| TQuant (q : quant)
| TBad.

Record regex := { anchored : bool; items : list (atom * quant) }.

Definition in_range (lo hi : N) (c : ascii) : bool :=
  ((lo <=? N_of_ascii c) && (N_of_ascii c <=? hi))%N.

Definition is_alnum (c : ascii) : bool :=
  in_range 48 57 c || in_range 65 90 c || in_range 97 122 c.

(** A backslash makes a punctuation character literal; before a letter or
    a digit it starts a class or a special escape (not modelled). *)
Definition escapable (c : ascii) : bool :=
  in_range 32 126 c && negb (is_alnum c).

(** Characters with a meaning of their own in a pattern. *)
Definition is_meta (c : ascii) : bool :=
  existsb (Ascii.eqb c)
    ["\"; "^"; "$"; "."; "["; "|"; "("; ")"; "?"; "*"; "+"; "{"]%char.

Fixpoint lex (p : string) : list token :=
  match p with
  | EmptyString => []
  | String c t =>
      if Ascii.eqb c "\" then
        match t with
        | String e t' =>
            (if escapable e then TAtom (AChar e) else TBad) :: lex t'
        | EmptyString => [TBad]
        end
      else if Ascii.eqb c "." then TAtom AAny :: lex t
      else if Ascii.eqb c "*" then TQuant QStar :: lex t
      else if Ascii.eqb c "+" then TQuant QPlus :: lex t
      else if Ascii.eqb c "?" then TQuant QOpt :: lex t
      else if is_meta c then TBad :: lex t
      else TAtom (AChar c) :: lex t
  end.

Fixpoint parse (ts : list token) : option (list (atom * quant)) :=
  match ts with
  | [] => Some []
  | TAtom a :: r =>
      match r with
      | TQuant q :: r' => cons (a, q) <$> parse r'
      | _ => cons (a, QOne) <$> parse r
      end
  | _ => None
  end.

Definition regex_compile (p : string) : option regex :=
  match p with
  | String "^" t =>
      its ← parse (lex t); Some {| anchored := true; items := its |}
  | _ =>
      its ← parse (lex p); Some {| anchored := false; items := its |}
  end.

(** [ci] is the caseless flag (option [i]). *)
Definition atom_ok (ci : bool) (a : atom) (c : ascii) : bool :=
  match a with
  | AChar x =>
      if ci then Ascii.eqb (Str.lower_char x) (Str.lower_char c)
      else Ascii.eqb x c
  | AAny => negb (Ascii.eqb c "010")
  end.

(** Matchers are predicates on the rest of the subject: [k] is what has to
    match after the current item. *)
Definition one (ci : bool) (a : atom) (k : string → bool) (s : string) : bool :=
  match s with
  | String c s' => atom_ok ci a c && k s'
  | EmptyString => false
  end.

Fixpoint star (ci : bool) (a : atom) (k : string → bool) (s : string) : bool :=
  k s ||
  match s with
  | String c s' => atom_ok ci a c && star ci a k s'
  | EmptyString => false
  end.

(** Some prefix of the subject matches the items. *)
Fixpoint match_here (ci : bool) (its : list (atom * quant)) : string → bool :=
  match its with
  | [] => λ _, true
  | (a, q) :: r =>
      let k := match_here ci r in
      match q with
      | QOne => one ci a k
      | QStar => star ci a k
      | QPlus => one ci a (star ci a k)
      | QOpt => λ s, k s || one ci a k s
      end
  end.

(** Some substring of the subject matches the items. *)
Fixpoint match_anywhere (ci : bool) (its : list (atom * quant)) (s : string) : bool :=
  match_here ci its s ||
  match s with
  | String _ s' => match_anywhere ci its s'
  | EmptyString => false
  end.

Definition has_option (o : ascii) (options : string) : bool :=
  Str.contains (String o EmptyString) options.

Definition regex_search (re : regex) (options : string) (s : string) : bool :=
  let ci := has_option "i" options in
  if anchored re then match_here ci (items re) s
  else match_anywhere ci (items re) s.

End Regex.

(** ** The document store

    Filters are the dictionaries the handlers build.  A filter dictionary
    is kept as the list of its entries in insertion order; its entries
    hold together (implicit AND). *)

Module Mongo.

(** The operator documents used by the handlers: a bare value is an
    equality test, [{"$ne": v}], [{"$lte": s}] with a string bound,
    [{"$regex": p, "$options": o}] and [{"$in": vs}]. *)
Inductive cond :=
| CEq (v : value)
| CNe (v : value)
| CLte (bound : string)
| CRegex (pattern options : string)
| CIn (vs : list value).

Definition clause := list (string * cond).

Inductive qentry :=
| Field (c : cond)
| Or (alts : list clause).

Definition query := list (string * qentry).

(** [q[k] = e] on a filter dictionary. *)
Definition set_item (q : query) (k : string) (e : qentry) : query :=
  if existsb (λ ke, String.eqb (fst ke) k) q
  then map (λ ke, if String.eqb (fst ke) k then (k, e) else ke) q
  else List.app q [(k, e)].

(** A condition on a field that holds an array is tested on the array
    and on each of its elements. *)
Definition candidates (w : value) : list value :=
  w :: match w with VList l => l | _ => [] end.

(** [{field: v}]: a missing field matches only [null]. *)
Definition eq_holds (v : value) (fv : option value) : bool :=
  match fv with
  | None => bool_decide (v = VNull)
  | Some w => existsb (λ x, bool_decide (x = v)) (candidates w)
  end.

(** Comparison operators compare within one type: a string bound is
    met by strings only, in byte order. *)
Definition str_lte (bound : string) (x : value) : bool :=
  match x with
  | VStr s => String.leb s bound
  | _ => false
  end.

Definition regex_holds (re : Regex.regex) (options : string) (x : value) : bool :=
  match x with
  | VStr s => Regex.regex_search re options s
  | _ => false
  end.

Definition cond_holds (c : cond) (fv : option value) : bool :=
  match c with
  | CEq v => eq_holds v fv
  | CNe v => negb (eq_holds v fv)
  | CLte bound =>
      match fv with
      | Some w => existsb (str_lte bound) (candidates w)
      | None => false
      end
  | CRegex p o =>
      match Regex.regex_compile p, fv with
      | Some re, Some w => existsb (regex_holds re o) (candidates w)
      | _, _ => false
      end
  | CIn vs => existsb (λ v, eq_holds v fv) vs
  end.

Definition clause_holds (d : document) (cl : clause) : bool :=
  forallb (λ kc, cond_holds (snd kc) (d !! fst kc)) cl.

Definition entry_holds (d : document) (ke : string * qentry) : bool :=
  match snd ke with
  | Field c => cond_holds c (d !! fst ke)
  | Or alts => existsb (clause_holds d) alts
  end.

Definition matches (q : query) (d : document) : bool :=
  forallb (entry_holds d) q.

(** The store refuses a filter whose pattern does not compile. *)
Definition cond_valid (c : cond) : bool :=
  match c with
  | CRegex p _ => bool_decide (is_Some (Regex.regex_compile p))
  | _ => true
  end.

Definition entry_valid (ke : string * qentry) : bool :=
  match snd ke with
  | Field c => cond_valid c
  | Or alts => forallb (forallb (λ kc, cond_valid (snd kc))) alts
  end.

Definition query_valid (q : query) : bool := forallb entry_valid q.

Definition checked {A} (q : query) (a : A) : result A :=
  if query_valid q then Ok a else Err (OperationFailure "Regular expression is invalid").

(** [coll.find(q)]: the cursor over the matching documents. *)
Definition find (coll : list document) (q : query) : result (list document) :=
  checked q (filter (λ d, matches q d = true) coll).

(** [cursor.to_list(n)] *)
Definition to_list (n : nat) (cursor : list document) : list document :=
  take n cursor.

(** [coll.find_one(q)] *)
Definition find_one (coll : list document) (q : query) : result (option document) :=
  checked q (head (filter (λ d, matches q d = true) coll)).

(** [coll.count_documents(q)] *)
Definition count_documents (coll : list document) (q : query) : result nat :=
  checked q (length (filter (λ d, matches q d = true) coll)).

(** [coll.insert_one(doc)]: a document without [_id] gets a fresh one. *)
Definition insert_one (coll : list document) (oid : N) (doc : document) : list document :=
  coll ++ [match doc !! "_id" with
           | Some _ => doc
           | None => <["_id" := VOid oid]> doc
           end].

Record update_result := { matched_count : nat; modified_count : nat }.

(** [coll.update_one(q, {"$set": fields})]: the first match gets the
    fields; it counts as modified only if that changed it. *)
Fixpoint update_first (q : query) (fields : document) (coll : list document)
  : list document * update_result :=
  match coll with
  | [] => ([], {| matched_count := 0; modified_count := 0 |})
  | d :: rest =>
      if matches q d then
        let d' := fields ∪ d in
        (d' :: rest,
         {| matched_count := 1;
            modified_count := if bool_decide (d' = d) then 0 else 1 |})
      else
        let r := update_first q fields rest in
        (d :: fst r, snd r)
  end.

Definition update_one (coll : list document) (q : query) (fields : document)
  : result (list document * update_result) :=
  checked q (update_first q fields coll).

Record delete_result := { deleted_count : nat }.

Fixpoint delete_first (q : query) (coll : list document)
  : list document * delete_result :=
  match coll with
  | [] => ([], {| deleted_count := 0 |})
  | d :: rest =>
      if matches q d then (rest, {| deleted_count := 1 |})
      else
        let r := delete_first q rest in
        (d :: fst r, snd r)
  end.

Definition delete_one (coll : list document) (q : query)
  : result (list document * delete_result) :=
  checked q (delete_first q coll).

End Mongo.

Record database := {
  patients : list document;
  tasks : list document;
  contact_logs : list document;
  next_oid : N;
}.

(** ** Enumerations *)

Module TaskStatus.
Inductive t := PENDING | IN_PROGRESS | COMPLETED | FAILED.

Definition value (s : t) : string :=
  match s with
  | PENDING => "pending"
  | IN_PROGRESS => "in_progress"
  | COMPLETED => "completed"
  | FAILED => "failed"
  end.

Definition of_string (s : string) : option t :=
  if String.eqb s "pending" then Some PENDING
  else if String.eqb s "in_progress" then Some IN_PROGRESS
  else if String.eqb s "completed" then Some COMPLETED
  else if String.eqb s "failed" then Some FAILED
  else None.
End TaskStatus.

Module TaskType.
Inductive t :=
| CALL_PATIENT | REQUEST_PAPERWORK | TAN_RENEWAL | BILLING_FOLLOW_UP
| MEDICAID_VERIFICATION.

Definition value (s : t) : string :=
  match s with
  | CALL_PATIENT => "call_patient"
  | REQUEST_PAPERWORK => "request_paperwork"
  | TAN_RENEWAL => "tan_renewal"
  | BILLING_FOLLOW_UP => "billing_follow_up"
  | MEDICAID_VERIFICATION => "medicaid_verification"
  end.

Definition of_string (s : string) : option t :=
  if String.eqb s "call_patient" then Some CALL_PATIENT
  else if String.eqb s "request_paperwork" then Some REQUEST_PAPERWORK
  else if String.eqb s "tan_renewal" then Some TAN_RENEWAL
  else if String.eqb s "billing_follow_up" then Some BILLING_FOLLOW_UP
  else if String.eqb s "medicaid_verification" then Some MEDICAID_VERIFICATION
  else None.
End TaskType.

Module ContactOutcome.
Inductive t := CONTACTED | NO_ANSWER | BUSY | DISCONNECTED | LEFT_MESSAGE.

Definition value (s : t) : string :=
  match s with
  | CONTACTED => "contacted"
  | NO_ANSWER => "no_answer"
  | BUSY => "busy"
  | DISCONNECTED => "disconnected"
  | LEFT_MESSAGE => "left_message"
  end.

Definition of_string (s : string) : option t :=
  if String.eqb s "contacted" then Some CONTACTED
  else if String.eqb s "no_answer" then Some NO_ANSWER
  else if String.eqb s "busy" then Some BUSY
  else if String.eqb s "disconnected" then Some DISCONNECTED
  else if String.eqb s "left_message" then Some LEFT_MESSAGE
  else None.
End ContactOutcome.

(** ** Field validation of the models

    A model built from a keyword dictionary reads each declared field,
    ignores the other keys, and raises on a missing required field or on
    a value of another type.  Conversions between types are not modelled:
    the handlers only validate documents the models themselves produced. *)

Module Fields.

Definition invalid {A} (k : string) : result A := Err (ValidationError k).

(** [f: str] *)
Definition str (k : string) (kw : document) : result string :=
  match kw !! k with
  | Some (VStr s) => Ok s
  | _ => invalid k
  end.

(** [f: str = default], the default possibly from a factory *)
Definition str_or (dflt : result string) (k : string) (kw : document) : result string :=
  match kw !! k with
  | None => dflt
  | Some (VStr s) => Ok s
  | Some _ => invalid k
  end.

(** [f: Optional[str] = None] *)
Definition opt_str (k : string) (kw : document) : result (option string) :=
  match kw !! k with
  | None | Some VNull => Ok None
  | Some (VStr s) => Ok (Some s)
  | Some _ => invalid k
  end.

(** [f: bool = default] *)
Definition bool_or (dflt : bool) (k : string) (kw : document) : result bool :=
  match kw !! k with
  | None => Ok dflt
  | Some (VBool b) => Ok b
  | Some _ => invalid k
  end.

Definition as_str (k : string) (v : value) : result string :=
  match v with
  | VStr s => Ok s
  | _ => invalid k
  end.

(** [f: List[str] = []] *)
Definition str_list (k : string) (kw : document) : result (list string) :=
  match kw !! k with
  | None => Ok []
  | Some (VList l) => traverse (as_str k) l
  | Some _ => invalid k
  end.

(** [f: E] or [f: E = default] for an enumeration of strings *)
Definition enum {E} (of_string : string → option E) (dflt : result E)
    (k : string) (kw : document) : result E :=
  match kw !! k with
  | None => dflt
  | Some (VStr s) =>
      match of_string s with
      | Some e => Ok e
      | None => invalid k
      end
  | Some _ => invalid k
  end.

(** The value stored for an optional string. *)
Definition of_opt_str (o : option string) : value :=
  match o with
  | Some s => VStr s
  | None => VNull
  end.

End Fields.

(** ** Models *)

Module Doctor.
Record t := {
  name : string;
  phone : string;
  fax : string;
  address : option string;
}.

Definition dict (d : t) : value :=
  VDict [("name", VStr (name d)); ("phone", VStr (phone d)); ("fax", VStr (fax d));
         ("address", Fields.of_opt_str (address d))].

(** Validation of the [doctor] field from an embedded document. *)
Definition init (k : string) (v : option value) : result t :=
  match v with
  | Some (VDict l) =>
      let kw : document := list_to_map l in
      name ← Fields.str "name" kw;;;
      phone ← Fields.str "phone" kw;;;
      fax ← Fields.str "fax" kw;;;
      address ← Fields.opt_str "address" kw;;;
      Ok {| name := name; phone := phone; fax := fax; address := address |}
  | _ => Fields.invalid k
  end.
End Doctor.

Module Patient.
Record t := {
  id : string;
  first_name : string;
  last_name : string;
  phone : string;
  address : string;
  height : option string;
  weight : option string;
  icd10_codes : list string;
  doctor : Doctor.t;
  current_tan : string;
  tan_expiry_date : string;
  medicaid_id : string;
  medicaid_eligible : bool;
  last_billing_date : option string;
  products : list string;
  notes : string;
  created_at : string;
  updated_at : string;
}.

(** [Patient] built from the keyword dictionary [kw].  [factory k] is what
    the default factory of field [k] produces ([id], [created_at],
    [updated_at]). *)
Definition init (factory : string → result string) (kw : document) : result t :=
  id ← Fields.str_or (factory "id") "id" kw;;;
  first_name ← Fields.str "first_name" kw;;;
  last_name ← Fields.str "last_name" kw;;;
  phone ← Fields.str "phone" kw;;;
  address ← Fields.str "address" kw;;;
  height ← Fields.opt_str "height" kw;;;
  weight ← Fields.opt_str "weight" kw;;;
  icd10_codes ← Fields.str_list "icd10_codes" kw;;;
  doctor ← Doctor.init "doctor" (kw !! "doctor");;;
  current_tan ← Fields.str "current_tan" kw;;;
  tan_expiry_date ← Fields.str "tan_expiry_date" kw;;;
  medicaid_id ← Fields.str "medicaid_id" kw;;;
  medicaid_eligible ← Fields.bool_or true "medicaid_eligible" kw;;;
  last_billing_date ← Fields.opt_str "last_billing_date" kw;;;
  products ← Fields.str_list "products" kw;;;
  notes ← Fields.str_or (Ok "") "notes" kw;;;
  created_at ← Fields.str_or (factory "created_at") "created_at" kw;;;
  updated_at ← Fields.str_or (factory "updated_at") "updated_at" kw;;;
  Ok {| id := id; first_name := first_name; last_name := last_name;
        phone := phone; address := address; height := height; weight := weight;
        icd10_codes := icd10_codes; doctor := doctor; current_tan := current_tan;
        tan_expiry_date := tan_expiry_date; medicaid_id := medicaid_id;
        medicaid_eligible := medicaid_eligible;
        last_billing_date := last_billing_date; products := products;
        notes := notes; created_at := created_at; updated_at := updated_at |}.

(** [p.dict()] *)
Definition dict (p : t) : document :=
  list_to_map
    [("id", VStr (id p)); ("first_name", VStr (first_name p));
     ("last_name", VStr (last_name p)); ("phone", VStr (phone p));
     ("address", VStr (address p)); ("height", Fields.of_opt_str (height p));
     ("weight", Fields.of_opt_str (weight p));
     ("icd10_codes", VList (VStr <$> icd10_codes p));
     ("doctor", Doctor.dict (doctor p)); ("current_tan", VStr (current_tan p));
     ("tan_expiry_date", VStr (tan_expiry_date p));
     ("medicaid_id", VStr (medicaid_id p));
     ("medicaid_eligible", VBool (medicaid_eligible p));
     ("last_billing_date", Fields.of_opt_str (last_billing_date p));
     ("products", VList (VStr <$> products p)); ("notes", VStr (notes p));
     ("created_at", VStr (created_at p)); ("updated_at", VStr (updated_at p))].
End Patient.

Module PatientCreate.
Record t := {
  first_name : string;
  last_name : string;
  phone : string;
  address : string;
  height : option string;
  weight : option string;
  icd10_codes : list string;
  doctor : Doctor.t;
  current_tan : string;
  tan_expiry_date : string;
  medicaid_id : string;
  medicaid_eligible : bool;
  products : list string;
  notes : string;
}.

Definition dict (p : t) : document :=
  list_to_map
    [("first_name", VStr (first_name p));
     ("last_name", VStr (last_name p)); ("phone", VStr (phone p));
     ("address", VStr (address p)); ("height", Fields.of_opt_str (height p));
     ("weight", Fields.of_opt_str (weight p));
     ("icd10_codes", VList (VStr <$> icd10_codes p));
     ("doctor", Doctor.dict (doctor p)); ("current_tan", VStr (current_tan p));
     ("tan_expiry_date", VStr (tan_expiry_date p));
     ("medicaid_id", VStr (medicaid_id p));
     ("medicaid_eligible", VBool (medicaid_eligible p));
     ("products", VList (VStr <$> products p)); ("notes", VStr (notes p))].
End PatientCreate.

Module PatientUpdate.
Record t := {
  first_name : option string;
  last_name : option string;
  phone : option string;
  address : option string;
  height : option string;
  weight : option string;
  icd10_codes : option (list string);
  doctor : option Doctor.t;
  current_tan : option string;
  tan_expiry_date : option string;
  medicaid_id : option string;
  medicaid_eligible : option bool;
  last_billing_date : option string;
  products : option (list string);
  notes : option string;
}.

(** The value of an optional field in [dict()]: [None] is kept. *)
Definition opt {A} (f : A → value) (o : option A) : value :=
  match o with
  | Some a => f a
  | None => VNull
  end.

Definition dict (u : t) : document :=
  list_to_map
    [("first_name", opt VStr (first_name u));
     ("last_name", opt VStr (last_name u)); ("phone", opt VStr (phone u));
     ("address", opt VStr (address u)); ("height", opt VStr (height u));
     ("weight", opt VStr (weight u));
     ("icd10_codes", opt (λ l, VList (VStr <$> l)) (icd10_codes u));
     ("doctor", opt Doctor.dict (doctor u));
     ("current_tan", opt VStr (current_tan u));
     ("tan_expiry_date", opt VStr (tan_expiry_date u));
     ("medicaid_id", opt VStr (medicaid_id u));
     ("medicaid_eligible", opt VBool (medicaid_eligible u));
     ("last_billing_date", opt VStr (last_billing_date u));
     ("products", opt (λ l, VList (VStr <$> l)) (products u));
     ("notes", opt VStr (notes u))].
End PatientUpdate.

Module Task.
Record t := {
  id : string;
  patient_id : string;
  task_type : TaskType.t;
  title : string;
  description : string;
  assigned_to : string;
  status : TaskStatus.t;
  due_date : option string;
  created_at : string;
  completed_at : option string;
}.

Definition init (factory : string → result string) (kw : document) : result t :=
  id ← Fields.str_or (factory "id") "id" kw;;;
  patient_id ← Fields.str "patient_id" kw;;;
  task_type ← Fields.enum TaskType.of_string (Fields.invalid "task_type") "task_type" kw;;;
  title ← Fields.str "title" kw;;;
  description ← Fields.str_or (Ok "") "description" kw;;;
  assigned_to ← Fields.str_or (Ok "admin") "assigned_to" kw;;;
  status ← Fields.enum TaskStatus.of_string (Ok TaskStatus.PENDING) "status" kw;;;
  due_date ← Fields.opt_str "due_date" kw;;;
  created_at ← Fields.str_or (factory "created_at") "created_at" kw;;;
  completed_at ← Fields.opt_str "completed_at" kw;;;
  Ok {| id := id; patient_id := patient_id; task_type := task_type; title := title;
        description := description; assigned_to := assigned_to; status := status;
        due_date := due_date; created_at := created_at;
        completed_at := completed_at |}.

Definition dict (x : t) : document :=
  list_to_map
    [("id", VStr (id x)); ("patient_id", VStr (patient_id x));
     ("task_type", VStr (TaskType.value (task_type x))); ("title", VStr (title x));
     ("description", VStr (description x)); ("assigned_to", VStr (assigned_to x));
     ("status", VStr (TaskStatus.value (status x)));
     ("due_date", Fields.of_opt_str (due_date x));
     ("created_at", VStr (created_at x));
     ("completed_at", Fields.of_opt_str (completed_at x))].
End Task.

Module TaskCreate.
Record t := {
  patient_id : string;
  task_type : TaskType.t;
  title : string;
  description : string;
  due_date : option string;
}.

Definition dict (x : t) : document :=
  list_to_map
    [("patient_id", VStr (patient_id x));
     ("task_type", VStr (TaskType.value (task_type x))); ("title", VStr (title x));
     ("description", VStr (description x));
     ("due_date", Fields.of_opt_str (due_date x))].
End TaskCreate.

Module ContactLog.
Record t := {
  id : string;
  patient_id : string;
  contact_date : string;
  outcome : ContactOutcome.t;
  notes : string;
  follow_up_needed : bool;
  follow_up_date : option string;
}.

Definition init (factory : string → result string) (kw : document) : result t :=
  id ← Fields.str_or (factory "id") "id" kw;;;
  patient_id ← Fields.str "patient_id" kw;;;
  contact_date ← Fields.str_or (factory "contact_date") "contact_date" kw;;;
  outcome ← Fields.enum ContactOutcome.of_string (Fields.invalid "outcome") "outcome" kw;;;
  notes ← Fields.str_or (Ok "") "notes" kw;;;
  follow_up_needed ← Fields.bool_or false "follow_up_needed" kw;;;
  follow_up_date ← Fields.opt_str "follow_up_date" kw;;;
  Ok {| id := id; patient_id := patient_id; contact_date := contact_date;
        outcome := outcome; notes := notes; follow_up_needed := follow_up_needed;
        follow_up_date := follow_up_date |}.

Definition dict (x : t) : document :=
  list_to_map
    [("id", VStr (id x)); ("patient_id", VStr (patient_id x));
     ("contact_date", VStr (contact_date x));
     ("outcome", VStr (ContactOutcome.value (outcome x)));
     ("notes", VStr (notes x)); ("follow_up_needed", VBool (follow_up_needed x));
     ("follow_up_date", Fields.of_opt_str (follow_up_date x))].
End ContactLog.

Module ContactLogCreate.
Record t := {
  patient_id : string;
  outcome : ContactOutcome.t;
  notes : string;
  follow_up_needed : bool;
  follow_up_date : option string;
}.

Definition dict (x : t) : document :=
  list_to_map
    [("patient_id", VStr (patient_id x));
     ("outcome", VStr (ContactOutcome.value (outcome x)));
     ("notes", VStr (notes x)); ("follow_up_needed", VBool (follow_up_needed x));
     ("follow_up_date", Fields.of_opt_str (follow_up_date x))].
End ContactLogCreate.

(** ** Default factories

    [fresh] is the factory of a model built in a [create_*] handler: the
    identifier from [uuid.uuid4()] and the timestamps from two readings of
    the UTC clock.  [stored] is used on documents read back from the store:
    these carry the factory fields (they were written from [dict()]), so no
    factory runs; a stored document without such a field is rejected here,
    where pydantic would make up a new identifier or timestamp. *)

Definition fresh (random : Z) (now now' : Datetime.datetime) (k : string) : result string :=
  if String.eqb k "id" then Ok (Uuid.str (Uuid.uuid4 random))
  else if String.eqb k "updated_at" then Ok (Datetime.isoformat now')
  else Ok (Datetime.isoformat now).

Definition stored (k : string) : result string := Fields.invalid k.

(** ** Helper functions *)

(** Date objects become ISO strings before a dictionary is stored. *)
Definition date_to_iso (v : value) : value :=
  match v with
  | VDate d => VStr (Datetime.date_isoformat d)
  | _ => v
  end.

Definition prepare_for_mongo (data : document) : document := date_to_iso <$> data.

(** Truthiness of what [find_one] returns: [None] and the empty
    dictionary are falsy. *)
Definition found (r : option document) : option document :=
  match r with
  | Some d => if bool_decide (d = ∅) then None else Some d
  | None => None
  end.

Definition by_id (id : string) : Mongo.query := [("id", Mongo.Field (Mongo.CEq (VStr id)))].

Definition not_found {A} (detail : string) : result A :=
  Err (HTTPException 404 detail).

(** Python truthiness of the optional query parameters. *)
Definition given (s : option string) : option string :=
  match s with
  | Some x => if Str.truthy x then Some x else None
  | None => None
  end.

Definition flag (b : option bool) : bool :=
  match b with
  | Some true => true
  | _ => false
  end.

(** ** Patient endpoints

    A handler that writes returns the store it leaves behind next to its
    outcome: a write made before an exception stays. *)

Definition with_patients (db : database) (coll : list document) : database :=
  {| patients := coll; tasks := tasks db; contact_logs := contact_logs db;
     next_oid := next_oid db |}.

Definition with_tasks (db : database) (coll : list document) : database :=
  {| patients := patients db; tasks := coll; contact_logs := contact_logs db;
     next_oid := next_oid db |}.

(** The store after [insert_one]; the driver's identifier counter moves on. *)
Definition inserted (db : database) (ps ts cs : list document) : database :=
  {| patients := ps; tasks := ts; contact_logs := cs;
     next_oid := N.succ (next_oid db) |}.

Definition create_patient (db : database) (random : Z) (now now' : Datetime.datetime)
    (patient_data : PatientCreate.t) : database * result Patient.t :=
  let patient_dict := PatientCreate.dict patient_data in
  let patient_dict := prepare_for_mongo patient_dict in
  match Patient.init (fresh random now now') patient_dict with
  | Err e => (db, Err e)
  | Ok patient_obj =>
      let patient_dict := Patient.dict patient_obj in
      (inserted db (Mongo.insert_one (patients db) (next_oid db) patient_dict)
         (tasks db) (contact_logs db),
       Ok patient_obj)
  end.

Definition search_filter (search : string) : Mongo.qentry :=
  Mongo.Or [[("first_name", Mongo.CRegex search "i")];
            [("last_name", Mongo.CRegex search "i")];
            [("phone", Mongo.CRegex search "i")]].

(** [now] is the reading of the local clock, made only when the flag is set. *)
Definition get_patients (db : database) (now : Datetime.datetime)
    (search : option string) (tan_expiring : option bool) : result (list Patient.t) :=
  let query : Mongo.query := [] in
  let query :=
    match given search with
    | Some s => Mongo.set_item query "$or" (search_filter s)
    | None => query
    end in
  query ←
    (if flag tan_expiring then
       t ← Datetime.plus_days now 30;;;
       let thirty_days := Datetime.isoformat t in
       Ok (Mongo.set_item query "tan_expiry_date" (Mongo.Field (Mongo.CLte thirty_days)))
     else Ok query);;;
  cursor ← Mongo.find (patients db) query;;;
  let patients := Mongo.to_list 1000 cursor in
  traverse (Patient.init stored) patients.

Definition get_patient (db : database) (patient_id : string) : result Patient.t :=
  patient ← Mongo.find_one (patients db) (by_id patient_id);;;
  match found patient with
  | None => not_found "Patient not found"
  | Some patient => Patient.init stored patient
  end.

(** [{k: v for k, v in patient_update.dict().items() if v is not None}] with
    the refreshed [updated_at]. *)
Definition update_fields (now : Datetime.datetime) (patient_update : PatientUpdate.t)
    : document :=
  let update_dict := filter (λ kv, snd kv ≠ VNull) (PatientUpdate.dict patient_update) in
  let update_dict := <["updated_at" := VStr (Datetime.isoformat now)]> update_dict in
  prepare_for_mongo update_dict.

Definition update_patient (db : database) (now : Datetime.datetime)
    (patient_id : string) (patient_update : PatientUpdate.t)
    : database * result Patient.t :=
  match Mongo.find_one (patients db) (by_id patient_id) with
  | Err e => (db, Err e)
  | Ok existing_patient =>
      match found existing_patient with
      | None => (db, not_found "Patient not found")
      | Some _ =>
          let update_dict := update_fields now patient_update in
          match Mongo.update_one (patients db) (by_id patient_id) update_dict with
          | Err e => (db, Err e)
          | Ok r =>
              let db' := with_patients db (fst r) in
              (db',
               updated_patient ← Mongo.find_one (patients db') (by_id patient_id);;;
               match updated_patient with
               | Some d => Patient.init stored d
               | None => Err TypeError
               end)
          end
      end
  end.

Definition delete_patient (db : database) (patient_id : string)
    : database * result string :=
  match Mongo.delete_one (patients db) (by_id patient_id) with
  | Err e => (db, Err e)
  | Ok r =>
      (with_patients db (fst r),
       if (Mongo.deleted_count (snd r) =? 0)%nat then not_found "Patient not found"
       else Ok "Patient deleted successfully")
  end.

(** ** Task endpoints *)

Definition create_task (db : database) (random : Z) (now : Datetime.datetime)
    (task_data : TaskCreate.t) : database * result Task.t :=
  let task_dict := TaskCreate.dict task_data in
  let task_dict := prepare_for_mongo task_dict in
  match Task.init (fresh random now now) task_dict with
  | Err e => (db, Err e)
  | Ok task_obj =>
      let task_dict := Task.dict task_obj in
      (inserted db (patients db) (Mongo.insert_one (tasks db) (next_oid db) task_dict)
         (contact_logs db),
       Ok task_obj)
  end.

(** [now] is the reading of the UTC clock, made only when the flag is set. *)
Definition get_tasks (db : database) (now : Datetime.datetime)
    (patient_id : option string) (status : option TaskStatus.t)
    (due_today : option bool) : result (list Task.t) :=
  let query : Mongo.query := [] in
  let query :=
    match given patient_id with
    | Some p => Mongo.set_item query "patient_id" (Mongo.Field (Mongo.CEq (VStr p)))
    | None => query
    end in
  let query :=
    match status with
    | Some s =>
        if Str.truthy (TaskStatus.value s)
        then Mongo.set_item query "status"
               (Mongo.Field (Mongo.CEq (VStr (TaskStatus.value s))))
        else query
    | None => query
    end in
  let query :=
    if flag due_today then
      let today := Datetime.date_isoformat (Datetime.date_of now) in
      Mongo.set_item query "due_date" (Mongo.Field (Mongo.CEq (VStr today)))
    else query in
  cursor ← Mongo.find (tasks db) query;;;
  let tasks := Mongo.to_list 1000 cursor in
  traverse (Task.init stored) tasks.

Definition completion (now : Datetime.datetime) : document :=
  list_to_map [("status", VStr (TaskStatus.value TaskStatus.COMPLETED));
               ("completed_at", VStr (Datetime.isoformat now))].

Definition complete_task (db : database) (now : Datetime.datetime) (task_id : string)
    : database * result string :=
  match Mongo.update_one (tasks db) (by_id task_id) (completion now) with
  | Err e => (db, Err e)
  | Ok r =>
      (with_tasks db (fst r),
       if (Mongo.modified_count (snd r) =? 0)%nat then not_found "Task not found"
       else Ok "Task completed successfully")
  end.

(** ** Contact log endpoints *)

Definition create_contact_log (db : database) (random : Z) (now : Datetime.datetime)
    (contact_data : ContactLogCreate.t) : database * result ContactLog.t :=
  let contact_dict := ContactLogCreate.dict contact_data in
  let contact_dict := prepare_for_mongo contact_dict in
  match ContactLog.init (fresh random now now) contact_dict with
  | Err e => (db, Err e)
  | Ok contact_obj =>
      let contact_dict := ContactLog.dict contact_obj in
      (inserted db (patients db) (tasks db)
         (Mongo.insert_one (contact_logs db) (next_oid db) contact_dict),
       Ok contact_obj)
  end.

(** ** Reports endpoints *)

Record daily_call_report := {
  daily_tasks : list Task.t;
  callbacks_needed : list ContactLog.t;
  expiring_tans : list Patient.t;
  total_items : nat;
}.

(** [utcnow] is the reading of the UTC clock, [now] the later reading of the
    local clock. *)
Definition get_daily_call_report (db : database) (utcnow now : Datetime.datetime)
    : result daily_call_report :=
  let today := Datetime.date_isoformat (Datetime.date_of utcnow) in
  cursor ← Mongo.find (tasks db)
    [("due_date", Mongo.Field (Mongo.CEq (VStr today)));
     ("status", Mongo.Field (Mongo.CNe (VStr (TaskStatus.value TaskStatus.COMPLETED))))];;;
  let daily_tasks := Mongo.to_list 1000 cursor in
  cursor ← Mongo.find (contact_logs db)
    [("follow_up_needed", Mongo.Field (Mongo.CEq (VBool true)));
     ("follow_up_date", Mongo.Field (Mongo.CLte today))];;;
  let callback_logs := Mongo.to_list 1000 cursor in
  t ← Datetime.plus_days now 30;;;
  let thirty_days := Datetime.isoformat t in
  cursor ← Mongo.find (patients db)
    [("tan_expiry_date", Mongo.Field (Mongo.CLte thirty_days))];;;
  let expiring_tans := Mongo.to_list 1000 cursor in
  ts ← traverse (Task.init stored) daily_tasks;;;
  ls ← traverse (ContactLog.init stored) callback_logs;;;
  ps ← traverse (Patient.init stored) expiring_tans;;;
  Ok {| daily_tasks := ts; callbacks_needed := ls; expiring_tans := ps;
        total_items := length daily_tasks + length callback_logs + length expiring_tans |}.

Record monthly_summary := {
  total_patients : nat;
  new_patients : nat;
  billed_patients : nat;
  unable_to_contact : nat;
  medicaid_issues : nat;
  month : string;
}.

(** [now] is the reading of the local clock. *)
Definition get_monthly_summary (db : database) (now : Datetime.datetime)
    : result monthly_summary :=
  let current_month := Datetime.strftime_Y_m now in
  total_patients ← Mongo.count_documents (patients db) [];;;
  new_patients ← Mongo.count_documents (patients db)
    [("created_at", Mongo.Field (Mongo.CRegex ("^" ++ current_month) ""))];;;
  billed_patients ← Mongo.count_documents (patients db)
    [("last_billing_date", Mongo.Field (Mongo.CRegex ("^" ++ current_month) ""))];;;
  unable_to_contact ← Mongo.count_documents (contact_logs db)
    [("outcome",
      Mongo.Field (Mongo.CIn [VStr (ContactOutcome.value ContactOutcome.NO_ANSWER);
                              VStr (ContactOutcome.value ContactOutcome.DISCONNECTED)]));
     ("contact_date", Mongo.Field (Mongo.CRegex ("^" ++ current_month) ""))];;;
  medicaid_issues ← Mongo.count_documents (patients db)
    [("medicaid_eligible", Mongo.Field (Mongo.CEq (VBool false)))];;;
  Ok {| total_patients := total_patients; new_patients := new_patients;
        billed_patients := billed_patients; unable_to_contact := unable_to_contact;
        medicaid_issues := medicaid_issues; month := current_month |}.

(** * Vocabulary of the properties *)

(** Every character of a text passes the test. *)
Fixpoint all_chars (P : ascii → bool) (s : string) : bool :=
  match s with
  | EmptyString => true
  | String c s' => P c && all_chars P s'
  end.

(** A plain text holds no character with a meaning in a pattern. *)
Definition plain (s : string) : bool := all_chars (λ c, negb (Regex.is_meta c)) s.

(** The items of the pattern that matches the text itself. *)
Fixpoint literal (s : string) : list (Regex.atom * Regex.quant) :=
  match s with
  | EmptyString => []
  | String c s' => (Regex.AChar c, Regex.QOne) :: literal s'
  end.

(** Case folding under the caseless flag. *)
Definition fold_case (ci : bool) (s : string) : string :=
  if ci then Str.lower s else s.

(** The entity [create_patient] builds from its input and its readings. *)
Definition created_patient (random : Z) (now now' : Datetime.datetime)
    (data : PatientCreate.t) : Patient.t :=
  {| Patient.id := Uuid.str (Uuid.uuid4 random);
     Patient.first_name := PatientCreate.first_name data;
     Patient.last_name := PatientCreate.last_name data;
     Patient.phone := PatientCreate.phone data;
     Patient.address := PatientCreate.address data;
     Patient.height := PatientCreate.height data;
     Patient.weight := PatientCreate.weight data;
     Patient.icd10_codes := PatientCreate.icd10_codes data;
     Patient.doctor := PatientCreate.doctor data;
     Patient.current_tan := PatientCreate.current_tan data;
     Patient.tan_expiry_date := PatientCreate.tan_expiry_date data;
     Patient.medicaid_id := PatientCreate.medicaid_id data;
     Patient.medicaid_eligible := PatientCreate.medicaid_eligible data;
     Patient.last_billing_date := None;
     Patient.products := PatientCreate.products data;
     Patient.notes := PatientCreate.notes data;
     Patient.created_at := Datetime.isoformat now;
     Patient.updated_at := Datetime.isoformat now' |}.

(** No stored patient answers to the identifier [i]. *)
Definition unused_id (db : database) (i : string) : Prop :=
  ∀ d, d ∈ patients db → Mongo.matches (by_id i) d = false.

(** The entity after merging the present fields of a partial input. *)
Definition merged_patient (now : Datetime.datetime) (u : PatientUpdate.t) (p : Patient.t)
    : Patient.t :=
  {| Patient.id := Patient.id p;
     Patient.first_name := default (Patient.first_name p) (PatientUpdate.first_name u);
     Patient.last_name := default (Patient.last_name p) (PatientUpdate.last_name u);
     Patient.phone := default (Patient.phone p) (PatientUpdate.phone u);
     Patient.address := default (Patient.address p) (PatientUpdate.address u);
     Patient.height := from_option Some (Patient.height p) (PatientUpdate.height u);
     Patient.weight := from_option Some (Patient.weight p) (PatientUpdate.weight u);
     Patient.icd10_codes := default (Patient.icd10_codes p) (PatientUpdate.icd10_codes u);
     Patient.doctor := default (Patient.doctor p) (PatientUpdate.doctor u);
     Patient.current_tan := default (Patient.current_tan p) (PatientUpdate.current_tan u);
     Patient.tan_expiry_date :=
       default (Patient.tan_expiry_date p) (PatientUpdate.tan_expiry_date u);
     Patient.medicaid_id := default (Patient.medicaid_id p) (PatientUpdate.medicaid_id u);
     Patient.medicaid_eligible :=
       default (Patient.medicaid_eligible p) (PatientUpdate.medicaid_eligible u);
     Patient.last_billing_date :=
       from_option Some (Patient.last_billing_date p) (PatientUpdate.last_billing_date u);
     Patient.products := default (Patient.products p) (PatientUpdate.products u);
     Patient.notes := default (Patient.notes p) (PatientUpdate.notes u);
     Patient.created_at := Patient.created_at p;
     Patient.updated_at := Datetime.isoformat now |}.

(** The fields left out of a partial input keep their value. *)
Definition omitted_retained (u : PatientUpdate.t) (p p' : Patient.t) : Prop :=
  (PatientUpdate.first_name u = None → Patient.first_name p' = Patient.first_name p) ∧
  (PatientUpdate.last_name u = None → Patient.last_name p' = Patient.last_name p) ∧
  (PatientUpdate.phone u = None → Patient.phone p' = Patient.phone p) ∧
  (PatientUpdate.address u = None → Patient.address p' = Patient.address p) ∧
  (PatientUpdate.height u = None → Patient.height p' = Patient.height p) ∧
  (PatientUpdate.weight u = None → Patient.weight p' = Patient.weight p) ∧
  (PatientUpdate.icd10_codes u = None → Patient.icd10_codes p' = Patient.icd10_codes p) ∧
  (PatientUpdate.doctor u = None → Patient.doctor p' = Patient.doctor p) ∧
  (PatientUpdate.current_tan u = None → Patient.current_tan p' = Patient.current_tan p) ∧
  (PatientUpdate.tan_expiry_date u = None →
   Patient.tan_expiry_date p' = Patient.tan_expiry_date p) ∧
  (PatientUpdate.medicaid_id u = None → Patient.medicaid_id p' = Patient.medicaid_id p) ∧
  (PatientUpdate.medicaid_eligible u = None →
   Patient.medicaid_eligible p' = Patient.medicaid_eligible p) ∧
  (PatientUpdate.last_billing_date u = None →
   Patient.last_billing_date p' = Patient.last_billing_date p) ∧
  (PatientUpdate.products u = None → Patient.products p' = Patient.products p) ∧
  (PatientUpdate.notes u = None → Patient.notes p' = Patient.notes p).

(** The fields present in a partial input take its value. *)
Definition present_written (u : PatientUpdate.t) (p' : Patient.t) : Prop :=
  (∀ x, PatientUpdate.first_name u = Some x → Patient.first_name p' = x) ∧
  (∀ x, PatientUpdate.last_name u = Some x → Patient.last_name p' = x) ∧
  (∀ x, PatientUpdate.phone u = Some x → Patient.phone p' = x) ∧
  (∀ x, PatientUpdate.address u = Some x → Patient.address p' = x) ∧
  (∀ x, PatientUpdate.height u = Some x → Patient.height p' = Some x) ∧
  (∀ x, PatientUpdate.weight u = Some x → Patient.weight p' = Some x) ∧
  (∀ x, PatientUpdate.icd10_codes u = Some x → Patient.icd10_codes p' = x) ∧
  (∀ x, PatientUpdate.doctor u = Some x → Patient.doctor p' = x) ∧
  (∀ x, PatientUpdate.current_tan u = Some x → Patient.current_tan p' = x) ∧
  (∀ x, PatientUpdate.tan_expiry_date u = Some x → Patient.tan_expiry_date p' = x) ∧
  (∀ x, PatientUpdate.medicaid_id u = Some x → Patient.medicaid_id p' = x) ∧
  (∀ x, PatientUpdate.medicaid_eligible u = Some x → Patient.medicaid_eligible p' = x) ∧
  (∀ x, PatientUpdate.last_billing_date u = Some x →
        Patient.last_billing_date p' = Some x) ∧
  (∀ x, PatientUpdate.products u = Some x → Patient.products p' = x) ∧
  (∀ x, PatientUpdate.notes u = Some x → Patient.notes p' = x).

(** Chronological order of calendar dates. *)
Definition date_lt (a b : Datetime.date) : Prop :=
  (Datetime.year a < Datetime.year b ∨
   (Datetime.year a = Datetime.year b ∧
    (Datetime.month a < Datetime.month b ∨
     (Datetime.month a = Datetime.month b ∧ Datetime.day a < Datetime.day b))))%Z.

(** The authorization of [p] expires on or before the bound (byte order). *)
Definition tan_expires_by (bound : string) (p : Patient.t) : Prop :=
  String.leb (Patient.tan_expiry_date p) bound = true.

#[global] Instance tan_expires_by_dec bound p : Decision (tan_expires_by bound p).
Proof. unfold tan_expires_by. apply _. Defined.

#[global] Instance TaskStatus_eq_dec : EqDecision TaskStatus.t.
Proof. solve_decision. Defined.

(** A task due on [today] that is not completed. *)
Definition due_and_open (today : string) (x : Task.t) : Prop :=
  Task.due_date x = Some today ∧ Task.status x ≠ TaskStatus.COMPLETED.

#[global] Instance due_and_open_dec today x : Decision (due_and_open today x).
Proof. unfold due_and_open. apply _. Defined.

(** A contact log flagged for follow-up whose follow-up date is [today] or
    earlier (byte order). *)
Definition callback_due (today : string) (x : ContactLog.t) : Prop :=
  ContactLog.follow_up_needed x = true ∧
  match ContactLog.follow_up_date x with
  | Some s => String.leb s today = true
  | None => False
  end.

#[global] Instance callback_due_dec today x : Decision (callback_due today x).
Proof. unfold callback_due. destruct (ContactLog.follow_up_date x); apply _. Defined.

(** One of the three searched fields holds the text, letter case apart. *)
Definition name_or_phone_contains (search : string) (p : Patient.t) : Prop :=
  Str.contains (Str.lower search) (Str.lower (Patient.first_name p)) = true ∨
  Str.contains (Str.lower search) (Str.lower (Patient.last_name p)) = true ∨
  Str.contains (Str.lower search) (Str.lower (Patient.phone p)) = true.

#[global] Instance name_or_phone_contains_dec s p : Decision (name_or_phone_contains s p).
Proof. unfold name_or_phone_contains. apply _. Defined.

(** Every document of the three collections validates as its model. *)
Definition valid_store (db : database) : Prop :=
  Forall (λ d, ∃ p, Patient.init stored d = Ok p) (patients db) ∧
  Forall (λ d, ∃ x, Task.init stored d = Ok x) (tasks db) ∧
  Forall (λ d, ∃ x, ContactLog.init stored d = Ok x) (contact_logs db).

(** The requests that write. *)
Inductive request :=
| CreatePatient (random : Z) (now now' : Datetime.datetime) (data : PatientCreate.t)
| UpdatePatient (now : Datetime.datetime) (patient_id : string) (u : PatientUpdate.t)
| DeletePatient (patient_id : string)
| CreateTask (random : Z) (now : Datetime.datetime) (data : TaskCreate.t)
| CompleteTask (now : Datetime.datetime) (task_id : string)
| CreateContactLog (random : Z) (now : Datetime.datetime) (data : ContactLogCreate.t).

(** The store a request leaves behind. *)
Definition handle (db : database) (r : request) : database :=
  match r with
  | CreatePatient random now now' data => fst (create_patient db random now now' data)
  | UpdatePatient now patient_id u => fst (update_patient db now patient_id u)
  | DeletePatient patient_id => fst (delete_patient db patient_id)
  | CreateTask random now data => fst (create_task db random now data)
  | CompleteTask now task_id => fst (complete_task db now task_id)
  | CreateContactLog random now data => fst (create_contact_log db random now data)
  end.

Definition empty_store : database :=
  {| patients := []; tasks := []; contact_logs := []; next_oid := 0 |}.

(** The stores the handlers can produce from the empty one. *)
Definition reachable (db : database) : Prop :=
  ∃ rs, db = fold_left handle rs empty_store.

(** ** A small office, and a crowded one *)

Module Sample.

Definition dr : Doctor.t :=
  {| Doctor.name := "Dr. Hale"; Doctor.phone := "601-555-0111";
     Doctor.fax := "601-555-0112"; Doctor.address := None |}.

Definition john_in : PatientCreate.t :=
  {| PatientCreate.first_name := "John"; PatientCreate.last_name := "Smith";
     PatientCreate.phone := "601-555-0100"; PatientCreate.address := "1 Main St";
     PatientCreate.height := None; PatientCreate.weight := Some "150";
     PatientCreate.icd10_codes := ["R32"]; PatientCreate.doctor := dr;
     PatientCreate.current_tan := "T-100"; PatientCreate.tan_expiry_date := "2024-01-25";
     PatientCreate.medicaid_id := "M-1"; PatientCreate.medicaid_eligible := true;
     PatientCreate.products := ["diapers"]; PatientCreate.notes := "" |}.

Definition ann_in : PatientCreate.t :=
  {| PatientCreate.first_name := "Ann"; PatientCreate.last_name := "Lee";
     PatientCreate.phone := "+16015550199"; PatientCreate.address := "2 Oak Ave";
     PatientCreate.height := Some "64"; PatientCreate.weight := None;
     PatientCreate.icd10_codes := []; PatientCreate.doctor := dr;
     PatientCreate.current_tan := "T-200"; PatientCreate.tan_expiry_date := "2024-02-14";
     PatientCreate.medicaid_id := "M-2"; PatientCreate.medicaid_eligible := false;
     PatientCreate.products := ["underpads"]; PatientCreate.notes := "call after 5" |}.

(** A reading of the UTC clock and one of the local clock. *)
Definition utc0 : Datetime.datetime :=
  {| Datetime.date_of := {| Datetime.year := 2024; Datetime.month := 1; Datetime.day := 5 |};
     Datetime.hour := 9; Datetime.minute := 3; Datetime.second := 0;
     Datetime.microsecond := 1234; Datetime.tzinfo := true |}.

(** A later reading of the UTC clock. *)
Definition utc1 : Datetime.datetime :=
  {| Datetime.date_of := {| Datetime.year := 2024; Datetime.month := 1; Datetime.day := 5 |};
     Datetime.hour := 14; Datetime.minute := 30; Datetime.second := 12;
     Datetime.microsecond := 500000; Datetime.tzinfo := true |}.

Definition local0 : Datetime.datetime :=
  {| Datetime.date_of := {| Datetime.year := 2024; Datetime.month := 1; Datetime.day := 5 |};
     Datetime.hour := 3; Datetime.minute := 3; Datetime.second := 0;
     Datetime.microsecond := 1300; Datetime.tzinfo := false |}.

(** 30 days after [local0], and the dates 20 and 40 days after it. *)
Definition local30 : Datetime.datetime :=
  {| Datetime.date_of := {| Datetime.year := 2024; Datetime.month := 2; Datetime.day := 4 |};
     Datetime.hour := 3; Datetime.minute := 3; Datetime.second := 0;
     Datetime.microsecond := 1300; Datetime.tzinfo := false |}.

Definition day20 : Datetime.date :=
  {| Datetime.year := 2024; Datetime.month := 1; Datetime.day := 25 |}.

Definition day40 : Datetime.date :=
  {| Datetime.year := 2024; Datetime.month := 2; Datetime.day := 14 |}.

Definition john : Patient.t := created_patient 7 utc0 utc0 john_in.
Definition ann : Patient.t := created_patient 8 utc0 utc0 ann_in.

Definition john_id : string := "00000000-0000-4000-8000-000000000007".

(** The store after the two patients were created. *)
Definition office : database :=
  fold_left handle
    [CreatePatient 7 utc0 utc0 john_in; CreatePatient 8 utc0 utc0 ann_in] empty_store.

Definition john_doc : document := <["_id" := VOid 0]> (Patient.dict john).

Definition upd : PatientUpdate.t :=
  {| PatientUpdate.first_name := Some "Johnny"; PatientUpdate.last_name := None;
     PatientUpdate.phone := None; PatientUpdate.address := None;
     PatientUpdate.height := Some "70"; PatientUpdate.weight := None;
     PatientUpdate.icd10_codes := None; PatientUpdate.doctor := None;
     PatientUpdate.current_tan := None; PatientUpdate.tan_expiry_date := None;
     PatientUpdate.medicaid_id := None; PatientUpdate.medicaid_eligible := Some false;
     PatientUpdate.last_billing_date := None; PatientUpdate.products := None;
     PatientUpdate.notes := None |}.

Definition task_in : TaskCreate.t :=
  {| TaskCreate.patient_id := john_id; TaskCreate.task_type := TaskType.CALL_PATIENT;
     TaskCreate.title := "Call about renewal"; TaskCreate.description := "";
     TaskCreate.due_date := Some "2024-01-05" |}.

Definition task_id : string := "00000000-0000-4000-8000-000000000009".

Definition log_in : ContactLogCreate.t :=
  {| ContactLogCreate.patient_id := john_id;
     ContactLogCreate.outcome := ContactOutcome.NO_ANSWER;
     ContactLogCreate.notes := ""; ContactLogCreate.follow_up_needed := true;
     ContactLogCreate.follow_up_date := Some "2024-01-04" |}.

(** The office with one task due today and one contact log to follow up. *)
Definition busy_office : database :=
  fold_left handle [CreateTask 9 utc0 task_in; CreateContactLog 10 utc0 log_in] office.

(** The validated contents of [busy_office]. *)
Definition the_task : Task.t :=
  {| Task.id := task_id; Task.patient_id := john_id;
     Task.task_type := TaskType.CALL_PATIENT; Task.title := "Call about renewal";
     Task.description := ""; Task.assigned_to := "admin";
     Task.status := TaskStatus.PENDING; Task.due_date := Some "2024-01-05";
     Task.created_at := Datetime.isoformat utc0; Task.completed_at := None |}.

Definition the_log : ContactLog.t :=
  {| ContactLog.id := "00000000-0000-4000-8000-00000000000a";
     ContactLog.patient_id := john_id;
     ContactLog.contact_date := Datetime.isoformat utc0;
     ContactLog.outcome := ContactOutcome.NO_ANSWER; ContactLog.notes := "";
     ContactLog.follow_up_needed := true;
     ContactLog.follow_up_date := Some "2024-01-04" |}.

(** [n] patients, all created from [john_in] with the identifiers of the
    random bits [0], [1], ... *)
Definition crowd (n : nat) : database :=
  fold_left handle ((λ i, CreatePatient (Z.of_nat i) utc0 utc0 john_in) <$> seq 0 n)
    empty_store.

Definition crowd_patients (n : nat) : list Patient.t :=
  (λ i, created_patient (Z.of_nat i) utc0 utc0 john_in) <$> seq 0 n.

(** [n] tasks due on the day of [utc0]. *)
Definition backlog (n : nat) : database :=
  fold_left handle ((λ i, CreateTask (Z.of_nat i) utc0 task_in) <$> seq 0 n) empty_store.

Definition backlog_tasks (n : nat) : list Task.t :=
  (λ i, {| Task.id := Uuid.str (Uuid.uuid4 (Z.of_nat i)); Task.patient_id := john_id;
           Task.task_type := TaskType.CALL_PATIENT; Task.title := "Call about renewal";
           Task.description := ""; Task.assigned_to := "admin";
           Task.status := TaskStatus.PENDING; Task.due_date := Some "2024-01-05";
           Task.created_at := Datetime.isoformat utc0; Task.completed_at := None |})
  <$> seq 0 n.

End Sample.

(** ** Listing the contact logs of a patient

    [cursor.sort(field, direction)] orders the documents by the value under
    [field]: values of different types by their type (null or missing, then
    strings, embedded documents, arrays, identifiers, booleans, dates),
    strings in byte order.  Values of one type other than strings are not
    ordered further here, and an array is ranked as an array where the
    store compares one of its elements: the handlers sort on a field that
    holds strings, and the properties are about such collections.
    Documents with equal keys keep the order of the cursor, which the
    store leaves open. *)

Definition sort_rank (fv : option value) : N :=
  match fv with
  | None | Some VNull => 1
  | Some (VStr _) => 3
  | Some (VDict _) => 4
  | Some (VList _) => 5
  | Some (VOid _) => 7
  | Some (VBool _) => 8
  | Some (VDate _) => 9
  end.

Definition sort_key (field : string) (d : document) : N * string :=
  (sort_rank (d !! field),
   match d !! field with
   | Some (VStr s) => s
   | _ => ""
   end).

Definition key_le (a b : N * string) : Prop :=
  ((fst a <? fst b)%N || ((fst a =? fst b)%N && String.leb (snd a) (snd b))) = true.

(** [direction] is [1] for ascending and [-1] for descending order. *)
Definition in_order (field : string) (direction : Z) (a b : document) : Prop :=
  if (direction <? 0)%Z then key_le (sort_key field b) (sort_key field a)
  else key_le (sort_key field a) (sort_key field b).

#[global] Instance in_order_dec field direction a b :
  Decision (in_order field direction a b).
Proof. unfold in_order, key_le. destruct (direction <? 0)%Z; apply _. Defined.

Definition cursor_sort (field : string) (direction : Z) (cursor : list document)
    : list document :=
  merge_sort (in_order field direction) cursor.

Definition get_patient_contact_logs (db : database) (patient_id : string)
    : result (list ContactLog.t) :=
  cursor ← Mongo.find (contact_logs db)
    [("patient_id", Mongo.Field (Mongo.CEq (VStr patient_id)))];;;
  let logs := Mongo.to_list 1000 (cursor_sort "contact_date" (-1) cursor) in
  traverse (ContactLog.init stored) logs.

(** The first contact log is at least as recent as the second (byte order
    of the timestamps). *)
Definition newest_first (a b : ContactLog.t) : Prop :=
  String.leb (ContactLog.contact_date b) (ContactLog.contact_date a) = true.

#[global] Instance newest_first_dec a b : Decision (newest_first a b).
Proof. unfold newest_first. apply _. Defined.

(** ** The typed contents of the store *)

(** The entities [create_task] and [create_contact_log] build. *)
Definition created_task (random : Z) (now : Datetime.datetime) (data : TaskCreate.t)
    : Task.t :=
  {| Task.id := Uuid.str (Uuid.uuid4 random);
     Task.patient_id := TaskCreate.patient_id data;
     Task.task_type := TaskCreate.task_type data;
     Task.title := TaskCreate.title data;
     Task.description := TaskCreate.description data;
     Task.assigned_to := "admin";
     Task.status := TaskStatus.PENDING;
     Task.due_date := TaskCreate.due_date data;
     Task.created_at := Datetime.isoformat now;
     Task.completed_at := None |}.

Definition created_log (random : Z) (now : Datetime.datetime) (data : ContactLogCreate.t)
    : ContactLog.t :=
  {| ContactLog.id := Uuid.str (Uuid.uuid4 random);
     ContactLog.patient_id := ContactLogCreate.patient_id data;
     ContactLog.contact_date := Datetime.isoformat now;
     ContactLog.outcome := ContactLogCreate.outcome data;
     ContactLog.notes := ContactLogCreate.notes data;
     ContactLog.follow_up_needed := ContactLogCreate.follow_up_needed data;
     ContactLog.follow_up_date := ContactLogCreate.follow_up_date data |}.

(** A task after its completion at [now]. *)
Definition completed_task (now : Datetime.datetime) (x : Task.t) : Task.t :=
  {| Task.id := Task.id x; Task.patient_id := Task.patient_id x;
     Task.task_type := Task.task_type x; Task.title := Task.title x;
     Task.description := Task.description x; Task.assigned_to := Task.assigned_to x;
     Task.status := TaskStatus.COMPLETED; Task.due_date := Task.due_date x;
     Task.created_at := Task.created_at x;
     Task.completed_at := Some (Datetime.isoformat now) |}.

(** The first element that passes [P] is replaced by its image, or removed. *)
Fixpoint replace_first {X} (P : X → bool) (g : X → X) (xs : list X) : list X :=
  match xs with
  | [] => []
  | x :: xs' => if P x then g x :: xs' else x :: replace_first P g xs'
  end.

Fixpoint remove_first {X} (P : X → bool) (xs : list X) : list X :=
  match xs with
  | [] => []
  | x :: xs' => if P x then xs' else x :: remove_first P xs'
  end.

(** The document is what [dict()] gives for the entity, with the [_id] of
    the store. *)
Definition stored_as {X} (dict : X → document) (x : X) (d : document) : Prop :=
  ∃ oid, d = <["_id" := VOid oid]> (dict x).

(** The entity a document validates as, if any. *)
Definition parsed {X} (init : document → result X) (d : document) : option X :=
  match init d with
  | Ok x => Some x
  | Err _ => None
  end.

Record contents := {
  the_patients : list Patient.t;
  the_tasks : list Task.t;
  the_logs : list ContactLog.t;
}.

(** The three collections hold, in order, the documents of these entities. *)
Definition represents (db : database) (c : contents) : Prop :=
  Forall2 (stored_as Patient.dict) (the_patients c) (patients db) ∧
  Forall2 (stored_as Task.dict) (the_tasks c) (tasks db) ∧
  Forall2 (stored_as ContactLog.dict) (the_logs c) (contact_logs db).

(** What a request does to the contents. *)
Definition apply (c : contents) (r : request) : contents :=
  match r with
  | CreatePatient random now now' data =>
      {| the_patients := the_patients c ++ [created_patient random now now' data];
         the_tasks := the_tasks c; the_logs := the_logs c |}
  | UpdatePatient now patient_id u =>
      {| the_patients :=
           replace_first (λ p, String.eqb (Patient.id p) patient_id)
             (merged_patient now u) (the_patients c);
         the_tasks := the_tasks c; the_logs := the_logs c |}
  | DeletePatient patient_id =>
      {| the_patients :=
           remove_first (λ p, String.eqb (Patient.id p) patient_id) (the_patients c);
         the_tasks := the_tasks c; the_logs := the_logs c |}
  | CreateTask random now data =>
      {| the_patients := the_patients c;
         the_tasks := the_tasks c ++ [created_task random now data];
         the_logs := the_logs c |}
  | CompleteTask now task_id =>
      {| the_patients := the_patients c;
         the_tasks :=
           replace_first (λ x, String.eqb (Task.id x) task_id) (completed_task now)
             (the_tasks c);
         the_logs := the_logs c |}
  | CreateContactLog random now data =>
      {| the_patients := the_patients c; the_tasks := the_tasks c;
         the_logs := the_logs c ++ [created_log random now data] |}
  end.

(** The conditions of [get_tasks] on a task, each one optional. *)
Definition task_passes (patient_id : option string) (status : option TaskStatus.t)
    (today : option string) (x : Task.t) : Prop :=
  from_option (λ p, Task.patient_id x = p) True patient_id ∧
  from_option (λ s, Task.status x = s) True status ∧
  from_option (λ t, Task.due_date x = Some t) True today.

#[global] Instance task_passes_dec patient_id status today x :
  Decision (task_passes patient_id status today x).
Proof.
  unfold task_passes.
  destruct patient_id, status, today; simpl; apply _.
Defined.

(** The conditions of the monthly counts: a timestamp of the month
    ["YYYY-MM"], a billing in it, a failed contact attempt in it. *)
Definition in_month (month : string) (stamp : string) : Prop :=
  Str.starts_with month stamp = true.

#[global] Instance in_month_dec month stamp : Decision (in_month month stamp).
Proof. unfold in_month. apply _. Defined.

Definition billed_in (month : string) (p : Patient.t) : Prop :=
  from_option (in_month month) False (Patient.last_billing_date p).

#[global] Instance billed_in_dec month p : Decision (billed_in month p).
Proof. unfold billed_in. destruct (Patient.last_billing_date p); simpl; apply _. Defined.

#[global] Instance ContactOutcome_eq_dec : EqDecision ContactOutcome.t.
Proof. solve_decision. Defined.

Definition unreachable_in (month : string) (x : ContactLog.t) : Prop :=
  (ContactLog.outcome x = ContactOutcome.NO_ANSWER ∨
   ContactLog.outcome x = ContactOutcome.DISCONNECTED) ∧
  in_month month (ContactLog.contact_date x).

#[global] Instance unreachable_in_dec month x : Decision (unreachable_in month x).
Proof. unfold unreachable_in. apply _. Defined.

(** A partial input with no field set, and what it does to a patient. *)
Definition no_fields : PatientUpdate.t :=
  {| PatientUpdate.first_name := None; PatientUpdate.last_name := None;
     PatientUpdate.phone := None; PatientUpdate.address := None;
     PatientUpdate.height := None; PatientUpdate.weight := None;
     PatientUpdate.icd10_codes := None; PatientUpdate.doctor := None;
     PatientUpdate.current_tan := None; PatientUpdate.tan_expiry_date := None;
     PatientUpdate.medicaid_id := None; PatientUpdate.medicaid_eligible := None;
     PatientUpdate.last_billing_date := None; PatientUpdate.products := None;
     PatientUpdate.notes := None |}.

Definition touched (now : Datetime.datetime) (p : Patient.t) : Patient.t :=
  {| Patient.id := Patient.id p; Patient.first_name := Patient.first_name p;
     Patient.last_name := Patient.last_name p; Patient.phone := Patient.phone p;
     Patient.address := Patient.address p; Patient.height := Patient.height p;
     Patient.weight := Patient.weight p; Patient.icd10_codes := Patient.icd10_codes p;
     Patient.doctor := Patient.doctor p; Patient.current_tan := Patient.current_tan p;
     Patient.tan_expiry_date := Patient.tan_expiry_date p;
     Patient.medicaid_id := Patient.medicaid_id p;
     Patient.medicaid_eligible := Patient.medicaid_eligible p;
     Patient.last_billing_date := Patient.last_billing_date p;
     Patient.products := Patient.products p; Patient.notes := Patient.notes p;
     Patient.created_at := Patient.created_at p;
     Patient.updated_at := Datetime.isoformat now |}.

Definition empty_contents : contents :=
  {| the_patients := []; the_tasks := []; the_logs := [] |}.

(** The store and the contents after a history of requests. *)
Definition serve (rs : list request) : database := fold_left handle rs empty_store.
Definition run (rs : list request) : contents := fold_left apply rs empty_contents.

(** The contents of the sample stores. *)
Module Contents.

Definition office : contents :=
  {| the_patients := [Sample.john; Sample.ann]; the_tasks := []; the_logs := [] |}.

Definition busy_office : contents :=
  {| the_patients := [Sample.john; Sample.ann]; the_tasks := [Sample.the_task];
     the_logs := [Sample.the_log] |}.

(** The busy office after two more calls: one to Ann, a later one to John. *)
Definition ann_id : string := "00000000-0000-4000-8000-000000000008".

Definition ann_log_in : ContactLogCreate.t :=
  {| ContactLogCreate.patient_id := ann_id;
     ContactLogCreate.outcome := ContactOutcome.CONTACTED;
     ContactLogCreate.notes := "reordered"; ContactLogCreate.follow_up_needed := false;
     ContactLogCreate.follow_up_date := None |}.

Definition calls : list request :=
  [CreateContactLog 12 Sample.utc0 ann_log_in;
   CreateContactLog 13 Sample.utc1 Sample.log_in].

Definition call_center_store : database := fold_left handle calls Sample.busy_office.

Definition call_center : contents := fold_left apply calls busy_office.

End Contents.

(** ** A doctor with an address on file *)

Module Clinic.

Definition dr_elm : Doctor.t :=
  {| Doctor.name := "Dr. Hale"; Doctor.phone := "601-555-0111";
     Doctor.fax := "601-555-0112"; Doctor.address := Some "9 Elm St" |}.

Definition eve_in : PatientCreate.t :=
  {| PatientCreate.first_name := "Eve"; PatientCreate.last_name := "Ward";
     PatientCreate.phone := "601-555-0177"; PatientCreate.address := "3 Pine Rd";
     PatientCreate.height := None; PatientCreate.weight := None;
     PatientCreate.icd10_codes := []; PatientCreate.doctor := dr_elm;
     PatientCreate.current_tan := "T-300"; PatientCreate.tan_expiry_date := "2024-03-01";
     PatientCreate.medicaid_id := "M-3"; PatientCreate.medicaid_eligible := true;
     PatientCreate.products := []; PatientCreate.notes := "" |}.

Definition eve : Patient.t := created_patient 21 Sample.utc0 Sample.utc0 eve_in.

Definition eve_id : string := "00000000-0000-4000-8000-000000000015".

(** The office after Eve was registered. *)
Definition store : database :=
  fold_left handle [CreatePatient 21 Sample.utc0 Sample.utc0 eve_in] Sample.office.

(** A partial input that names the doctor, without an address. *)
Definition new_doctor : PatientUpdate.t :=
  {| PatientUpdate.first_name := None; PatientUpdate.last_name := None;
     PatientUpdate.phone := None; PatientUpdate.address := None;
     PatientUpdate.height := None; PatientUpdate.weight := None;
     PatientUpdate.icd10_codes := None; PatientUpdate.doctor := Some Sample.dr;
     PatientUpdate.current_tan := None; PatientUpdate.tan_expiry_date := None;
     PatientUpdate.medicaid_id := None; PatientUpdate.medicaid_eligible := None;
     PatientUpdate.last_billing_date := None; PatientUpdate.products := None;
     PatientUpdate.notes := None |}.

End Clinic.

(** * Properties *)

(** ** Results and lists *)

Lemma bind_Ok {A B} (r : result A) (k : A → result B) (b : B) :
  bind r k = Ok b → ∃ a, r = Ok a ∧ k a = Ok b.
Proof. destruct r as [a | e]; simpl; [eauto | discriminate]. Qed.

Ltac bind_inv H :=
  repeat match type of H with
  | bind _ _ = Ok _ =>
      let x := fresh "x" in
      let E := fresh "E" in
      apply bind_Ok in H; destruct H as (x & E & H)
  end.

Lemma traverse_length {A B} (f : A → result B) xs ys :
  traverse f xs = Ok ys → length ys = length xs.
Proof.
  revert ys; induction xs as [| x xs IH]; intros ys H; simpl in H.
  - by inversion H.
  - bind_inv H. inversion H; subst. simpl. f_equal. by apply IH.
Qed.

Lemma traverse_take {A B} (f : A → result B) n xs ys :
  traverse f xs = Ok ys → traverse f (take n xs) = Ok (take n ys).
Proof.
  revert n ys; induction xs as [| x xs IH]; intros n ys H; simpl in H.
  - inversion H. by destruct n.
  - bind_inv H. inversion H; subst. destruct n as [| n]; [done |].
    simpl. rewrite E. simpl. by rewrite (IH n _ E0).
Qed.

(** Filtering the documents by [P] and validating, against validating and
    filtering the entities by [Q], when [P] and [Q] agree through [f]. *)
Lemma traverse_filter {A B} (f : A → result B) (P : A → Prop) (Q : B → Prop)
    `{∀ x, Decision (P x)} `{∀ y, Decision (Q y)} xs ys :
  (∀ x y, x ∈ xs → f x = Ok y → P x ↔ Q y) →
  traverse f xs = Ok ys →
  traverse f (filter P xs) = Ok (filter Q ys).
Proof.
  revert ys; induction xs as [| x xs IH]; intros ys HPQ H1; simpl in H1.
  - by inversion H1.
  - bind_inv H1. inversion H1; subst.
    assert (HPQ' : ∀ x y, x ∈ xs → f x = Ok y → P x ↔ Q y).
    { intros ? ? ?. apply HPQ. by right. }
    specialize (IH _ HPQ' E0).
    pose proof (HPQ x x0 ltac:(left) E) as Hx.
    rewrite filter_cons, (filter_cons _ x0).
    destruct (decide (P x)) as [HP | HP], (decide (Q x0)) as [HQ | HQ]; try tauto.
    simpl. by rewrite E, IH.
Qed.

Lemma filter_all {A} (P : A → Prop) `{∀ x, Decision (P x)} (l : list A) :
  (∀ x, x ∈ l → P x) → filter P l = l.
Proof.
  induction l as [| x l IH]; intros HP; [done |].
  rewrite filter_cons_True by (apply HP; left).
  f_equal. apply IH. intros y Hy. apply HP. by right.
Qed.

Lemma filter_none {A} (P : A → Prop) `{∀ x, Decision (P x)} (l : list A) :
  (∀ x, x ∈ l → ¬ P x) → filter P l = [].
Proof.
  induction l as [| x l IH]; intros HP; [done |].
  rewrite filter_cons_False by (apply HP; left).
  apply IH. intros y Hy. apply HP. by right.
Qed.

(** ** Strings *)

Lemma append_nil_r (s : string) : s ++ "" = s.
Proof. induction s as [| c s IH]; simpl; [done | by rewrite IH]. Qed.

Lemma append_assoc (a b c : string) : (a ++ b) ++ c = a ++ (b ++ c).
Proof. induction a as [| x a IH]; simpl; [done | by rewrite IH]. Qed.

Lemma all_chars_app P (a b : string) :
  all_chars P (a ++ b) = all_chars P a && all_chars P b.
Proof. induction a as [| x a IH]; simpl; [done | by rewrite IH, andb_assoc]. Qed.

Lemma starts_with_spec (p s : string) :
  Str.starts_with p s = true ↔ ∃ post, s = p ++ post.
Proof.
  revert s; induction p as [| a p IH]; intros s; simpl.
  - split; [eauto | done].
  - destruct s as [| b s].
    + split; [done | intros [post E]; discriminate].
    + rewrite andb_true_iff, IH. split.
      * intros [Hab [post ->]]. apply Ascii.eqb_eq in Hab as ->. eauto.
      * intros [post [= -> ->]]. split; [apply Ascii.eqb_refl | eauto].
Qed.

Lemma contains_spec (needle hay : string) :
  Str.contains needle hay = true ↔ ∃ pre post, hay = pre ++ needle ++ post.
Proof.
  induction hay as [| c hay IH]; simpl.
  - rewrite orb_false_r, starts_with_spec. split.
    + intros [post E]. by exists "", post.
    + intros (pre & post & E). destruct pre; [eauto | discriminate].
  - rewrite orb_true_iff, starts_with_spec, IH. split.
    + intros [[post E] | (pre & post & E)].
      * by exists "", post.
      * exists (String c pre), post. simpl. by rewrite E.
    + intros ([| x pre] & post & E); simpl in E.
      * left; eauto.
      * right. inversion E. eauto.
Qed.

(** ** Patterns without metacharacters *)

Lemma lex_plain_char (c : ascii) (t : string) :
  Regex.is_meta c = false →
  Regex.lex (String c t) = Regex.TAtom (Regex.AChar c) :: Regex.lex t.
Proof.
  intros Hc. simpl. rewrite Hc.
  unfold Regex.is_meta in Hc. simpl in Hc.
  repeat (apply orb_false_elim in Hc as [? Hc]).
  by repeat match goal with H : Ascii.eqb c _ = false |- _ => rewrite H; clear H end.
Qed.

Lemma parse_lex_plain (s : string) :
  plain s = true → Regex.parse (Regex.lex s) = Some (literal s).
Proof.
  induction s as [| c s IH]; [done |].
  unfold plain. simpl all_chars. rewrite andb_true_iff, negb_true_iff.
  intros [Hc Hs]. specialize (IH Hs).
  rewrite lex_plain_char by done.
  destruct s as [| c' s]; [done |].
  simpl in Hs. apply andb_true_iff in Hs as [Hc' _]. apply negb_true_iff in Hc'.
  rewrite lex_plain_char in * by done.
  change (Regex.parse (Regex.TAtom (Regex.AChar c) :: ?r))
    with (match r with
          | Regex.TQuant q :: r' => cons (Regex.AChar c, q) <$> Regex.parse r'
          | _ => cons (Regex.AChar c, Regex.QOne) <$> Regex.parse r
          end).
  cbv beta iota. by rewrite IH.
Qed.

Lemma regex_compile_plain (s : string) :
  plain s = true →
  Regex.regex_compile s = Some {| Regex.anchored := false; Regex.items := literal s |}.
Proof.
  intros Hs. unfold Regex.regex_compile.
  destruct s as [| c s]; [done |].
  assert (Hc : Ascii.eqb c "^" = false).
  { unfold plain in Hs. simpl in Hs. apply andb_true_iff in Hs as [Hc _].
    apply negb_true_iff in Hc. unfold Regex.is_meta in Hc. simpl in Hc.
    repeat (apply orb_false_elim in Hc as [? Hc]). done. }
  rewrite parse_lex_plain by done.
  destruct c as [[] [] [] [] [] [] [] []]; try done.
Qed.

Lemma regex_compile_anchored (s : string) :
  plain s = true →
  Regex.regex_compile (String "^" s)
  = Some {| Regex.anchored := true; Regex.items := literal s |}.
Proof. intros Hs. unfold Regex.regex_compile. by rewrite parse_lex_plain. Qed.

Lemma match_here_literal (ci : bool) (p s : string) :
  Regex.match_here ci (literal p) s
  = Str.starts_with (fold_case ci p) (fold_case ci s).
Proof.
  revert s; induction p as [| a p IH]; intros s.
  - by destruct ci.
  - simpl. destruct s as [| b s].
    + by destruct ci.
    + simpl. rewrite IH. by destruct ci.
Qed.

Lemma match_anywhere_literal (ci : bool) (p s : string) :
  Regex.match_anywhere ci (literal p) s
  = Str.contains (fold_case ci p) (fold_case ci s).
Proof.
  induction s as [| b s IH].
  - simpl. rewrite match_here_literal. by destruct ci.
  - simpl. rewrite match_here_literal, IH. by destruct ci.
Qed.

(** Decimal digits are plain. *)
Lemma digit_plain (n : Z) : Regex.is_meta (Datetime.digit (n mod 10)) = false.
Proof.
  pose proof (Z.mod_pos_bound n 10 ltac:(lia)) as H.
  assert (n mod 10 = 0 ∨ n mod 10 = 1 ∨ n mod 10 = 2 ∨ n mod 10 = 3 ∨
          n mod 10 = 4 ∨ n mod 10 = 5 ∨ n mod 10 = 6 ∨ n mod 10 = 7 ∨
          n mod 10 = 8 ∨ n mod 10 = 9)%Z as Hd by lia.
  repeat (destruct Hd as [-> | Hd]; [reflexivity |]). by rewrite Hd.
Qed.

Lemma digits_plain (w : nat) (n : Z) : plain (Datetime.digits w n) = true.
Proof.
  revert n; induction w as [| w IH]; intros n; [done |].
  unfold plain in *. simpl. rewrite all_chars_app, IH. simpl.
  by rewrite digit_plain.
Qed.

Lemma strftime_plain (t : Datetime.datetime) : plain (Datetime.strftime_Y_m t) = true.
Proof.
  unfold Datetime.strftime_Y_m, plain.
  rewrite !all_chars_app. fold (plain (Datetime.year_text (Datetime.year (Datetime.date_of t)))).
  fold (plain (Datetime.digits 2 (Datetime.month (Datetime.date_of t)))).
  rewrite digits_plain. unfold Datetime.year_text.
  by repeat case_match; rewrite digits_plain.
Qed.

(** ** Validated documents *)

(** What a successful validation says about each field of the document. *)
Lemma Patient_init_fields (f : string → result string) (d : document) (p : Patient.t) :
  Patient.init f d = Ok p →
  Fields.str_or (f "id") "id" d = Ok (Patient.id p) ∧
  Fields.str "first_name" d = Ok (Patient.first_name p) ∧
  Fields.str "last_name" d = Ok (Patient.last_name p) ∧
  Fields.str "phone" d = Ok (Patient.phone p) ∧
  Fields.str "address" d = Ok (Patient.address p) ∧
  Fields.opt_str "height" d = Ok (Patient.height p) ∧
  Fields.opt_str "weight" d = Ok (Patient.weight p) ∧
  Fields.str_list "icd10_codes" d = Ok (Patient.icd10_codes p) ∧
  Doctor.init "doctor" (d !! "doctor") = Ok (Patient.doctor p) ∧
  Fields.str "current_tan" d = Ok (Patient.current_tan p) ∧
  Fields.str "tan_expiry_date" d = Ok (Patient.tan_expiry_date p) ∧
  Fields.str "medicaid_id" d = Ok (Patient.medicaid_id p) ∧
  Fields.bool_or true "medicaid_eligible" d = Ok (Patient.medicaid_eligible p) ∧
  Fields.opt_str "last_billing_date" d = Ok (Patient.last_billing_date p) ∧
  Fields.str_list "products" d = Ok (Patient.products p) ∧
  Fields.str_or (Ok "") "notes" d = Ok (Patient.notes p) ∧
  Fields.str_or (f "created_at") "created_at" d = Ok (Patient.created_at p) ∧
  Fields.str_or (f "updated_at") "updated_at" d = Ok (Patient.updated_at p).
Proof.
  unfold Patient.init. intros H. bind_inv H. inversion H; subst; clear H. simpl.
  repeat split; assumption.
Qed.

Lemma Patient_init_intro (f : string → result string) (d : document) (p : Patient.t) :
  Fields.str_or (f "id") "id" d = Ok (Patient.id p) →
  Fields.str "first_name" d = Ok (Patient.first_name p) →
  Fields.str "last_name" d = Ok (Patient.last_name p) →
  Fields.str "phone" d = Ok (Patient.phone p) →
  Fields.str "address" d = Ok (Patient.address p) →
  Fields.opt_str "height" d = Ok (Patient.height p) →
  Fields.opt_str "weight" d = Ok (Patient.weight p) →
  Fields.str_list "icd10_codes" d = Ok (Patient.icd10_codes p) →
  Doctor.init "doctor" (d !! "doctor") = Ok (Patient.doctor p) →
  Fields.str "current_tan" d = Ok (Patient.current_tan p) →
  Fields.str "tan_expiry_date" d = Ok (Patient.tan_expiry_date p) →
  Fields.str "medicaid_id" d = Ok (Patient.medicaid_id p) →
  Fields.bool_or true "medicaid_eligible" d = Ok (Patient.medicaid_eligible p) →
  Fields.opt_str "last_billing_date" d = Ok (Patient.last_billing_date p) →
  Fields.str_list "products" d = Ok (Patient.products p) →
  Fields.str_or (Ok "") "notes" d = Ok (Patient.notes p) →
  Fields.str_or (f "created_at") "created_at" d = Ok (Patient.created_at p) →
  Fields.str_or (f "updated_at") "updated_at" d = Ok (Patient.updated_at p) →
  Patient.init f d = Ok p.
Proof.
  intros. unfold Patient.init.
  repeat match goal with H : _ = Ok _ |- _ => rewrite H; clear H end.
  simpl. by destruct p.
Qed.

Lemma str_lookup (k : string) (d : document) (s : string) :
  Fields.str k d = Ok s → d !! k = Some (VStr s).
Proof.
  unfold Fields.str. destruct (d !! k) as [[] |]; try discriminate. congruence.
Qed.

(** ** C10: falsy filter parameters *)

(** C10. At the list interfaces a falsy filter parameter is an absent one:
    the patient list with [search] empty, or with [tan_expiring] false,
    is the list without that parameter, which without any parameter is the
    unfiltered collection (validated, first 1000); and the task list with
    [due_today] false is the task list without [due_today] (likewise with
    [patient_id] empty), which puts no condition on [due_date]. *)
Theorem falsy_filter_is_absent (db : database) (now : Datetime.datetime)
    (search : option string) (tan_expiring : option bool)
    (patient_id : option string) (status : option TaskStatus.t)
    (due_today : option bool) :
  get_patients db now (Some "") tan_expiring = get_patients db now None tan_expiring ∧
  get_patients db now search (Some false) = get_patients db now search None ∧
  get_patients db now (Some "") (Some false)
  = traverse (Patient.init stored) (take 1000 (patients db)) ∧
  get_patients db now None None
  = traverse (Patient.init stored) (take 1000 (patients db)) ∧
  get_tasks db now patient_id status (Some false)
  = get_tasks db now patient_id status None ∧
  get_tasks db now (Some "") status due_today = get_tasks db now None status due_today ∧
  get_tasks db now None None (Some false)
  = traverse (Task.init stored) (take 1000 (tasks db)).
Proof.
  assert (Hall : ∀ coll : list document,
            filter (λ d, Mongo.matches [] d = true) coll = coll)
    by (intros coll; by apply filter_all).
  repeat split; try reflexivity.
  - unfold get_patients, Mongo.find, Mongo.to_list. simpl. by rewrite Hall.
  - unfold get_patients, Mongo.find, Mongo.to_list. simpl. by rewrite Hall.
  - unfold get_tasks, Mongo.find, Mongo.to_list. simpl. by rewrite Hall.
Qed.

(** ** C8: the medicaid count of the monthly summary *)

Lemma month_pattern_valid (t : Datetime.datetime) (k o : string) :
  Mongo.cond_valid (Mongo.CRegex ("^" ++ Datetime.strftime_Y_m t) o) = true.
Proof.
  unfold Mongo.cond_valid. apply bool_decide_eq_true.
  change ("^" ++ Datetime.strftime_Y_m t) with (String "^" (Datetime.strftime_Y_m t)).
  rewrite regex_compile_anchored by apply strftime_plain. eauto.
Qed.

(** The monthly summary never raises. *)
Lemma get_monthly_summary_Ok (db : database) (now : Datetime.datetime) :
  ∃ s, get_monthly_summary db now = Ok s ∧
       medicaid_issues s
       = length (filter
                   (λ d, Mongo.matches
                           [("medicaid_eligible", Mongo.Field (Mongo.CEq (VBool false)))] d
                         = true)
                   (patients db)).
Proof.
  unfold get_monthly_summary, Mongo.count_documents, Mongo.checked.
  unfold Mongo.query_valid, forallb, Mongo.entry_valid, snd.
  rewrite !(month_pattern_valid now "" ""). simpl. eauto.
Qed.

Lemma medicaid_filter_agrees (d : document) (p : Patient.t) :
  Patient.init stored d = Ok p →
  Mongo.matches [("medicaid_eligible", Mongo.Field (Mongo.CEq (VBool false)))] d = true
  ↔ Patient.medicaid_eligible p = false.
Proof.
  intros H. apply Patient_init_fields in H.
  destruct H as (_ & _ & _ & _ & _ & _ & _ & _ & _ & _ & _ & _ & H & _).
  unfold Mongo.matches, Mongo.entry_holds, Mongo.cond_holds, Mongo.eq_holds,
    Fields.bool_or in *. simpl.
  destruct (d !! "medicaid_eligible") as [[| b | | | | |] |]; simpl in *;
    try discriminate; inversion H; subst; clear H.
  - rewrite andb_true_r, orb_false_r, bool_decide_eq_true. split; congruence.
  - split; discriminate.
Qed.

(** C8. The [medicaid_issues] of the monthly summary is the number of all
    stored patients whose [medicaid_eligible] is false: a count over the
    whole collection, in which neither the current month nor a creation
    date takes part. *)
Theorem medicaid_issues_counts_all (db : database) (now : Datetime.datetime)
    (ps : list Patient.t) :
  traverse (Patient.init stored) (patients db) = Ok ps →
  ∃ s, get_monthly_summary db now = Ok s ∧
       medicaid_issues s
       = length (filter (λ p, Patient.medicaid_eligible p = false) ps).
Proof.
  intros Hps. destruct (get_monthly_summary_Ok db now) as (s & Hs & Hn).
  exists s. split; [done |]. rewrite Hn.
  symmetry. eapply traverse_length, traverse_filter; [| exact Hps].
  intros d p _ Hd. by apply medicaid_filter_agrees.
Qed.

(** ** Dictionaries of the models *)

Lemma traverse_as_str (k : string) (l : list string) :
  traverse (Fields.as_str k) (VStr <$> l) = Ok l.
Proof. induction l as [| s l IH]; [done |]. simpl. fold (fmap VStr l). by rewrite IH. Qed.

Lemma str_list_lookup (k : string) (d : document) (l : list string) :
  d !! k = Some (VList (VStr <$> l)) → Fields.str_list k d = Ok l.
Proof. intros H. unfold Fields.str_list. rewrite H. apply traverse_as_str. Qed.

Lemma opt_str_lookup (k : string) (d : document) (o : option string) :
  d !! k = Some (Fields.of_opt_str o) → Fields.opt_str k d = Ok o.
Proof. intros H. unfold Fields.opt_str. rewrite H. by destruct o. Qed.

Lemma Doctor_init_dict (k : string) (d : Doctor.t) :
  Doctor.init k (Some (Doctor.dict d)) = Ok d.
Proof. destruct d as [n p f [a |]]; reflexivity. Qed.

Ltac field_of_dict :=
  first
    [ reflexivity
    | apply str_list_lookup; reflexivity
    | apply opt_str_lookup; reflexivity
    | apply Doctor_init_dict ].

(** Validation reads back what [dict()] wrote, also from the stored
    document, which carries the [_id] of the store. *)
Lemma Patient_init_dict_oid (f : string → result string) (p : Patient.t) (v : value) :
  Patient.init f (<["_id" := v]> (Patient.dict p)) = Ok p.
Proof. apply Patient_init_intro; field_of_dict. Qed.

(** ** C4: create, then read back *)

Lemma Patient_init_create (random : Z) (now now' : Datetime.datetime)
    (data : PatientCreate.t) :
  Patient.init (fresh random now now') (prepare_for_mongo (PatientCreate.dict data))
  = Ok (created_patient random now now' data).
Proof.
  destruct data as [fn ln ph ad [h |] [w |] icd doc tan ted mid me pr no];
    apply Patient_init_intro; field_of_dict.
Qed.

Lemma length_append (a b : string) :
  String.length (a ++ b) = (String.length a + String.length b)%nat.
Proof. induction a as [| c a IH]; simpl; [done | by rewrite IH]. Qed.

Lemma length_hex (w : nat) (n : Z) : String.length (Uuid.hex w n) = w.
Proof.
  revert n; induction w as [| w IH]; intros n; [done |].
  simpl. rewrite length_append, IH. simpl. lia.
Qed.

Lemma length_substring (n m : nat) (s : string) :
  (n + m ≤ String.length s)%nat → String.length (substring n m s) = m.
Proof.
  revert n m; induction s as [| c s IH]; intros n m H; simpl in *.
  - assert (n = 0 ∧ m = 0) as [-> ->] by lia. done.
  - destruct n as [| n].
    + destruct m as [| m]; [done |]. simpl. rewrite IH; [done | lia].
    + apply IH. lia.
Qed.

(** [str(uuid.uuid4())] has 36 characters. *)
Lemma length_uuid_str (u : Z) : String.length (Uuid.str u) = 36.
Proof.
  unfold Uuid.str. rewrite !length_append.
  rewrite !length_substring by (rewrite length_hex; lia). reflexivity.
Qed.

Lemma by_id_matches (i : string) (d : document) (j : string) :
  d !! "id" = Some (VStr j) →
  Mongo.matches (by_id i) d = bool_decide (j = i).
Proof.
  intros H. unfold Mongo.matches, by_id, Mongo.entry_holds, Mongo.cond_holds,
    Mongo.eq_holds. simpl. rewrite H. simpl.
  rewrite andb_true_r, orb_false_r.
  apply bool_decide_ext. split; congruence.
Qed.

Lemma find_one_append (coll : list document) (q : Mongo.query) (d : document) :
  Mongo.query_valid q = true →
  (∀ x, x ∈ coll → Mongo.matches q x = false) →
  Mongo.matches q d = true →
  Mongo.find_one (coll ++ [d]) q = Ok (Some d).
Proof.
  intros Hq Hcoll Hd. unfold Mongo.find_one, Mongo.checked. rewrite Hq.
  rewrite filter_app, filter_none.
  - by rewrite filter_cons_True.
  - intros x Hx. rewrite (Hcoll x Hx). discriminate.
Qed.

Lemma found_nonempty (d : document) (k : string) (v : value) :
  d !! k = Some v → found (Some d) = Some d.
Proof.
  intros H. unfold found. rewrite bool_decide_eq_false_2; [done |].
  intros ->. by rewrite lookup_empty in H.
Qed.

Lemma create_patient_eq (db : database) (random : Z)
    (now now' : Datetime.datetime) (data : PatientCreate.t) :
  let p := created_patient random now now' data in
  create_patient db random now now' data
  = (inserted db
       (patients db ++ [<["_id" := VOid (next_oid db)]> (Patient.dict p)])%list
       (tasks db) (contact_logs db),
     Ok p).
Proof. intros p. unfold create_patient. by rewrite Patient_init_create. Qed.

(** C4. For every [PatientCreate] input, when the generated identifier is
    not yet in use, [create_patient] succeeds, and reading the returned
    entity's identifier back with [get_patient] succeeds with an entity
    equal to the returned one in every field; the identifier is the
    36-character text of the version-4 UUID, hence not empty. *)
Theorem create_then_get_patient (db : database) (random : Z)
    (now now' : Datetime.datetime) (data : PatientCreate.t) :
  unused_id db (Uuid.str (Uuid.uuid4 random)) →
  ∃ p, snd (create_patient db random now now' data) = Ok p ∧
       get_patient (fst (create_patient db random now now' data)) (Patient.id p) = Ok p ∧
       p = created_patient random now now' data ∧
       String.length (Patient.id p) = 36 ∧
       Patient.id p ≠ "".
Proof.
  intros Hfresh. exists (created_patient random now now' data).
  rewrite create_patient_eq.
  assert (Hlen : String.length (Uuid.str (Uuid.uuid4 random)) = 36)
    by apply length_uuid_str.
  split; [reflexivity |]. split; [| split; [reflexivity | split; [exact Hlen |]]].
  - set (p := created_patient random now now' data).
    set (d := <["_id" := VOid (next_oid db)]> (Patient.dict p)).
    assert (Hd : d !! "id" = Some (VStr (Uuid.str (Uuid.uuid4 random)))) by reflexivity.
    unfold get_patient. cbn [fst patients inserted].
    change (Patient.id p) with (Uuid.str (Uuid.uuid4 random)).
    rewrite find_one_append; [| done | exact Hfresh |].
    + cbn [bind]. rewrite (found_nonempty _ _ _ Hd). apply Patient_init_dict_oid.
    + rewrite (by_id_matches _ _ _ Hd). by apply bool_decide_eq_true.
  - intros E. simpl in E. rewrite E in Hlen. discriminate.
Qed.

(** ** C1, C9: partial update *)

(** The merge dictionary field by field: [updated_at] is the reading of the
    clock, a field of the input is there unless it is [None], and nothing
    else is. *)
Lemma update_fields_lookup (now : Datetime.datetime) (u : PatientUpdate.t) (k : string) :
  update_fields now u !! k =
  if decide (k = "updated_at") then Some (VStr (Datetime.isoformat now))
  else match PatientUpdate.dict u !! k with
       | Some v => if decide (v = VNull) then None else Some (date_to_iso v)
       | None => None
       end.
Proof.
  unfold update_fields, prepare_for_mongo.
  rewrite lookup_fmap. destruct (decide (k = "updated_at")) as [-> | Hk].
  - by rewrite lookup_insert_eq.
  - rewrite lookup_insert_ne by done. rewrite map_lookup_filter.
    destruct (PatientUpdate.dict u !! k) as [v |]; [| done]. simpl.
    destruct (decide (v = VNull)) as [-> | Hv].
    + rewrite option_guard_False; [done | simpl; tauto].
    + by rewrite option_guard_True.
Qed.

Lemma merged_lookup (now : Datetime.datetime) (u : PatientUpdate.t) (d : document)
    (k : string) :
  (update_fields now u ∪ d) !! k =
  match update_fields now u !! k with
  | Some v => Some v
  | None => d !! k
  end.
Proof.
  rewrite lookup_union.
  by destruct (update_fields now u !! k), (d !! k).
Qed.

(** Validation of a field on the merged document. *)
Lemma merged_str now u d k (o : option string) (s : string) :
  update_fields now u !! k = VStr <$> o →
  Fields.str k d = Ok s →
  Fields.str k (update_fields now u ∪ d) = Ok (default s o).
Proof.
  intros Hu Hd. unfold Fields.str in *. rewrite merged_lookup, Hu.
  by destruct o.
Qed.

Lemma merged_str_or now u d k dflt (o : option string) (s : string) :
  update_fields now u !! k = VStr <$> o →
  Fields.str_or dflt k d = Ok s →
  Fields.str_or dflt k (update_fields now u ∪ d) = Ok (default s o).
Proof.
  intros Hu Hd. unfold Fields.str_or in *. rewrite merged_lookup, Hu.
  by destruct o.
Qed.

Lemma merged_opt_str now u d k (o old : option string) :
  update_fields now u !! k = VStr <$> o →
  Fields.opt_str k d = Ok old →
  Fields.opt_str k (update_fields now u ∪ d) = Ok (from_option Some old o).
Proof.
  intros Hu Hd. unfold Fields.opt_str in *. rewrite merged_lookup, Hu.
  by destruct o.
Qed.

Lemma merged_bool_or now u d k dflt (o : option bool) (b : bool) :
  update_fields now u !! k = VBool <$> o →
  Fields.bool_or dflt k d = Ok b →
  Fields.bool_or dflt k (update_fields now u ∪ d) = Ok (default b o).
Proof.
  intros Hu Hd. unfold Fields.bool_or in *. rewrite merged_lookup, Hu.
  by destruct o.
Qed.

Lemma merged_str_list now u d k (o : option (list string)) (l : list string) :
  update_fields now u !! k = (λ l, VList (VStr <$> l)) <$> o →
  Fields.str_list k d = Ok l →
  Fields.str_list k (update_fields now u ∪ d) = Ok (default l o).
Proof.
  intros Hu Hd. unfold Fields.str_list in *. rewrite merged_lookup, Hu.
  destruct o as [l' |]; [| done]. simpl. apply traverse_as_str.
Qed.

Lemma merged_doctor now u d k (o : option Doctor.t) (x : Doctor.t) :
  update_fields now u !! k = Doctor.dict <$> o →
  Doctor.init k (d !! k) = Ok x →
  Doctor.init k ((update_fields now u ∪ d) !! k) = Ok (default x o).
Proof.
  intros Hu Hd. rewrite merged_lookup, Hu.
  destruct o as [x' |]; [| done]. apply Doctor_init_dict.
Qed.

Lemma merged_untouched now u d k dflt :
  update_fields now u !! k = None →
  Fields.str_or dflt k (update_fields now u ∪ d) = Fields.str_or dflt k d.
Proof. intros Hu. unfold Fields.str_or. by rewrite merged_lookup, Hu. Qed.

Lemma merged_updated_at now u d dflt :
  Fields.str_or dflt "updated_at" (update_fields now u ∪ d)
  = Ok (Datetime.isoformat now).
Proof.
  unfold Fields.str_or. by rewrite merged_lookup, update_fields_lookup.
Qed.

Ltac update_field :=
  rewrite update_fields_lookup;
  match goal with
  | u : PatientUpdate.t |- _ => destruct u
  end;
  unfold PatientUpdate.first_name, PatientUpdate.last_name, PatientUpdate.phone,
    PatientUpdate.address, PatientUpdate.height, PatientUpdate.weight,
    PatientUpdate.icd10_codes, PatientUpdate.doctor, PatientUpdate.current_tan,
    PatientUpdate.tan_expiry_date, PatientUpdate.medicaid_id,
    PatientUpdate.medicaid_eligible, PatientUpdate.last_billing_date,
    PatientUpdate.products, PatientUpdate.notes;
  try match goal with
  | |- context [?f <$> ?o] => is_var o; destruct o
  end;
  reflexivity.

(** Validating the merged document gives the merged entity. *)
Lemma Patient_init_merged (now : Datetime.datetime) (u : PatientUpdate.t)
    (d : document) (p : Patient.t) :
  Patient.init stored d = Ok p →
  Patient.init stored (update_fields now u ∪ d) = Ok (merged_patient now u p).
Proof.
  intros H. apply Patient_init_fields in H.
  destruct H as (H1 & H2 & H3 & H4 & H5 & H6 & H7 & H8 & H9 & H10 & H11 & H12 &
                 H13 & H14 & H15 & H16 & H17 & H18).
  apply Patient_init_intro; unfold merged_patient;
    cbn [Patient.id Patient.first_name Patient.last_name Patient.phone
         Patient.address Patient.height Patient.weight Patient.icd10_codes
         Patient.doctor Patient.current_tan Patient.tan_expiry_date
         Patient.medicaid_id Patient.medicaid_eligible Patient.last_billing_date
         Patient.products Patient.notes Patient.created_at Patient.updated_at].
  - rewrite merged_untouched; [done | update_field].
  - apply merged_str; [update_field | done].
  - apply merged_str; [update_field | done].
  - apply merged_str; [update_field | done].
  - apply merged_str; [update_field | done].
  - apply merged_opt_str; [update_field | done].
  - apply merged_opt_str; [update_field | done].
  - apply merged_str_list; [update_field | done].
  - apply merged_doctor; [update_field | done].
  - apply merged_str; [update_field | done].
  - apply merged_str; [update_field | done].
  - apply merged_str; [update_field | done].
  - apply merged_bool_or; [update_field | done].
  - apply merged_opt_str; [update_field | done].
  - apply merged_str_list; [update_field | done].
  - apply merged_str_or; [update_field | done].
  - rewrite merged_untouched; [done | update_field].
  - apply merged_updated_at.
Qed.

(** The first match of a filter, and what [update_one] does to it. *)
Lemma update_first_found (q : Mongo.query) (fields : document)
    (coll : list document) (d : document) :
  head (filter (λ x, Mongo.matches q x = true) coll) = Some d →
  Mongo.matches q (fields ∪ d) = true →
  head (filter (λ x, Mongo.matches q x = true) (fst (Mongo.update_first q fields coll)))
  = Some (fields ∪ d) ∧
  snd (Mongo.update_first q fields coll)
  = {| Mongo.matched_count := 1;
       Mongo.modified_count := if bool_decide (fields ∪ d = d) then 0 else 1 |}.
Proof.
  intros Hhead Hd'. induction coll as [| x coll IH]; [discriminate |].
  simpl. destruct (Mongo.matches q x) eqn:Hx.
  - rewrite filter_cons_True in Hhead by done. injection Hhead as ->.
    simpl. by rewrite filter_cons_True.
  - rewrite filter_cons_False in Hhead by (rewrite Hx; discriminate).
    simpl. rewrite filter_cons_False by (rewrite Hx; discriminate). by apply IH.
Qed.

Lemma update_first_missing (q : Mongo.query) (fields : document) (coll : list document) :
  head (filter (λ x, Mongo.matches q x = true) coll) = None →
  Mongo.update_first q fields coll
  = (coll, {| Mongo.matched_count := 0; Mongo.modified_count := 0 |}).
Proof.
  induction coll as [| x coll IH]; [done |]. intros Hhead.
  simpl. destruct (Mongo.matches q x) eqn:Hx.
  - rewrite filter_cons_True in Hhead by done. discriminate.
  - rewrite filter_cons_False in Hhead by (rewrite Hx; discriminate).
    by rewrite (IH Hhead).
Qed.

Lemma head_filter_holds {A} (P : A → Prop) `{∀ x, Decision (P x)} (l : list A) (x : A) :
  head (filter P l) = Some x → P x ∧ x ∈ l.
Proof.
  intros Hx. assert (x ∈ filter P l) as Hin.
  { destruct (filter P l); [discriminate |]. injection Hx as ->. left. }
  by apply list_elem_of_filter in Hin.
Qed.

(** A filter on [id] looks at the [id] of the document only. *)
Lemma by_id_same_id (i : string) (d d' : document) :
  d' !! "id" = d !! "id" → Mongo.matches (by_id i) d' = Mongo.matches (by_id i) d.
Proof.
  intros H. unfold Mongo.matches, by_id, Mongo.entry_holds, Mongo.cond_holds. simpl.
  by rewrite H.
Qed.

Lemma by_id_nonempty (i : string) (d : document) :
  Mongo.matches (by_id i) d = true → found (Some d) = Some d.
Proof.
  intros H. unfold Mongo.matches, by_id, Mongo.entry_holds, Mongo.cond_holds,
    Mongo.eq_holds in H. simpl in H.
  destruct (d !! "id") as [v |] eqn:Hid; [by eapply found_nonempty |].
  discriminate.
Qed.

(** The values of a partial input's dictionary are no date objects. *)
Lemma PatientUpdate_dict_values (u : PatientUpdate.t) (k : string) (v : value) :
  PatientUpdate.dict u !! k = Some v → date_to_iso v = v.
Proof.
  intros H. unfold PatientUpdate.dict in H.
  apply elem_of_list_to_map_2 in H.
  repeat (apply elem_of_cons in H as [[= _ ->] | H];
          [match goal with
           | |- context [PatientUpdate.opt _ ?o] => by destruct o
           end |]).
  by apply elem_of_nil in H.
Qed.

Lemma merged_omitted_retained now u p : omitted_retained u p (merged_patient now u p).
Proof. unfold omitted_retained, merged_patient. simpl. repeat split; by intros ->. Qed.

Lemma merged_present_written now u p : present_written u (merged_patient now u p).
Proof. unfold present_written, merged_patient. simpl. repeat split; by intros x ->. Qed.

Lemma find_one_by_id (coll : list document) (i : string) :
  Mongo.find_one coll (by_id i)
  = Ok (head (filter (λ x, Mongo.matches (by_id i) x = true) coll)).
Proof. reflexivity. Qed.

Lemma update_one_by_id (coll : list document) (i : string) (fields : document) :
  Mongo.update_one coll (by_id i) fields = Ok (Mongo.update_first (by_id i) fields coll).
Proof. reflexivity. Qed.

(** What [update_patient] does on an existing, valid patient. *)
Lemma update_patient_existing (db : database) (now : Datetime.datetime)
    (patient_id : string) (u : PatientUpdate.t) (d : document) (p : Patient.t) :
  Mongo.find_one (patients db) (by_id patient_id) = Ok (Some d) →
  Patient.init stored d = Ok p →
  Mongo.find_one (patients (fst (update_patient db now patient_id u))) (by_id patient_id)
  = Ok (Some (update_fields now u ∪ d)) ∧
  snd (update_patient db now patient_id u) = Ok (merged_patient now u p).
Proof.
  intros Hfind Hp. unfold update_patient. rewrite Hfind.
  rewrite update_one_by_id, find_one_by_id in *.
  assert (Hhead : head (filter (λ x, Mongo.matches (by_id patient_id) x = true)
                          (patients db)) = Some d) by congruence.
  clear Hfind.
  destruct (head_filter_holds _ _ _ Hhead) as [Hd _].
  rewrite (by_id_nonempty _ _ Hd).
  assert (Hd' : Mongo.matches (by_id patient_id) (update_fields now u ∪ d) = true).
  { rewrite <- Hd. apply by_id_same_id.
    rewrite merged_lookup, update_fields_lookup. reflexivity. }
  destruct (update_first_found _ (update_fields now u) _ _ Hhead Hd') as [Hre _].
  cbn [fst snd patients with_patients]. rewrite !find_one_by_id, Hre.
  split; [done |]. cbn [bind]. by apply Patient_init_merged.
Qed.

(** C1. For an existing patient and any partial input, [update_patient]
    merges exactly the fields of the input that are not [None] onto the
    stored document: a field left out keeps its stored value, the update
    timestamp is the new reading of the clock, the identifier (and the
    creation timestamp) stay, and the returned entity is the document read
    back from the store after the merge. *)
Theorem update_patient_merges_present_fields (db : database) (now : Datetime.datetime)
    (patient_id : string) (u : PatientUpdate.t) (d : document) (p : Patient.t) :
  Mongo.find_one (patients db) (by_id patient_id) = Ok (Some d) →
  Patient.init stored d = Ok p →
  ∃ d' p',
    snd (update_patient db now patient_id u) = Ok p' ∧
    Mongo.find_one (patients (fst (update_patient db now patient_id u))) (by_id patient_id)
    = Ok (Some d') ∧
    Patient.init stored d' = Ok p' ∧
    (∀ k v, PatientUpdate.dict u !! k = Some v → v ≠ VNull → d' !! k = Some v) ∧
    (∀ k, k ≠ "updated_at" →
          PatientUpdate.dict u !! k = None ∨ PatientUpdate.dict u !! k = Some VNull →
          d' !! k = d !! k) ∧
    d' !! "updated_at" = Some (VStr (Datetime.isoformat now)) ∧
    present_written u p' ∧
    omitted_retained u p p' ∧
    Patient.updated_at p' = Datetime.isoformat now ∧
    Patient.id p' = Patient.id p ∧
    Patient.created_at p' = Patient.created_at p.
Proof.
  intros Hfind Hp.
  destruct (update_patient_existing db now patient_id u d p Hfind Hp) as [Hre Hret].
  exists (update_fields now u ∪ d), (merged_patient now u p).
  split; [exact Hret |]. split; [exact Hre |].
  split; [by apply Patient_init_merged |].
  split; [| split; [| split]].
  - intros k v Hk Hv. rewrite merged_lookup, update_fields_lookup.
    destruct (decide (k = "updated_at")) as [-> | _]; [discriminate |].
    rewrite Hk. rewrite decide_False by done.
    by rewrite (PatientUpdate_dict_values u k v Hk).
  - intros k Hk Hu. rewrite merged_lookup, update_fields_lookup.
    rewrite decide_False by done. by destruct Hu as [-> | ->].
  - by rewrite merged_lookup, update_fields_lookup.
  - split; [apply merged_present_written |].
    split; [apply merged_omitted_retained |]. done.
Qed.

(** C9, for the fields of the patient itself. No partial input clears a
    field of the patient that holds a value: after [update_patient] every
    field of the stored document that was there and not null is there and
    not null, so an optional field of the entity ([height], [weight],
    [last_billing_date]) that was set is still set, either to its old
    value or to the value of the input.  The embedded doctor is merged as
    a whole: it stays, with its address, when the input names no doctor,
    and is the doctor of the input when it names one. *)
Theorem update_patient_cannot_clear (db : database) (now : Datetime.datetime)
    (patient_id : string) (u : PatientUpdate.t) (d : document) (p : Patient.t) :
  Mongo.find_one (patients db) (by_id patient_id) = Ok (Some d) →
  Patient.init stored d = Ok p →
  ∃ d' p',
    snd (update_patient db now patient_id u) = Ok p' ∧
    Mongo.find_one (patients (fst (update_patient db now patient_id u))) (by_id patient_id)
    = Ok (Some d') ∧
    get_patient (fst (update_patient db now patient_id u)) patient_id = Ok p' ∧
    (∀ k v, d !! k = Some v → v ≠ VNull → ∃ v', d' !! k = Some v' ∧ v' ≠ VNull) ∧
    (∀ x, Patient.height p = Some x →
          Patient.height p' = Some x ∨
          ∃ y, PatientUpdate.height u = Some y ∧ Patient.height p' = Some y) ∧
    (∀ x, Patient.weight p = Some x →
          Patient.weight p' = Some x ∨
          ∃ y, PatientUpdate.weight u = Some y ∧ Patient.weight p' = Some y) ∧
    (∀ x, Patient.last_billing_date p = Some x →
          Patient.last_billing_date p' = Some x ∨
          ∃ y, PatientUpdate.last_billing_date u = Some y ∧
               Patient.last_billing_date p' = Some y) ∧
    (∀ x, Doctor.address (Patient.doctor p) = Some x →
          PatientUpdate.doctor u = None →
          Doctor.address (Patient.doctor p') = Some x) ∧
    (∀ dr, PatientUpdate.doctor u = Some dr → Patient.doctor p' = dr).
Proof.
  intros Hfind Hp.
  destruct (update_patient_existing db now patient_id u d p Hfind Hp) as [Hre Hret].
  exists (update_fields now u ∪ d), (merged_patient now u p).
  split; [exact Hret |]. split; [exact Hre |]. split; [| split].
  - unfold get_patient. rewrite Hre. cbn [bind].
    rewrite find_one_by_id in Hre.
    assert (Hhead : head (filter (λ x, Mongo.matches (by_id patient_id) x = true)
                            (patients (fst (update_patient db now patient_id u))))
                    = Some (update_fields now u ∪ d)) by congruence.
    destruct (head_filter_holds _ _ _ Hhead) as [Hd' _].
    rewrite (by_id_nonempty _ _ Hd'). by apply Patient_init_merged.
  - intros k v Hk Hv. rewrite merged_lookup, update_fields_lookup.
    destruct (decide (k = "updated_at")) as [-> | _]; [by eexists |].
    destruct (PatientUpdate.dict u !! k) as [w |] eqn:Hw; [| by eexists].
    destruct (decide (w = VNull)) as [-> | Hn]; [by eexists |].
    rewrite (PatientUpdate_dict_values u k w Hw). by eexists.
  - unfold merged_patient. cbn [Patient.height Patient.weight Patient.last_billing_date
                                 Patient.doctor].
    split; [| split; [| split; [| split]]].
    + intros x Hx. rewrite Hx. destruct (PatientUpdate.height u); simpl; eauto.
    + intros x Hx. rewrite Hx. destruct (PatientUpdate.weight u); simpl; eauto.
    + intros x Hx. rewrite Hx. destruct (PatientUpdate.last_billing_date u); simpl; eauto.
    + intros x Hx Hu. by rewrite Hu.
    + intros dr Hu. by rewrite Hu.
Qed.

(** ** Dates in byte order *)

Section date_order.
Import Datetime.
Local Open Scope Z_scope.

Lemma days_in_month_bounds (y m : Z) : 28 <= days_in_month y m <= 31.
Proof.
  unfold days_in_month.
  destruct (m =? 2); [destruct (is_leap y); lia |].
  destruct ((m =? 4) || (m =? 6) || (m =? 9) || (m =? 11))%bool; lia.
Qed.

Lemma next_day_lt (d : date) :
  valid_date d → date_lt d (next_day d) ∧
  (year (next_day d) <= 9999 → valid_date (next_day d)).
Proof.
  intros (Hy & Hm & Hd). unfold next_day, date_lt, valid_date.
  destruct (Z.ltb_spec (day d) (days_in_month (year d) (month d))) as [H1 | H1].
  - simpl. split; [lia |]. intros _. lia.
  - destruct (Z.ltb_spec (month d) 12) as [H2 | H2]; simpl.
    + split; [lia |]. intros _.
      pose proof (days_in_month_bounds (year d) (month d + 1)). lia.
    + split; [lia |]. intros Hle.
      pose proof (days_in_month_bounds (year d + 1) 1). lia.
Qed.

Lemma date_lt_trans (a b c : date) : date_lt a b → date_lt b c → date_lt a c.
Proof. unfold date_lt. lia. Qed.

Lemma add_days_lt (n : nat) (d d' : date) :
  valid_date d → add_days (S n) d = Ok d' → date_lt d d' ∧ valid_date d'.
Proof.
  revert d; induction n as [| n IH]; intros d Hd H.
  - simpl in H. destruct (Z.leb_spec (year (next_day d)) 9999) as [Hy | Hy];
      [| discriminate].
    inversion H; subst. destruct (next_day_lt d Hd) as [? Hv]. auto.
  - change (add_days (S (S n)) d)
      with (if year (next_day d) <=? 9999 then add_days (S n) (next_day d)
            else Err OverflowError) in H.
    destruct (Z.leb_spec (year (next_day d)) 9999) as [Hy | Hy]; [| discriminate].
    destruct (next_day_lt d Hd) as [Hlt Hv].
    destruct (IH _ (Hv Hy) H) as [Hlt' Hv'].
    split; [by eapply date_lt_trans | done].
Qed.

Lemma add_days_split (n m : nat) (d d'' : date) :
  add_days (n + m) d = Ok d'' →
  ∃ d', add_days n d = Ok d' ∧ add_days m d' = Ok d''.
Proof.
  revert d; induction n as [| n IH]; intros d H.
  - exists d. by split.
  - simpl in *. destruct (year (next_day d) <=? 9999); [| discriminate].
    by apply IH.
Qed.

(** Byte order of texts. *)
Lemma compare_same_prefix (s x y : string) :
  String.compare (s ++ x) (s ++ y) = String.compare x y.
Proof.
  induction s as [| c s IH]; [done |]. simpl.
  unfold Ascii.compare. by rewrite N.compare_refl.
Qed.

Lemma digit_lt (a b : Z) :
  0 <= a < b → b <= 9 → Ascii.compare (digit a) (digit b) = Lt.
Proof.
  intros Ha Hb. unfold Ascii.compare, digit.
  rewrite !N_ascii_embedding by lia. apply N.compare_lt_iff. lia.
Qed.

Lemma digits_lt (w : nat) (n m : Z) (x y : string) :
  0 <= n < m → m < 10 ^ Z.of_nat w →
  String.compare (digits w n ++ x) (digits w m ++ y) = Lt.
Proof.
  revert n m x y; induction w as [| w IH]; intros n m x y Hn Hm.
  - simpl in Hm. lia.
  - simpl digits. rewrite !append_assoc.
    assert (Hpow : 10 ^ Z.of_nat (S w) = 10 * 10 ^ Z.of_nat w).
    { rewrite Nat2Z.inj_succ, Z.pow_succ_r by lia. done. }
    assert (n / 10 <= m / 10) by (apply Z.div_le_mono; lia).
    destruct (Z.eq_dec (n / 10) (m / 10)) as [E | E].
    + rewrite E, compare_same_prefix. simpl.
      rewrite digit_lt; [done | |].
      * pose proof (Z.mod_pos_bound n 10). pose proof (Z.div_mod n 10).
        pose proof (Z.div_mod m 10). lia.
      * pose proof (Z.mod_pos_bound m 10). lia.
    + apply IH.
      * split; [apply Z.div_pos; lia | lia].
      * apply Z.div_lt_upper_bound; lia.
Qed.

(** The ISO text of an earlier date is below the ISO text of a later
    one, whatever follows them. *)
Lemma date_isoformat_lt (a b : date) (x y : string) :
  valid_date a → valid_date b → date_lt a b →
  String.compare (date_isoformat a ++ x) (date_isoformat b ++ y) = Lt.
Proof.
  intros (Hya & Hma & Hda) (Hyb & Hmb & Hdb) Hlt.
  pose proof (days_in_month_bounds (year a) (month a)).
  pose proof (days_in_month_bounds (year b) (month b)).
  unfold date_isoformat. rewrite !append_assoc.
  destruct Hlt as [Hy | [Ey [Hm | [Em Hd]]]].
  - apply digits_lt; simpl; lia.
  - rewrite Ey, !compare_same_prefix. apply digits_lt; simpl; lia.
  - rewrite Ey, Em, !compare_same_prefix. apply digits_lt; simpl; lia.
Qed.

Lemma leb_date_before (a b : date) (y : string) :
  valid_date a → valid_date b → date_lt a b →
  String.leb (date_isoformat a) (date_isoformat b ++ y) = true.
Proof.
  intros Ha Hb Hlt. unfold String.leb.
  rewrite <- (append_nil_r (date_isoformat a)).
  by rewrite date_isoformat_lt.
Qed.

Lemma leb_date_after (a b : date) (y : string) :
  valid_date a → valid_date b → date_lt b a →
  String.leb (date_isoformat a) (date_isoformat b ++ y) = false.
Proof.
  intros Ha Hb Hlt. unfold String.leb.
  rewrite <- (append_nil_r (date_isoformat a)).
  rewrite String.compare_antisym.
  by rewrite date_isoformat_lt.
Qed.

(** On the day itself the date text is a prefix of the date-time text. *)
Lemma leb_date_same (a : date) (y : string) :
  String.leb (date_isoformat a) (date_isoformat a ++ y) = true.
Proof.
  unfold String.leb.
  rewrite <- (append_nil_r (date_isoformat a)) at 1.
  rewrite compare_same_prefix. by destruct y.
Qed.

End date_order.

(** ** C5: patients with an expiring authorization *)

(** Validating the first [n] matches of a filter, when the filter agrees
    with a predicate [Q] on the entities. *)
Lemma traverse_matches {B} (f : document → result B) (q : Mongo.query)
    (Q : B → Prop) `{∀ y, Decision (Q y)} (n : nat) (docs : list document) (ys : list B) :
  (∀ d y, f d = Ok y → Mongo.matches q d = true ↔ Q y) →
  traverse f docs = Ok ys →
  traverse f (Mongo.to_list n (filter (λ d, Mongo.matches q d = true) docs))
  = Ok (take n (filter Q ys)).
Proof.
  intros HQ Hys. apply traverse_take.
  apply (traverse_filter f (λ d, Mongo.matches q d = true) Q); [| done].
  intros d y _. apply HQ.
Qed.

Lemma lte_holds_str (bound : string) (d : document) (k s : string) :
  d !! k = Some (VStr s) →
  Mongo.cond_holds (Mongo.CLte bound) (d !! k) = String.leb s bound.
Proof. intros ->. simpl. by rewrite orb_false_r. Qed.

Lemma tan_filter_agrees (bound : string) (d : document) (p : Patient.t) :
  Patient.init stored d = Ok p →
  Mongo.matches [("tan_expiry_date", Mongo.Field (Mongo.CLte bound))] d = true
  ↔ tan_expires_by bound p.
Proof.
  intros H. apply Patient_init_fields in H.
  destruct H as (_ & _ & _ & _ & _ & _ & _ & _ & _ & _ & H & _).
  apply str_lookup in H.
  unfold Mongo.matches, Mongo.entry_holds, forallb, fst, snd, tan_expires_by.
  by rewrite (lte_holds_str _ _ _ _ H), andb_true_r.
Qed.

(** The list with the flag alone, on a valid store. *)
Lemma get_patients_tan_expiring (db : database) (now t : Datetime.datetime)
    (ps : list Patient.t) :
  traverse (Patient.init stored) (patients db) = Ok ps →
  Datetime.plus_days now 30 = Ok t →
  get_patients db now None (Some true)
  = Ok (take 1000 (filter (tan_expires_by (Datetime.isoformat t)) ps)).
Proof.
  intros Hps Ht. unfold get_patients. cbn [given flag]. rewrite Ht. cbn [bind].
  change (Mongo.set_item [] "tan_expiry_date" ?f) with [("tan_expiry_date", f)].
  unfold Mongo.find, Mongo.checked.
  change (Mongo.query_valid _) with true. cbn [bind].
  apply traverse_matches; [| done].
  intros d p. apply tan_filter_agrees.
Qed.

(** C5, with the cap of the cursor. With the flag set and no search
    text, the patient list is the first 1000, in store order, of the
    patients whose [tan_expiry_date] is, in byte order, at or below the ISO
    text of the local time 30 days ahead (30 is fixed).  A patient whose
    [tan_expiry_date] is the ISO date 20 days from now passes the filter,
    and is in the list when the store holds at most 1000 patients; one
    whose date is 40 days from now is never in the list. *)
Theorem tan_expiring_list (db : database) (now t : Datetime.datetime)
    (ps : list Patient.t) :
  traverse (Patient.init stored) (patients db) = Ok ps →
  Datetime.valid_datetime now →
  Datetime.plus_days now 30 = Ok t →
  ∃ r, get_patients db now None (Some true) = Ok r ∧
       r = take 1000 (filter (tan_expires_by (Datetime.isoformat t)) ps) ∧
       (∀ p d20, p ∈ ps →
                 Datetime.add_days 20 (Datetime.date_of now) = Ok d20 →
                 Patient.tan_expiry_date p = Datetime.date_isoformat d20 →
                 tan_expires_by (Datetime.isoformat t) p ∧
                 ((length ps ≤ 1000)%nat → p ∈ r)) ∧
       (∀ p d40, Datetime.add_days 40 (Datetime.date_of now) = Ok d40 →
                 Patient.tan_expiry_date p = Datetime.date_isoformat d40 →
                 p ∉ r).
Proof.
  intros Hps (Hnow & _) Ht.
  eexists. split; [by apply get_patients_tan_expiring |]. split; [reflexivity |].
  unfold Datetime.plus_days in Ht. apply bind_Ok in Ht as (d30 & H30 & Ht).
  injection Ht as <-.
  unfold Datetime.isoformat. cbn [Datetime.date_of].
  split.
  - intros p d20 Hp H20 Htan.
    change 30 with (20 + 10) in H30.
    apply add_days_split in H30 as (d20' & H20' & H10).
    rewrite H20 in H20'. injection H20' as <-.
    destruct (add_days_lt _ _ _ Hnow H20) as [_ Hv20].
    destruct (add_days_lt _ _ _ Hv20 H10) as [Hlt Hv30].
    assert (Hpass : tan_expires_by
              (Datetime.date_isoformat d30 ++ "T" ++
               Datetime.digits 2 (Datetime.hour now) ++ ":" ++
               Datetime.digits 2 (Datetime.minute now) ++ ":" ++
               Datetime.digits 2 (Datetime.second now) ++
               (if (Datetime.microsecond now =? 0)%Z then ""
                else "." ++ Datetime.digits 6 (Datetime.microsecond now)) ++
               (if Datetime.tzinfo now then "+00:00" else "")) p).
    { unfold tan_expires_by. rewrite Htan. by apply leb_date_before. }
    split; [exact Hpass |]. intros Hlen.
    rewrite take_ge.
    + apply list_elem_of_filter. by split.
    + etransitivity; [apply length_filter | done].
  - intros p d40 H40 Htan Hin.
    apply elem_of_take in Hin as (i & Hin & _).
    apply list_elem_of_lookup_2, list_elem_of_filter in Hin as [Hpass _].
    change 40 with (30 + 10) in H40.
    apply add_days_split in H40 as (d30' & H30' & H10).
    rewrite H30 in H30'. injection H30' as <-.
    destruct (add_days_lt _ _ _ Hnow H30) as [_ Hv30].
    destruct (add_days_lt _ _ _ Hv30 H10) as [Hlt Hv40].
    unfold tan_expires_by in Hpass. rewrite Htan in Hpass.
    rewrite leb_date_after in Hpass by done. discriminate.
Qed.

(** ** C6: the daily call report *)

Lemma Task_init_fields (f : string → result string) (d : document) (x : Task.t) :
  Task.init f d = Ok x →
  Fields.enum TaskStatus.of_string (Ok TaskStatus.PENDING) "status" d = Ok (Task.status x) ∧
  Fields.opt_str "due_date" d = Ok (Task.due_date x).
Proof.
  unfold Task.init. intros H. bind_inv H. inversion H; subst; clear H. simpl.
  by split.
Qed.

Lemma ContactLog_init_fields (f : string → result string) (d : document)
    (x : ContactLog.t) :
  ContactLog.init f d = Ok x →
  Fields.bool_or false "follow_up_needed" d = Ok (ContactLog.follow_up_needed x) ∧
  Fields.opt_str "follow_up_date" d = Ok (ContactLog.follow_up_date x).
Proof.
  unfold ContactLog.init. intros H. bind_inv H. inversion H; subst; clear H. simpl.
  by split.
Qed.

Lemma TaskStatus_of_string_completed (s : string) (e : TaskStatus.t) :
  TaskStatus.of_string s = Some e →
  s = TaskStatus.value TaskStatus.COMPLETED ↔ e = TaskStatus.COMPLETED.
Proof.
  unfold TaskStatus.of_string.
  repeat match goal with
  | |- context [String.eqb s ?c] => destruct (String.eqb_spec s c) as [-> | ?]
  end; intros [= <-]; simpl; split; congruence.
Qed.

Lemma task_filter_agrees (today : string) (d : document) (x : Task.t) :
  Task.init stored d = Ok x →
  Mongo.matches
    [("due_date", Mongo.Field (Mongo.CEq (VStr today)));
     ("status", Mongo.Field (Mongo.CNe (VStr (TaskStatus.value TaskStatus.COMPLETED))))] d
  = true
  ↔ due_and_open today x.
Proof.
  intros H. apply Task_init_fields in H as [Hst Hdue].
  unfold Mongo.matches, Mongo.entry_holds, forallb, fst, snd, Mongo.cond_holds,
    due_and_open.
  rewrite andb_true_r, andb_true_iff, negb_true_iff.
  unfold Fields.opt_str in Hdue. unfold Fields.enum in Hst.
  assert (Hd : Mongo.eq_holds (VStr today) (d !! "due_date") = true
               ↔ Task.due_date x = Some today).
  { destruct (d !! "due_date") as [[| | s | | | |] |]; simpl in *;
      try discriminate; inversion Hdue; subst; clear Hdue;
      rewrite ?orb_false_r; try (split; discriminate).
    rewrite bool_decide_eq_true. split; congruence. }
  assert (Hs : Mongo.eq_holds (VStr (TaskStatus.value TaskStatus.COMPLETED))
                 (d !! "status") = false
               ↔ Task.status x ≠ TaskStatus.COMPLETED).
  { destruct (d !! "status") as [[| | s | | | |] |]; simpl in *;
      try discriminate.
    - destruct (TaskStatus.of_string s) as [e |] eqn:He; [| discriminate].
      inversion Hst; subst; clear Hst.
      rewrite orb_false_r, bool_decide_eq_false.
      rewrite <- (TaskStatus_of_string_completed s _ He). simpl.
      split; intros Hne E; apply Hne; congruence.
    - inversion Hst; subst. split; [congruence | done]. }
  tauto.
Qed.

Lemma callback_filter_agrees (today : string) (d : document) (x : ContactLog.t) :
  ContactLog.init stored d = Ok x →
  Mongo.matches
    [("follow_up_needed", Mongo.Field (Mongo.CEq (VBool true)));
     ("follow_up_date", Mongo.Field (Mongo.CLte today))] d
  = true
  ↔ callback_due today x.
Proof.
  intros H. apply ContactLog_init_fields in H as [Hn Hdate].
  unfold Mongo.matches, Mongo.entry_holds, forallb, fst, snd, Mongo.cond_holds,
    callback_due.
  rewrite andb_true_r, andb_true_iff.
  unfold Fields.opt_str in Hdate. unfold Fields.bool_or in Hn.
  assert (H1 : Mongo.eq_holds (VBool true) (d !! "follow_up_needed") = true
               ↔ ContactLog.follow_up_needed x = true).
  { unfold Mongo.eq_holds.
    destruct (d !! "follow_up_needed") as [[| b | | | | |] |]; simpl in *;
      try discriminate; inversion Hn; subst; clear Hn.
    - rewrite orb_false_r, bool_decide_eq_true. split; congruence.
    - split; discriminate. }
  assert (H2 : match d !! "follow_up_date" with
               | Some w => existsb (Mongo.str_lte today) (Mongo.candidates w)
               | None => false
               end = true
               ↔ match ContactLog.follow_up_date x with
                 | Some s => String.leb s today = true
                 | None => False
                 end).
  { destruct (d !! "follow_up_date") as [[| | s | | | |] |]; simpl in *;
      try discriminate; inversion Hdate; subst; clear Hdate;
      rewrite ?orb_false_r; try (split; [discriminate | tauto]).
    done. }
  tauto.
Qed.

(** The report on a valid store. *)
Lemma get_daily_call_report_Ok (db : database) (utcnow now t : Datetime.datetime)
    (ts : list Task.t) (ls : list ContactLog.t) (ps : list Patient.t) :
  traverse (Task.init stored) (tasks db) = Ok ts →
  traverse (ContactLog.init stored) (contact_logs db) = Ok ls →
  traverse (Patient.init stored) (patients db) = Ok ps →
  Datetime.plus_days now 30 = Ok t →
  let today := Datetime.date_isoformat (Datetime.date_of utcnow) in
  let xs := take 1000 (filter (due_and_open today) ts) in
  let ys := take 1000 (filter (callback_due today) ls) in
  let zs := take 1000 (filter (tan_expires_by (Datetime.isoformat t)) ps) in
  get_daily_call_report db utcnow now
  = Ok {| daily_tasks := xs; callbacks_needed := ys; expiring_tans := zs;
          total_items := length xs + length ys + length zs |}.
Proof.
  intros Hts Hls Hps Ht today xs ys zs.
  pose proof (traverse_matches (Task.init stored) _ (due_and_open today) 1000 _ _
                (λ d x, task_filter_agrees today d x) Hts) as H1.
  pose proof (traverse_matches (ContactLog.init stored) _ (callback_due today) 1000 _ _
                (λ d x, callback_filter_agrees today d x) Hls) as H2.
  pose proof (traverse_matches (Patient.init stored) _
                (tan_expires_by (Datetime.isoformat t)) 1000 _ _
                (λ d x, tan_filter_agrees (Datetime.isoformat t) d x) Hps) as H3.
  unfold get_daily_call_report. fold today.
  unfold Mongo.find, Mongo.checked.
  repeat (change (Mongo.query_valid _) with true; cbn [bind]).
  rewrite Ht. cbn [bind].
  rewrite H1, H2, H3. cbn [bind].
  by rewrite <- (traverse_length _ _ _ H1), <- (traverse_length _ _ _ H2),
    <- (traverse_length _ _ _ H3).
Qed.

(** C6, with the cap of the cursors. When the stored documents are
    valid and the date 30 days ahead exists, the daily call report holds
    the first 1000, in store order, of: the tasks due today (UTC date) and
    not completed; the contact logs flagged for follow-up with a follow-up
    date at or below today; the patients whose authorization expires at or
    below the local time 30 days ahead; and [total_items] is the plain sum
    of the three lengths. *)
Theorem daily_call_report_buckets (db : database) (utcnow now t : Datetime.datetime)
    (ts : list Task.t) (ls : list ContactLog.t) (ps : list Patient.t) :
  traverse (Task.init stored) (tasks db) = Ok ts →
  traverse (ContactLog.init stored) (contact_logs db) = Ok ls →
  traverse (Patient.init stored) (patients db) = Ok ps →
  Datetime.plus_days now 30 = Ok t →
  ∃ r, get_daily_call_report db utcnow now = Ok r ∧
       daily_tasks r
       = take 1000 (filter (due_and_open (Datetime.date_isoformat (Datetime.date_of utcnow))) ts) ∧
       callbacks_needed r
       = take 1000 (filter (callback_due (Datetime.date_isoformat (Datetime.date_of utcnow))) ls) ∧
       expiring_tans r
       = take 1000 (filter (tan_expires_by (Datetime.isoformat t)) ps) ∧
       total_items r
       = (length (daily_tasks r) + length (callbacks_needed r)
          + length (expiring_tans r))%nat.
Proof.
  intros Hts Hls Hps Ht.
  eexists. split; [by apply (get_daily_call_report_Ok db utcnow now t ts ls ps) |].
  by repeat split.
Qed.

(** ** C2: completing a task *)

Lemma completion_keeps_id (now : Datetime.datetime) (d : document) :
  (completion now ∪ d) !! "id" = d !! "id".
Proof. rewrite lookup_union. change (completion now !! "id") with (@None value).
  by destruct (d !! "id"). Qed.

(** No task answers to the identifier: 404, and the store is as before. *)
Lemma complete_task_missing (db : database) (now : Datetime.datetime) (task_id : string) :
  Mongo.find_one (tasks db) (by_id task_id) = Ok None →
  complete_task db now task_id = (db, not_found "Task not found").
Proof.
  rewrite find_one_by_id. intros Hnone.
  assert (Hhead : head (filter (λ x, Mongo.matches (by_id task_id) x = true) (tasks db))
                  = None) by congruence.
  unfold complete_task. rewrite update_one_by_id, (update_first_missing _ _ _ Hhead).
  simpl. by destruct db.
Qed.

(** A task answers to the identifier: it gets the status [completed] and
    the completion time, and the handler succeeds exactly when that changed
    the stored document. *)
Lemma complete_task_existing (db : database) (now : Datetime.datetime)
    (task_id : string) (d : document) :
  Mongo.find_one (tasks db) (by_id task_id) = Ok (Some d) →
  Mongo.find_one (tasks (fst (complete_task db now task_id))) (by_id task_id)
  = Ok (Some (completion now ∪ d)) ∧
  (completion now ∪ d) !! "status" = Some (VStr "completed") ∧
  (completion now ∪ d) !! "completed_at" = Some (VStr (Datetime.isoformat now)) ∧
  snd (complete_task db now task_id)
  = if bool_decide (completion now ∪ d = d) then not_found "Task not found"
    else Ok "Task completed successfully".
Proof.
  rewrite find_one_by_id. intros Hsome.
  assert (Hhead : head (filter (λ x, Mongo.matches (by_id task_id) x = true) (tasks db))
                  = Some d) by congruence.
  destruct (head_filter_holds _ _ _ Hhead) as [Hd _].
  assert (Hd' : Mongo.matches (by_id task_id) (completion now ∪ d) = true).
  { rewrite <- Hd. apply by_id_same_id, completion_keeps_id. }
  destruct (update_first_found _ (completion now) _ _ Hhead Hd') as [Hre Hcount].
  unfold complete_task. rewrite update_one_by_id.
  cbn [fst snd tasks with_tasks]. rewrite find_one_by_id, Hre, Hcount.
  split; [done |]. split; [| split].
  - rewrite lookup_union. change (completion now !! "status") with (Some (VStr "completed")).
    by destruct (d !! "status").
  - rewrite lookup_union.
    change (completion now !! "completed_at") with (Some (VStr (Datetime.isoformat now))).
    by destruct (d !! "completed_at").
  - cbn [Mongo.modified_count]. by destruct (bool_decide (completion now ∪ d = d)).
Qed.

(** Completing again on the same reading of the clock: the task is there,
    nothing changes, and the handler answers 404. *)
Lemma complete_task_again (db : database) (now : Datetime.datetime)
    (task_id : string) (d : document) :
  Mongo.find_one (tasks db) (by_id task_id) = Ok (Some d) →
  ∃ d', Mongo.find_one (tasks (fst (complete_task db now task_id))) (by_id task_id)
        = Ok (Some d') ∧
        snd (complete_task (fst (complete_task db now task_id)) now task_id)
        = not_found "Task not found".
Proof.
  intros Hd. destruct (complete_task_existing db now task_id d Hd) as (Hd' & _).
  exists (completion now ∪ d). split; [done |].
  destruct (complete_task_existing _ now task_id _ Hd') as (_ & _ & _ & ->).
  rewrite bool_decide_eq_true_2; [done |].
  by rewrite (assoc_L (∪)), (idemp_L (∪)).
Qed.

(** ** C3, C7: the search text *)

Lemma regex_holds_plain (search : string) (d : document) (k x : string) :
  plain search = true →
  d !! k = Some (VStr x) →
  Mongo.cond_holds (Mongo.CRegex search "i") (d !! k)
  = Str.contains (Str.lower search) (Str.lower x).
Proof.
  intros Hs ->. unfold Mongo.cond_holds. rewrite regex_compile_plain by done.
  cbn [Mongo.candidates existsb Mongo.regex_holds]. rewrite orb_false_r.
  unfold Regex.regex_search. cbn [Regex.anchored Regex.items].
  change (Regex.has_option "i" "i") with true.
  apply (match_anywhere_literal true).
Qed.

Lemma search_filter_agrees (search : string) (d : document) (p : Patient.t) :
  plain search = true →
  Patient.init stored d = Ok p →
  Mongo.matches [("$or", search_filter search)] d = true
  ↔ name_or_phone_contains search p.
Proof.
  intros Hs H. apply Patient_init_fields in H.
  destruct H as (_ & Hf & Hl & Hp & _).
  apply str_lookup in Hf, Hl, Hp.
  unfold Mongo.matches, Mongo.entry_holds, search_filter, Mongo.clause_holds,
    name_or_phone_contains.
  cbn [forallb existsb fst snd].
  rewrite (regex_holds_plain _ _ _ _ Hs Hf), (regex_holds_plain _ _ _ _ Hs Hl),
    (regex_holds_plain _ _ _ _ Hs Hp).
  rewrite !andb_true_r, orb_false_r, !orb_true_iff. tauto.
Qed.

Lemma search_filter_valid (search : string) :
  plain search = true → Mongo.entry_valid ("$or", search_filter search) = true.
Proof.
  intros Hs. unfold Mongo.entry_valid, search_filter. cbn [snd forallb Mongo.cond_valid].
  rewrite regex_compile_plain by done.
  rewrite bool_decide_eq_true_2; [done | eauto].
Qed.

(** The search of [get_patients] on a text without metacharacters: the
    first 1000 of the patients one of whose first name, last name or phone
    holds the text, letter case apart; with the flag too, of those that
    also expire by the bound. *)
Lemma get_patients_plain_search (db : database) (now t : Datetime.datetime)
    (search : string) (ps : list Patient.t) :
  traverse (Patient.init stored) (patients db) = Ok ps →
  plain search = true →
  search ≠ "" →
  Datetime.plus_days now 30 = Ok t →
  get_patients db now (Some search) None
  = Ok (take 1000 (filter (name_or_phone_contains search) ps)) ∧
  get_patients db now (Some search) (Some true)
  = Ok (take 1000 (filter (λ p, name_or_phone_contains search p ∧
                                tan_expires_by (Datetime.isoformat t) p) ps)).
Proof.
  intros Hps Hs Hne Ht. unfold get_patients.
  assert (Hg : given (Some search) = Some search) by (by destruct search).
  rewrite Hg, Ht. cbn [flag bind].
  change (Mongo.set_item [] "$or" (search_filter search))
    with [("$or", search_filter search)].
  change (Mongo.set_item [("$or", search_filter search)] "tan_expiry_date" ?f)
    with [("$or", search_filter search); ("tan_expiry_date", f)].
  assert (Hv : ∀ rest, Mongo.query_valid (("$or", search_filter search) :: rest)
                      = Mongo.query_valid rest).
  { intros rest. unfold Mongo.query_valid. cbn [forallb].
    by rewrite (search_filter_valid _ Hs). }
  unfold Mongo.find, Mongo.checked. rewrite !Hv.
  change (Mongo.query_valid _) with true at 1.
  change (Mongo.query_valid _) with true.
  cbn [bind]. split.
  - apply traverse_matches; [| done].
    intros d p. by apply search_filter_agrees.
  - apply traverse_matches; [| done].
    intros d p Hd.
    pose proof (search_filter_agrees search d p Hs Hd) as H1.
    pose proof (tan_filter_agrees (Datetime.isoformat t) d p Hd) as H2.
    unfold Mongo.matches in *. cbn [forallb] in *. rewrite andb_true_r in *.
    rewrite andb_true_iff. tauto.
Qed.

(** The pattern [.*] matches every text, so on a valid store the search
    for it lists the patients as if no search text were given. *)
Lemma dot_star_holds (d : document) (k x : string) :
  d !! k = Some (VStr x) →
  Mongo.cond_holds (Mongo.CRegex ".*" "i") (d !! k) = true.
Proof.
  intros ->. unfold Mongo.cond_holds.
  change (Regex.regex_compile ".*")
    with (Some {| Regex.anchored := false; Regex.items := [(Regex.AAny, Regex.QStar)] |}).
  cbn [Mongo.candidates existsb Mongo.regex_holds].
  unfold Regex.regex_search. cbn [Regex.anchored Regex.items].
  by destruct x.
Qed.

Lemma get_patients_dot_star (db : database) (now : Datetime.datetime)
    (ps : list Patient.t) :
  traverse (Patient.init stored) (patients db) = Ok ps →
  get_patients db now (Some ".*") None = Ok (take 1000 ps).
Proof.
  intros Hps. unfold get_patients. cbn [given Str.truthy flag bind].
  change (Mongo.set_item [] "$or" (search_filter ".*"))
    with [("$or", search_filter ".*")].
  unfold Mongo.find, Mongo.checked.
  change (Mongo.query_valid _) with true. cbn [bind].
  replace (take 1000 ps) with (take 1000 (filter (λ _ : Patient.t, True) ps))
    by (by rewrite filter_all).
  apply traverse_matches; [| done].
  intros d p Hd. apply Patient_init_fields in Hd.
  destruct Hd as (_ & Hf & _). apply str_lookup in Hf.
  unfold Mongo.matches, Mongo.entry_holds, search_filter, Mongo.clause_holds.
  cbn [forallb existsb fst snd].
  by rewrite (dot_star_holds _ _ _ Hf).
Qed.

(** A search text that begins with a plus sign, as a phone number in
    international notation does, is refused whatever the store holds. *)
Lemma get_patients_leading_plus (db : database) (now : Datetime.datetime)
    (rest : string) (tan_expiring : option bool) :
  flag tan_expiring = false →
  get_patients db now (Some (String "+" rest)) tan_expiring
  = Err (OperationFailure "Regular expression is invalid").
Proof.
  intros Hflag. unfold get_patients. rewrite Hflag. cbn [given Str.truthy bind].
  change (Mongo.set_item [] "$or" ?e) with [("$or", e)].
  unfold Mongo.find, Mongo.checked, Mongo.query_valid, search_filter.
  cbn [forallb Mongo.entry_valid snd Mongo.cond_valid].
  change (Regex.regex_compile (String "+" rest)) with (@None Regex.regex).
  rewrite bool_decide_eq_false_2; [done |]. by intros [? ?].
Qed.

(** ** The stored documents stay valid *)

Lemma traverse_Forall {A B} (f : A → result B) (xs : list A) :
  Forall (λ x, ∃ y, f x = Ok y) xs ↔ ∃ ys, traverse f xs = Ok ys.
Proof.
  induction xs as [| x xs IH]; simpl.
  - split; [eauto | constructor].
  - split.
    + intros H. inversion H as [| ? ? [y Hy] Hxs]; subst.
      apply IH in Hxs as [ys Hys]. rewrite Hy, Hys. simpl. eauto.
    + intros [ys H]. bind_inv H. constructor; [eauto |]. apply IH. eauto.
Qed.

Lemma enum_lookup {E} (of_string : string → option E) (value : E → string)
    (dflt : result E) (k : string) (d : document) (e : E) :
  of_string (value e) = Some e →
  d !! k = Some (VStr (value e)) →
  Fields.enum of_string dflt k d = Ok e.
Proof. intros He Hk. unfold Fields.enum. by rewrite Hk, He. Qed.

Lemma Task_init_dict_oid (f : string → result string) (x : Task.t) (v : value) :
  Task.init f (<["_id" := v]> (Task.dict x)) = Ok x.
Proof.
  unfold Task.init.
  rewrite (enum_lookup TaskType.of_string TaskType.value _ "task_type" _ (Task.task_type x));
    [| by destruct (Task.task_type x) | reflexivity].
  rewrite (enum_lookup TaskStatus.of_string TaskStatus.value _ "status" _ (Task.status x));
    [| by destruct (Task.status x) | reflexivity].
  rewrite (opt_str_lookup "due_date" _ (Task.due_date x)) by reflexivity.
  rewrite (opt_str_lookup "completed_at" _ (Task.completed_at x)) by reflexivity.
  by destruct x.
Qed.

Lemma ContactLog_init_dict_oid (f : string → result string) (x : ContactLog.t) (v : value) :
  ContactLog.init f (<["_id" := v]> (ContactLog.dict x)) = Ok x.
Proof.
  unfold ContactLog.init.
  rewrite (enum_lookup ContactOutcome.of_string ContactOutcome.value _ "outcome" _
             (ContactLog.outcome x));
    [| by destruct (ContactLog.outcome x) | reflexivity].
  rewrite (opt_str_lookup "follow_up_date" _ (ContactLog.follow_up_date x)) by reflexivity.
  by destruct x.
Qed.

Lemma insert_one_Forall (P : document → Prop) (coll : list document) (oid : N)
    (doc : document) :
  Forall P coll → doc !! "_id" = None → P (<["_id" := VOid oid]> doc) →
  Forall P (Mongo.insert_one coll oid doc).
Proof.
  intros Hcoll Hid Hdoc. unfold Mongo.insert_one. rewrite Hid.
  apply Forall_app. split; [done |]. by constructor.
Qed.

Lemma update_first_Forall (P : document → Prop) (q : Mongo.query) (fields : document)
    (coll : list document) :
  Forall P coll → (∀ d, P d → P (fields ∪ d)) →
  Forall P (fst (Mongo.update_first q fields coll)).
Proof.
  intros Hcoll HP. induction Hcoll as [| d coll Hd Hcoll IH]; [constructor |].
  simpl. destruct (Mongo.matches q d); simpl; constructor; auto.
Qed.

Lemma delete_first_Forall (P : document → Prop) (q : Mongo.query) (coll : list document) :
  Forall P coll → Forall P (fst (Mongo.delete_first q coll)).
Proof.
  intros Hcoll. induction Hcoll as [| d coll Hd Hcoll IH]; [constructor |].
  simpl. destruct (Mongo.matches q d); simpl; [done | by constructor].
Qed.

(** Completing keeps a task valid. *)
Lemma Task_init_completion (now : Datetime.datetime) (d : document) (x : Task.t) :
  Task.init stored d = Ok x →
  ∃ x', Task.init stored (completion now ∪ d) = Ok x'.
Proof.
  unfold Task.init. intros H. bind_inv H.
  assert (Hk : ∀ k, k ≠ "status" → k ≠ "completed_at" →
                    (completion now ∪ d) !! k = d !! k).
  { intros k H1 H2. rewrite lookup_union.
    unfold completion. rewrite !list_to_map_cons, list_to_map_nil. simpl fst. simpl snd.
    rewrite lookup_insert_ne, lookup_insert_ne, lookup_empty by done.
    by destruct (d !! k). }
  assert (Hs : (completion now ∪ d) !! "status" = Some (VStr "completed")).
  { rewrite lookup_union. change (completion now !! "status") with (Some (VStr "completed")).
    by destruct (d !! "status"). }
  assert (Hc : (completion now ∪ d) !! "completed_at"
               = Some (VStr (Datetime.isoformat now))).
  { rewrite lookup_union.
    change (completion now !! "completed_at") with (Some (VStr (Datetime.isoformat now))).
    by destruct (d !! "completed_at"). }
  unfold Fields.str_or, Fields.str, Fields.enum, Fields.opt_str in *.
  rewrite Hs, Hc. rewrite !Hk by done.
  repeat (match goal with
          | H : ?t = Ok _ |- context [?t] => rewrite H
          end; cbn [bind]).
  simpl. eauto.
Qed.

Ltac store_fields :=
  unfold valid_store;
  cbn [fst snd patients tasks contact_logs with_patients with_tasks inserted].

Theorem handle_valid (db : database) (r : request) :
  valid_store db → valid_store (handle db r).
Proof.
  intros Hdb. pose proof Hdb as (Hp & Ht & Hl).
  destruct r as [random now now' data | now pid u | pid
    | random now data | now tid | random now data]; cbn [handle].
  - unfold create_patient.
    destruct (Patient.init _ _) as [p | e]; [| done].
    store_fields. split; [| done].
    apply insert_one_Forall; [done | reflexivity |].
    exists p. apply Patient_init_dict_oid.
  - unfold update_patient. rewrite find_one_by_id.
    destruct (found _); [| done].
    rewrite update_one_by_id. store_fields. split; [| done].
    apply update_first_Forall; [done |].
    intros d [p Hd]. exists (merged_patient now u p). by apply Patient_init_merged.
  - unfold delete_patient.
    change (Mongo.delete_one (patients db) (by_id pid))
      with (Ok (Mongo.delete_first (by_id pid) (patients db))).
    store_fields. split; [| done]. by apply delete_first_Forall.
  - unfold create_task.
    destruct (Task.init _ _) as [x | e]; [| done].
    store_fields. split; [done |]. split; [| done].
    apply insert_one_Forall; [done | reflexivity |].
    exists x. apply Task_init_dict_oid.
  - unfold complete_task. rewrite update_one_by_id.
    store_fields. split; [done |]. split; [| done].
    apply update_first_Forall; [done |].
    intros d [x Hd]. by apply (Task_init_completion now d x).
  - unfold create_contact_log.
    destruct (ContactLog.init _ _) as [x | e]; [| done].
    store_fields. split; [done |]. split; [done |].
    apply insert_one_Forall; [done | reflexivity |].
    exists x. apply ContactLog_init_dict_oid.
Qed.

(** Every store the handlers can produce is valid: the hypotheses on the
    stored documents in the properties above hold of it. *)
Theorem reachable_valid (db : database) : reachable db → valid_store db.
Proof.
  intros [rs ->].
  assert (H : ∀ db0, valid_store db0 → valid_store (fold_left handle rs db0)).
  { induction rs as [| r rs IH]; intros db0 H0; [done |].
    simpl. apply IH. by apply handle_valid. }
  apply H. repeat split; constructor.
Qed.

Corollary reachable_validated (db : database) :
  reachable db →
  (∃ ps, traverse (Patient.init stored) (patients db) = Ok ps) ∧
  (∃ ts, traverse (Task.init stored) (tasks db) = Ok ts) ∧
  (∃ ls, traverse (ContactLog.init stored) (contact_logs db) = Ok ls).
Proof.
  intros H. destruct (reachable_valid db H) as (Hp & Ht & Hl).
  repeat split; by apply traverse_Forall.
Qed.

(** ** The environment on small inputs *)

Example isoformat_utc0 :
  Datetime.isoformat Sample.utc0 = "2024-01-05T09:03:00.001234+00:00".
Proof. reflexivity. Qed.

Example isoformat_local30 :
  Datetime.isoformat Sample.local30 = "2024-02-04T03:03:00.001300".
Proof. reflexivity. Qed.

Example isoformat_whole_second :
  Datetime.isoformat
    {| Datetime.date_of := Sample.day20; Datetime.hour := 0; Datetime.minute := 0;
       Datetime.second := 7; Datetime.microsecond := 0; Datetime.tzinfo := false |}
  = "2024-01-25T00:00:07".
Proof. reflexivity. Qed.

Example add_days_20_40 :
  Datetime.add_days 20 (Datetime.date_of Sample.local0) = Ok Sample.day20 ∧
  Datetime.add_days 40 (Datetime.date_of Sample.local0) = Ok Sample.day40 ∧
  Datetime.plus_days Sample.local0 30 = Ok Sample.local30.
Proof. by repeat split. Qed.

Example add_days_leap_year :
  Datetime.add_days 2 {| Datetime.year := 2024; Datetime.month := 2; Datetime.day := 28 |}
  = Ok {| Datetime.year := 2024; Datetime.month := 3; Datetime.day := 1 |} ∧
  Datetime.add_days 1 {| Datetime.year := 2023; Datetime.month := 2; Datetime.day := 28 |}
  = Ok {| Datetime.year := 2023; Datetime.month := 3; Datetime.day := 1 |} ∧
  Datetime.add_days 30 {| Datetime.year := 9999; Datetime.month := 12; Datetime.day := 15 |}
  = Err OverflowError.
Proof. by repeat split. Qed.

Example strftime_local0 : Datetime.strftime_Y_m Sample.local0 = "2024-01".
Proof. reflexivity. Qed.

Example uuid4_bits :
  Uuid.str (Uuid.uuid4 0) = "00000000-0000-4000-8000-000000000000" ∧
  Uuid.str (Uuid.uuid4 (-1)) = "ffffffff-ffff-4fff-bfff-ffffffffffff" ∧
  Uuid.str (Uuid.uuid4 7) = Sample.john_id.
Proof. by repeat split. Qed.

Example regex_compile_samples :
  Regex.regex_compile ".*"
  = Some {| Regex.anchored := false; Regex.items := [(Regex.AAny, Regex.QStar)] |} ∧
  Regex.regex_compile "^2024-01"
  = Some {| Regex.anchored := true; Regex.items := literal "2024-01" |} ∧
  Regex.regex_compile "a\.b?"
  = Some {| Regex.anchored := false;
            Regex.items := [(Regex.AChar "a", Regex.QOne); (Regex.AChar ".", Regex.QOne);
                            (Regex.AChar "b", Regex.QOpt)] |} ∧
  Regex.regex_compile "+1" = None ∧
  Regex.regex_compile "a**" = None.
Proof. by repeat split. Qed.

Example search_smith :
  get_patients Sample.office Sample.local0 (Some "smith") None = Ok [Sample.john] ∧
  get_patients Sample.office Sample.local0 (Some "LEE") None = Ok [Sample.ann] ∧
  get_patients Sample.office Sample.local0 (Some "555") None
  = Ok [Sample.john; Sample.ann] ∧
  get_patients Sample.office Sample.local0 (Some "555") (Some true) = Ok [Sample.john] ∧
  get_patients Sample.office Sample.local0 None (Some true) = Ok [Sample.john].
Proof. by repeat split. Qed.

Example monthly_summary_office :
  get_monthly_summary Sample.busy_office Sample.local0
  = Ok {| total_patients := 2; new_patients := 2; billed_patients := 0;
          unable_to_contact := 1; medicaid_issues := 1; month := "2024-01" |}.
Proof. reflexivity. Qed.

Example not_found_answers :
  get_patient Sample.office "nobody" = Err (HTTPException 404 "Patient not found") ∧
  snd (update_patient Sample.office Sample.utc0 "nobody" Sample.upd)
  = Err (HTTPException 404 "Patient not found") ∧
  snd (delete_patient Sample.office "nobody")
  = Err (HTTPException 404 "Patient not found") ∧
  snd (complete_task Sample.busy_office Sample.utc0 "nothing")
  = Err (HTTPException 404 "Task not found").
Proof. by repeat split. Qed.

Example delete_then_get :
  snd (delete_patient Sample.office Sample.john_id) = Ok "Patient deleted successfully" ∧
  get_patient (fst (delete_patient Sample.office Sample.john_id)) Sample.john_id
  = Err (HTTPException 404 "Patient not found") ∧
  get_patients (fst (delete_patient Sample.office Sample.john_id)) Sample.local0 None None
  = Ok [Sample.ann].
Proof. by repeat split. Qed.

Example daily_report_busy_office :
  get_daily_call_report Sample.busy_office Sample.utc0 Sample.local0
  = Ok {| daily_tasks := [Sample.the_task]; callbacks_needed := [Sample.the_log];
          expiring_tans := [Sample.john]; total_items := 3 |}.
Proof. reflexivity. Qed.

(** ** The sample stores are reachable and valid *)

Lemma sample_stores_reachable (n : nat) :
  reachable Sample.office ∧ reachable Sample.busy_office ∧
  reachable (Sample.crowd n) ∧ reachable (Sample.backlog n).
Proof.
  repeat split.
  - by eexists.
  - exists [CreatePatient 7 Sample.utc0 Sample.utc0 Sample.john_in;
            CreatePatient 8 Sample.utc0 Sample.utc0 Sample.ann_in;
            CreateTask 9 Sample.utc0 Sample.task_in;
            CreateContactLog 10 Sample.utc0 Sample.log_in].
    reflexivity.
  - by eexists.
  - by eexists.
Qed.

Lemma office_patients :
  traverse (Patient.init stored) (patients Sample.office) = Ok [Sample.john; Sample.ann].
Proof. vm_compute. reflexivity. Qed.

Lemma busy_office_contents :
  traverse (Task.init stored) (tasks Sample.busy_office) = Ok [Sample.the_task] ∧
  traverse (ContactLog.init stored) (contact_logs Sample.busy_office) = Ok [Sample.the_log] ∧
  traverse (Patient.init stored) (patients Sample.busy_office)
  = Ok [Sample.john; Sample.ann].
Proof. vm_compute. repeat split; reflexivity. Qed.

Lemma crowd_valid :
  traverse (Patient.init stored) (patients (Sample.crowd 1001))
  = Ok (Sample.crowd_patients 1001).
Proof. vm_compute. reflexivity. Qed.

Lemma backlog_valid :
  traverse (Task.init stored) (tasks (Sample.backlog 1001))
  = Ok (Sample.backlog_tasks 1001).
Proof. vm_compute. reflexivity. Qed.

Lemma local0_valid : Datetime.valid_datetime Sample.local0.
Proof. repeat split; vm_compute; discriminate. Qed.

(** ** The properties on the sample stores *)

(** C1 in the office: John's record gets a new first name, a height and a
    new eligibility; the rest stays. *)
Lemma update_patient_merges_present_fields_witness :
  Mongo.find_one (patients Sample.office) (by_id Sample.john_id) = Ok (Some Sample.john_doc) ∧
  Patient.init stored Sample.john_doc = Ok Sample.john ∧
  ∃ d' p',
    snd (update_patient Sample.office Sample.utc0 Sample.john_id Sample.upd) = Ok p' ∧
    Mongo.find_one
      (patients (fst (update_patient Sample.office Sample.utc0 Sample.john_id Sample.upd)))
      (by_id Sample.john_id)
    = Ok (Some d') ∧
    Patient.init stored d' = Ok p' ∧
    (∀ k v, PatientUpdate.dict Sample.upd !! k = Some v → v ≠ VNull → d' !! k = Some v) ∧
    (∀ k, k ≠ "updated_at" →
          PatientUpdate.dict Sample.upd !! k = None ∨
          PatientUpdate.dict Sample.upd !! k = Some VNull →
          d' !! k = Sample.john_doc !! k) ∧
    d' !! "updated_at" = Some (VStr (Datetime.isoformat Sample.utc0)) ∧
    present_written Sample.upd p' ∧
    omitted_retained Sample.upd Sample.john p' ∧
    Patient.updated_at p' = Datetime.isoformat Sample.utc0 ∧
    Patient.id p' = Patient.id Sample.john ∧
    Patient.created_at p' = Patient.created_at Sample.john.
Proof.
  split; [reflexivity |]. split; [reflexivity |].
  apply (update_patient_merges_present_fields Sample.office Sample.utc0 Sample.john_id
           Sample.upd Sample.john_doc Sample.john).
  - reflexivity.
  - reflexivity.
Defined.

(** C9 in the office: John's weight survives the update, and so does his
    doctor, whom the update does not name. *)
Lemma update_patient_cannot_clear_witness :
  Mongo.find_one (patients Sample.office) (by_id Sample.john_id) = Ok (Some Sample.john_doc) ∧
  Patient.init stored Sample.john_doc = Ok Sample.john ∧
  ∃ d' p',
    snd (update_patient Sample.office Sample.utc0 Sample.john_id Sample.upd) = Ok p' ∧
    Mongo.find_one
      (patients (fst (update_patient Sample.office Sample.utc0 Sample.john_id Sample.upd)))
      (by_id Sample.john_id)
    = Ok (Some d') ∧
    get_patient (fst (update_patient Sample.office Sample.utc0 Sample.john_id Sample.upd))
      Sample.john_id = Ok p' ∧
    (∀ k v, Sample.john_doc !! k = Some v → v ≠ VNull → ∃ v', d' !! k = Some v' ∧ v' ≠ VNull) ∧
    (∀ x, Patient.height Sample.john = Some x →
          Patient.height p' = Some x ∨
          ∃ y, PatientUpdate.height Sample.upd = Some y ∧ Patient.height p' = Some y) ∧
    (∀ x, Patient.weight Sample.john = Some x →
          Patient.weight p' = Some x ∨
          ∃ y, PatientUpdate.weight Sample.upd = Some y ∧ Patient.weight p' = Some y) ∧
    (∀ x, Patient.last_billing_date Sample.john = Some x →
          Patient.last_billing_date p' = Some x ∨
          ∃ y, PatientUpdate.last_billing_date Sample.upd = Some y ∧
               Patient.last_billing_date p' = Some y) ∧
    (∀ x, Doctor.address (Patient.doctor Sample.john) = Some x →
          PatientUpdate.doctor Sample.upd = None →
          Doctor.address (Patient.doctor p') = Some x) ∧
    (∀ dr, PatientUpdate.doctor Sample.upd = Some dr → Patient.doctor p' = dr).
Proof.
  split; [reflexivity |]. split; [reflexivity |].
  apply (update_patient_cannot_clear Sample.office Sample.utc0 Sample.john_id
           Sample.upd Sample.john_doc Sample.john).
  - reflexivity.
  - reflexivity.
Defined.

(** Eve's doctor has an address on file; after an update that names the
    doctor without one, the entity returned and the entity read back hold
    no address. *)
Example update_names_doctor :
  get_patient Clinic.store Clinic.eve_id = Ok Clinic.eve ∧
  Doctor.address (Patient.doctor Clinic.eve) = Some "9 Elm St" ∧
  snd (update_patient Clinic.store Sample.utc1 Clinic.eve_id Clinic.new_doctor)
  = Ok (merged_patient Sample.utc1 Clinic.new_doctor Clinic.eve) ∧
  get_patient (fst (update_patient Clinic.store Sample.utc1 Clinic.eve_id Clinic.new_doctor))
    Clinic.eve_id
  = Ok (merged_patient Sample.utc1 Clinic.new_doctor Clinic.eve) ∧
  Doctor.address (Patient.doctor (merged_patient Sample.utc1 Clinic.new_doctor Clinic.eve))
  = None.
Proof. repeat split; reflexivity. Qed.

(** C9 does not hold for the address of the embedded doctor: the address
    is an optional field that holds a value, and an update that names the
    doctor without an address replaces the embedded document and clears
    it. *)
Lemma update_patient_clears_doctor_address :
  ¬ (∀ (db : database) (now : Datetime.datetime) (patient_id : string)
       (u : PatientUpdate.t) (p p' : Patient.t) (x : string),
       get_patient db patient_id = Ok p →
       Doctor.address (Patient.doctor p) = Some x →
       snd (update_patient db now patient_id u) = Ok p' →
       get_patient (fst (update_patient db now patient_id u)) patient_id = Ok p' →
       is_Some (Doctor.address (Patient.doctor p'))).
Proof.
  intros H.
  destruct (H Clinic.store Sample.utc1 Clinic.eve_id Clinic.new_doctor Clinic.eve
              (merged_patient Sample.utc1 Clinic.new_doctor Clinic.eve) "9 Elm St"
              eq_refl eq_refl eq_refl eq_refl) as [x Hx].
  discriminate Hx.
Qed.

(** C4 in the office: a third patient is created and read back. *)
Lemma create_then_get_patient_witness :
  unused_id Sample.office (Uuid.str (Uuid.uuid4 11)) ∧
  ∃ p, snd (create_patient Sample.office 11 Sample.utc0 Sample.utc0 Sample.john_in) = Ok p ∧
       get_patient (fst (create_patient Sample.office 11 Sample.utc0 Sample.utc0 Sample.john_in))
         (Patient.id p) = Ok p ∧
       p = created_patient 11 Sample.utc0 Sample.utc0 Sample.john_in ∧
       String.length (Patient.id p) = 36 ∧
       Patient.id p ≠ "".
Proof.
  assert (H : unused_id Sample.office (Uuid.str (Uuid.uuid4 11))).
  { intros d Hd.
    change (patients Sample.office)
      with [Sample.john_doc; <["_id" := VOid 1]> (Patient.dict Sample.ann)] in Hd.
    repeat (apply elem_of_cons in Hd as [-> | Hd]; [reflexivity |]).
    by apply elem_of_nil in Hd. }
  split; [exact H |].
  exact (create_then_get_patient Sample.office 11 Sample.utc0 Sample.utc0 Sample.john_in H).
Defined.

(** C8 in the office: of the two patients, one is not eligible. *)
Lemma medicaid_issues_counts_all_witness :
  traverse (Patient.init stored) (patients Sample.office) = Ok [Sample.john; Sample.ann] ∧
  ∃ s, get_monthly_summary Sample.office Sample.local0 = Ok s ∧
       medicaid_issues s
       = length (filter (λ p, Patient.medicaid_eligible p = false) [Sample.john; Sample.ann]).
Proof.
  split; [reflexivity |].
  apply (medicaid_issues_counts_all Sample.office Sample.local0 [Sample.john; Sample.ann]).
  reflexivity.
Defined.

(** C5 in the office: John's authorization expires in 20 days,
    Ann's in 40. *)
Lemma tan_expiring_list_witness :
  traverse (Patient.init stored) (patients Sample.office) = Ok [Sample.john; Sample.ann] ∧
  Datetime.valid_datetime Sample.local0 ∧
  Datetime.plus_days Sample.local0 30 = Ok Sample.local30 ∧
  ∃ r, get_patients Sample.office Sample.local0 None (Some true) = Ok r ∧
       r = take 1000 (filter (tan_expires_by (Datetime.isoformat Sample.local30))
                        [Sample.john; Sample.ann]) ∧
       (∀ p d20, p ∈ [Sample.john; Sample.ann] →
                 Datetime.add_days 20 (Datetime.date_of Sample.local0) = Ok d20 →
                 Patient.tan_expiry_date p = Datetime.date_isoformat d20 →
                 tan_expires_by (Datetime.isoformat Sample.local30) p ∧
                 ((length [Sample.john; Sample.ann] ≤ 1000)%nat → p ∈ r)) ∧
       (∀ p d40, Datetime.add_days 40 (Datetime.date_of Sample.local0) = Ok d40 →
                 Patient.tan_expiry_date p = Datetime.date_isoformat d40 →
                 p ∉ r).
Proof.
  split; [reflexivity |].
  split; [repeat split; vm_compute; discriminate |].
  split; [reflexivity |].
  apply (tan_expiring_list Sample.office Sample.local0 Sample.local30
           [Sample.john; Sample.ann]).
  - reflexivity.
  - repeat split; vm_compute; discriminate.
  - reflexivity.
Defined.

Lemma Ok_inj {A} (a b : A) : Ok a = Ok b → a = b.
Proof. intros H. by injection H. Qed.

Lemma take_shorter {A} (n : nat) (l : list A) : (n < length l)%nat → take n l ≠ l.
Proof. intros Hn E. apply (f_equal length) in E. rewrite length_take in E. lia. Qed.

Lemma crowd_all_expiring :
  length (filter (tan_expires_by (Datetime.isoformat Sample.local30))
            (Sample.crowd_patients 1001)) = 1001%nat.
Proof. vm_compute. reflexivity. Qed.

(** C5 does not hold without the cap: of 1001 patients whose authorization
    expires within 30 days the list holds 1000. *)
Lemma tan_expiring_list_capped :
  ¬ (∀ (db : database) (now t : Datetime.datetime) (ps : list Patient.t),
       traverse (Patient.init stored) (patients db) = Ok ps →
       Datetime.valid_datetime now →
       Datetime.plus_days now 30 = Ok t →
       get_patients db now None (Some true)
       = Ok (filter (tan_expires_by (Datetime.isoformat t)) ps)).
Proof.
  intros H.
  pose proof (H (Sample.crowd 1001) Sample.local0 Sample.local30
                (Sample.crowd_patients 1001) crowd_valid local0_valid eq_refl) as H1.
  pose proof (get_patients_tan_expiring (Sample.crowd 1001) Sample.local0
                Sample.local30 _ crowd_valid eq_refl) as H2.
  pose proof (Ok_inj _ _ (eq_trans (eq_sym H2) H1)) as E.
  apply take_shorter in E; [done |].
  rewrite crowd_all_expiring. lia.
Qed.

(** C6 in the busy office: one task due today, one callback and
    one expiring authorization. *)
Lemma daily_call_report_buckets_witness :
  traverse (Task.init stored) (tasks Sample.busy_office) = Ok [Sample.the_task] ∧
  traverse (ContactLog.init stored) (contact_logs Sample.busy_office) = Ok [Sample.the_log] ∧
  traverse (Patient.init stored) (patients Sample.busy_office)
  = Ok [Sample.john; Sample.ann] ∧
  Datetime.plus_days Sample.local0 30 = Ok Sample.local30 ∧
  ∃ r, get_daily_call_report Sample.busy_office Sample.utc0 Sample.local0 = Ok r ∧
       daily_tasks r
       = take 1000 (filter (due_and_open (Datetime.date_isoformat (Datetime.date_of Sample.utc0)))
                      [Sample.the_task]) ∧
       callbacks_needed r
       = take 1000 (filter (callback_due (Datetime.date_isoformat (Datetime.date_of Sample.utc0)))
                      [Sample.the_log]) ∧
       expiring_tans r
       = take 1000 (filter (tan_expires_by (Datetime.isoformat Sample.local30))
                      [Sample.john; Sample.ann]) ∧
       total_items r
       = (length (daily_tasks r) + length (callbacks_needed r)
          + length (expiring_tans r))%nat.
Proof.
  split; [reflexivity |]. split; [reflexivity |]. split; [reflexivity |].
  split; [reflexivity |].
  apply (daily_call_report_buckets Sample.busy_office Sample.utc0 Sample.local0
           Sample.local30 [Sample.the_task] [Sample.the_log] [Sample.john; Sample.ann]);
    reflexivity.
Defined.

Lemma backlog_others :
  traverse (ContactLog.init stored) (contact_logs (Sample.backlog 1001)) = Ok [] ∧
  traverse (Patient.init stored) (patients (Sample.backlog 1001)) = Ok [].
Proof. vm_compute. split; reflexivity. Qed.

Lemma backlog_all_due :
  length (filter (due_and_open (Datetime.date_isoformat (Datetime.date_of Sample.utc0)))
            (Sample.backlog_tasks 1001)) = 1001%nat.
Proof. vm_compute. reflexivity. Qed.

(** C6 does not hold without the cap: of 1001 open tasks due today the
    report holds 1000. *)
Lemma daily_call_report_capped :
  ¬ (∀ (db : database) (utcnow now t : Datetime.datetime)
       (ts : list Task.t) (ls : list ContactLog.t) (ps : list Patient.t),
       traverse (Task.init stored) (tasks db) = Ok ts →
       traverse (ContactLog.init stored) (contact_logs db) = Ok ls →
       traverse (Patient.init stored) (patients db) = Ok ps →
       Datetime.plus_days now 30 = Ok t →
       ∃ r, get_daily_call_report db utcnow now = Ok r ∧
            daily_tasks r
            = filter (due_and_open (Datetime.date_isoformat (Datetime.date_of utcnow))) ts).
Proof.
  intros H. destruct backlog_others as [Hls Hps].
  destruct (H (Sample.backlog 1001) Sample.utc0 Sample.local0 Sample.local30
              (Sample.backlog_tasks 1001) [] [] backlog_valid Hls Hps eq_refl)
    as (r & Hr & Hd).
  pose proof (get_daily_call_report_Ok (Sample.backlog 1001) Sample.utc0 Sample.local0
                Sample.local30 _ _ _ backlog_valid Hls Hps eq_refl) as Hr'.
  cbv zeta in Hr'.
  pose proof (Ok_inj _ _ (eq_trans (eq_sym Hr) Hr')) as ->.
  cbn [daily_tasks] in Hd.
  apply take_shorter in Hd; [done |].
  rewrite backlog_all_due. lia.
Qed.

(** C2 fails on a repeated completion. A task is created and completed; a second
    completion that reads the same time from the clock changes nothing in
    the stored task, and the handler answers 404 although the task is in
    the store. *)
Theorem complete_task_existing_404 :
  let db1 := fst (create_task Sample.office 9 Sample.utc0 Sample.task_in) in
  let db2 := fst (complete_task db1 Sample.utc1 Sample.task_id) in
  snd (complete_task db1 Sample.utc1 Sample.task_id) = Ok "Task completed successfully" ∧
  (∃ x, get_tasks db2 Sample.utc1 None None None = Ok [x] ∧
        Task.id x = Sample.task_id ∧
        Task.status x = TaskStatus.COMPLETED ∧
        Task.completed_at x = Some "2024-01-05T14:30:12.500000+00:00") ∧
  complete_task db2 Sample.utc1 Sample.task_id
  = (db2, Err (HTTPException 404 "Task not found")).
Proof.
  intros db1 db2. split; [reflexivity |]. split.
  - eexists. split; [reflexivity |]. by repeat split.
  - reflexivity.
Qed.

(** C3 fails on the search text [.*]. The text is in no first name, last
    name or phone of the office; it goes into the filter as it is, and the
    list holds both patients.  With the metacharacters escaped the list
    would be empty. *)
Theorem search_text_is_a_pattern :
  search_filter ".*"
  = Mongo.Or [[("first_name", Mongo.CRegex ".*" "i")];
              [("last_name", Mongo.CRegex ".*" "i")];
              [("phone", Mongo.CRegex ".*" "i")]] ∧
  get_patients Sample.office Sample.local0 (Some ".*") None
  = Ok [Sample.john; Sample.ann] ∧
  (∀ p, p ∈ [Sample.john; Sample.ann] →
        Str.contains ".*" (Patient.first_name p) = false ∧
        Str.contains ".*" (Patient.last_name p) = false ∧
        Str.contains ".*" (Patient.phone p) = false) ∧
  get_patients Sample.office Sample.local0 (Some "\.\*") None = Ok [].
Proof.
  split; [reflexivity |]. split; [reflexivity |]. split; [| reflexivity].
  intros p Hp.
  repeat (apply elem_of_cons in Hp as [-> | Hp]; [by repeat split |]).
  by apply elem_of_nil in Hp.
Qed.

(** C7 fails on the search text [+1]. Ann's phone holds the text, and the
    list is refused by the store: the text is no well-formed pattern. *)
Theorem search_text_plus_sign_raises :
  name_or_phone_contains "+1" Sample.ann ∧
  Sample.ann ∈ [Sample.john; Sample.ann] ∧
  traverse (Patient.init stored) (patients Sample.office) = Ok [Sample.john; Sample.ann] ∧
  get_patients Sample.office Sample.local0 (Some "+1") None
  = Err (OperationFailure "Regular expression is invalid").
Proof.
  split; [right; right; reflexivity |].
  split; [set_solver |]. split; reflexivity.
Qed.

(** * The store as typed contents *)

(** ** Documents written from entities *)

Lemma Task_init_create (random : Z) (now : Datetime.datetime) (data : TaskCreate.t) :
  Task.init (fresh random now now) (prepare_for_mongo (TaskCreate.dict data))
  = Ok (created_task random now data).
Proof. destruct data as [pid [] title descr [due |]]; reflexivity. Qed.

Lemma ContactLog_init_create (random : Z) (now : Datetime.datetime)
    (data : ContactLogCreate.t) :
  ContactLog.init (fresh random now now) (prepare_for_mongo (ContactLogCreate.dict data))
  = Ok (created_log random now data).
Proof. destruct data as [pid [] notes needed [date |]]; reflexivity. Qed.

Lemma stored_patient_init (p : Patient.t) (d : document) :
  stored_as Patient.dict p d → Patient.init stored d = Ok p.
Proof. intros [oid ->]. apply Patient_init_dict_oid. Qed.

Lemma stored_task_init (x : Task.t) (d : document) :
  stored_as Task.dict x d → Task.init stored d = Ok x.
Proof. intros [oid ->]. apply Task_init_dict_oid. Qed.

Lemma stored_log_init (x : ContactLog.t) (d : document) :
  stored_as ContactLog.dict x d → ContactLog.init stored d = Ok x.
Proof. intros [oid ->]. apply ContactLog_init_dict_oid. Qed.

Lemma bool_decide_eqb (a b : string) : bool_decide (a = b) = String.eqb a b.
Proof.
  destruct (String.eqb_spec a b) as [-> | Hne].
  - by apply bool_decide_eq_true.
  - by apply bool_decide_eq_false.
Qed.

Lemma stored_patient_by_id (p : Patient.t) (d : document) (i : string) :
  stored_as Patient.dict p d →
  Mongo.matches (by_id i) d = String.eqb (Patient.id p) i.
Proof.
  intros [oid ->]. rewrite (by_id_matches i _ (Patient.id p)) by reflexivity.
  apply bool_decide_eqb.
Qed.

Lemma stored_task_by_id (x : Task.t) (d : document) (i : string) :
  stored_as Task.dict x d →
  Mongo.matches (by_id i) d = String.eqb (Task.id x) i.
Proof.
  intros [oid ->]. rewrite (by_id_matches i _ (Task.id x)) by reflexivity.
  apply bool_decide_eqb.
Qed.

(** A key outside a list of keys is outside every part of it. *)
Ltac other_key Hi :=
  cbn; let Hin := fresh in
  intros Hin; apply Hi;
  repeat (apply elem_of_cons in Hin as [-> | Hin];
          [repeat first [apply list_elem_of_here | apply list_elem_of_further] |]);
  by apply elem_of_nil in Hin.

(** The merge dictionary on the dictionary of an entity. *)
Lemma update_fields_on_dict (now : Datetime.datetime) (u : PatientUpdate.t)
    (p : Patient.t) :
  update_fields now u ∪ Patient.dict p = Patient.dict (merged_patient now u p).
Proof.
  apply map_eq. intros i. rewrite merged_lookup, update_fields_lookup.
  destruct u as [u1 u2 u3 u4 u5 u6 u7 u8 u9 u10 u11 u12 u13 u14 u15].
  destruct (decide (i ∈ ["id"; "first_name"; "last_name"; "phone"; "address"; "height";
                         "weight"; "icd10_codes"; "doctor"; "current_tan";
                         "tan_expiry_date"; "medicaid_id"; "medicaid_eligible";
                         "last_billing_date"; "products"; "notes"; "created_at";
                         "updated_at"])) as [Hi | Hi].
  - repeat (apply elem_of_cons in Hi as [-> | Hi];
            [first [ reflexivity | by destruct u1 | by destruct u2 | by destruct u3
                   | by destruct u4 | by destruct u5 | by destruct u6 | by destruct u7
                   | by destruct u8 | by destruct u9 | by destruct u10 | by destruct u11
                   | by destruct u12 | by destruct u13 | by destruct u14
                   | by destruct u15 ] |]).
    by apply elem_of_nil in Hi.
  - rewrite decide_False by (intros ->; apply Hi; repeat first [apply list_elem_of_here | apply list_elem_of_further]).
    unfold PatientUpdate.dict, Patient.dict.
    rewrite !(not_elem_of_list_to_map_1 _ i) by other_key Hi. done.
Qed.

Lemma stored_merged (now : Datetime.datetime) (u : PatientUpdate.t) (p : Patient.t)
    (d : document) :
  stored_as Patient.dict p d →
  stored_as Patient.dict (merged_patient now u p) (update_fields now u ∪ d).
Proof.
  intros [oid ->]. exists oid.
  rewrite <- update_fields_on_dict.
  apply map_eq. intros i. rewrite merged_lookup.
  destruct (decide (i = "_id")) as [-> | Hi].
  - rewrite !lookup_insert_eq. by rewrite update_fields_lookup.
  - rewrite !lookup_insert_ne by done. by rewrite merged_lookup.
Qed.

Lemma completion_on_dict (now : Datetime.datetime) (x : Task.t) :
  completion now ∪ Task.dict x = Task.dict (completed_task now x).
Proof.
  apply map_eq. intros i. rewrite lookup_union.
  destruct (decide (i ∈ ["id"; "patient_id"; "task_type"; "title"; "description";
                         "assigned_to"; "status"; "due_date"; "created_at";
                         "completed_at"])) as [Hi | Hi].
  - repeat (apply elem_of_cons in Hi as [-> | Hi];
            [first [ reflexivity | by destruct (Task.completed_at x) ] |]).
    by apply elem_of_nil in Hi.
  - unfold completion, Task.dict.
    rewrite !(not_elem_of_list_to_map_1 _ i) by other_key Hi. done.
Qed.

Lemma stored_completed (now : Datetime.datetime) (x : Task.t) (d : document) :
  stored_as Task.dict x d →
  stored_as Task.dict (completed_task now x) (completion now ∪ d).
Proof.
  intros [oid ->]. exists oid.
  rewrite <- completion_on_dict.
  apply map_eq. intros i. rewrite !lookup_union.
  destruct (decide (i = "_id")) as [-> | Hi].
  - by rewrite !lookup_insert_eq.
  - rewrite !lookup_insert_ne by done. by rewrite lookup_union.
Qed.

(** ** The store operations on written documents *)

Section written.
Context {X : Type} (dict : X → document).

Lemma insert_one_written (xs : list X) (docs : list document) (oid : N) (x : X) :
  Forall2 (stored_as dict) xs docs → dict x !! "_id" = None →
  Forall2 (stored_as dict) (xs ++ [x]) (Mongo.insert_one docs oid (dict x)).
Proof.
  intros H Hid. unfold Mongo.insert_one. rewrite Hid.
  apply Forall2_app; [done |]. constructor; [by exists oid | constructor].
Qed.

Lemma update_first_written (q : Mongo.query) (fields : document) (P : X → bool)
    (g : X → X) (xs : list X) (docs : list document) :
  (∀ x d, stored_as dict x d → Mongo.matches q d = P x) →
  (∀ x d, stored_as dict x d → stored_as dict (g x) (fields ∪ d)) →
  Forall2 (stored_as dict) xs docs →
  Forall2 (stored_as dict) (replace_first P g xs) (fst (Mongo.update_first q fields docs)).
Proof.
  intros HP Hg H. induction H as [| x d xs docs Hx H IH]; [constructor |].
  simpl. rewrite (HP x d Hx). destruct (P x); simpl; constructor; auto.
Qed.

Lemma delete_first_written (q : Mongo.query) (P : X → bool)
    (xs : list X) (docs : list document) :
  (∀ x d, stored_as dict x d → Mongo.matches q d = P x) →
  Forall2 (stored_as dict) xs docs →
  Forall2 (stored_as dict) (remove_first P xs) (fst (Mongo.delete_first q docs)).
Proof.
  intros HP H. induction H as [| x d xs docs Hx H IH]; [constructor |].
  simpl. rewrite (HP x d Hx). destruct (P x); simpl; [done | by constructor].
Qed.

(** The first match of a filter among written documents. *)
Lemma head_filter_written (q : Mongo.query) (P : X → bool)
    (xs : list X) (docs : list document) :
  (∀ x d, stored_as dict x d → Mongo.matches q d = P x) →
  Forall2 (stored_as dict) xs docs →
  match head (filter (λ d, Mongo.matches q d = true) docs) with
  | Some d => ∃ x, head (filter (λ x, P x = true) xs) = Some x ∧ stored_as dict x d
  | None => head (filter (λ x, P x = true) xs) = None
  end.
Proof.
  intros HP H. induction H as [| x d xs docs Hx H IH]; [done |].
  rewrite !filter_cons. rewrite (HP x d Hx).
  destruct (P x) eqn:HPx.
  - rewrite !decide_True by done. simpl. eauto.
  - rewrite !decide_False by (by intros ?). exact IH.
Qed.

(** Validating written documents gives the entities back. *)
Lemma traverse_written (init : document → result X) (xs : list X) (docs : list document) :
  (∀ x d, stored_as dict x d → init d = Ok x) →
  Forall2 (stored_as dict) xs docs → traverse init docs = Ok xs.
Proof.
  intros Hinit H. induction H as [| x d xs docs Hx H IH]; [done |].
  simpl. by rewrite (Hinit x d Hx), IH.
Qed.

End written.

(** ** Every request acts on the contents *)

Lemma handle_represents (db : database) (c : contents) (r : request) :
  represents db c → represents (handle db r) (apply c r).
Proof.
  intros (Hp & Ht & Hl).
  destruct r as [random now now' data | now pid u | pid
    | random now data | now tid | random now data]; cbn [handle apply].
  - rewrite create_patient_eq. cbn [fst]. split; [| done].
    cbn [patients inserted the_patients].
    change (patients db ++ [<["_id":=VOid (next_oid db)]>
              (Patient.dict (created_patient random now now' data))])%list
      with (Mongo.insert_one (patients db) (next_oid db)
              (Patient.dict (created_patient random now now' data))).
    by apply insert_one_written.
  - unfold update_patient. rewrite find_one_by_id.
    pose proof (head_filter_written Patient.dict (by_id pid)
                  (λ p, String.eqb (Patient.id p) pid) _ _
                  (λ x d H, stored_patient_by_id x d pid H) Hp) as Hhead.
    destruct (head _) as [d |] eqn:Hd.
    + destruct Hhead as (p & _ & Hpd).
      assert (Hm : Mongo.matches (by_id pid) d = true).
      { by destruct (head_filter_holds _ _ _ Hd). }
      rewrite (by_id_nonempty _ _ Hm), update_one_by_id.
      split; [| done]. cbn [fst patients with_patients the_patients].
      apply update_first_written; [| | done].
      * intros x d' H. by apply stored_patient_by_id.
      * intros x d' H. by apply stored_merged.
    + cbn [found fst]. split; [| done]. cbn [the_patients].
      clear Hd. induction Hp as [| x d xs docs Hx Hp IH]; [constructor |].
      rewrite !filter_cons in Hhead. simpl.
      destruct (String.eqb (Patient.id x) pid) eqn:Hx'.
      * rewrite decide_True in Hhead by done. discriminate.
      * rewrite decide_False in Hhead by (by intros ?). constructor; auto.
  - unfold delete_patient.
    change (Mongo.delete_one (patients db) (by_id pid))
      with (Ok (Mongo.delete_first (by_id pid) (patients db))).
    split; [| done]. cbn [fst patients with_patients the_patients].
    apply delete_first_written; [| done].
    intros x d H. by apply stored_patient_by_id.
  - unfold create_task. rewrite Task_init_create.
    split; [done |]. split; [| done].
    cbn [fst tasks inserted the_tasks]. by apply insert_one_written.
  - unfold complete_task. rewrite update_one_by_id.
    split; [done |]. split; [| done].
    cbn [fst tasks with_tasks the_tasks].
    apply update_first_written; [| | done].
    + intros x d H. by apply stored_task_by_id.
    + intros x d H. by apply stored_completed.
  - unfold create_contact_log. rewrite ContactLog_init_create.
    split; [done |]. split; [done |].
    cbn [fst contact_logs inserted the_logs]. by apply insert_one_written.
Qed.

(** ** Reading written documents *)

Section reading.
Context {X : Type} (dict : X → document) (init : document → result X).
Hypothesis init_written : ∀ x d, stored_as dict x d → init d = Ok x.

Lemma filter_written (q : Mongo.query) (P : X → Prop) `{∀ x, Decision (P x)}
    (xs : list X) (docs : list document) :
  (∀ x d, stored_as dict x d → Mongo.matches q d = bool_decide (P x)) →
  Forall2 (stored_as dict) xs docs →
  Forall2 (stored_as dict) (filter P xs) (filter (λ d, Mongo.matches q d = true) docs).
Proof.
  intros HP Hxs. induction Hxs as [| x d xs docs Hx Hxs IH]; [constructor |].
  rewrite !filter_cons. rewrite (HP x d Hx).
  destruct (decide (P x)) as [Hyes | Hno].
  - rewrite bool_decide_eq_true_2 by done. rewrite decide_True by done.
    by constructor.
  - rewrite bool_decide_eq_false_2 by done. rewrite decide_False by (by intros ?).
    done.
Qed.

(** [find], [to_list] and the validation of each document. *)
Lemma list_written (q : Mongo.query) (P : X → Prop) `{∀ x, Decision (P x)} (n : nat)
    (xs : list X) (docs : list document) :
  Mongo.query_valid q = true →
  (∀ x d, stored_as dict x d → Mongo.matches q d = bool_decide (P x)) →
  Forall2 (stored_as dict) xs docs →
  (cursor ← Mongo.find docs q;;; traverse init (Mongo.to_list n cursor))
  = Ok (take n (filter P xs)).
Proof.
  intros Hq HP Hxs. unfold Mongo.find, Mongo.checked. rewrite Hq. cbn [bind].
  apply (traverse_written dict); [done |].
  apply Forall2_take. by apply filter_written.
Qed.

Lemma count_written (q : Mongo.query) (P : X → Prop) `{∀ x, Decision (P x)}
    (xs : list X) (docs : list document) :
  Mongo.query_valid q = true →
  (∀ x d, stored_as dict x d → Mongo.matches q d = bool_decide (P x)) →
  Forall2 (stored_as dict) xs docs →
  Mongo.count_documents docs q = Ok (length (filter P xs)).
Proof.
  intros Hq HP Hxs. unfold Mongo.count_documents, Mongo.checked. rewrite Hq.
  f_equal. symmetry. eapply Forall2_length. by apply filter_written.
Qed.

End reading.

(** ** The conditions of the filters on written documents *)

Lemma eq_holds_str (v s : string) :
  Mongo.eq_holds (VStr v) (Some (VStr s)) = bool_decide (s = v).
Proof.
  cbn. rewrite orb_false_r. apply bool_decide_ext. split; congruence.
Qed.

Lemma TaskStatus_value_inj (a b : TaskStatus.t) :
  TaskStatus.value a = TaskStatus.value b → a = b.
Proof. by destruct a, b. Qed.

Lemma task_entry_patient_id (p : string) (x : Task.t) (d : document) :
  stored_as Task.dict x d →
  Mongo.entry_holds d ("patient_id", Mongo.Field (Mongo.CEq (VStr p)))
  = bool_decide (Task.patient_id x = p).
Proof. intros [oid ->]. apply eq_holds_str. Qed.

Lemma task_entry_status (s : TaskStatus.t) (x : Task.t) (d : document) :
  stored_as Task.dict x d →
  Mongo.entry_holds d ("status", Mongo.Field (Mongo.CEq (VStr (TaskStatus.value s))))
  = bool_decide (Task.status x = s).
Proof.
  intros [oid ->].
  change (Mongo.eq_holds (VStr (TaskStatus.value s))
            (Some (VStr (TaskStatus.value (Task.status x))))
          = bool_decide (Task.status x = s)).
  rewrite eq_holds_str. apply bool_decide_ext. split.
  - apply TaskStatus_value_inj.
  - by intros ->.
Qed.

Lemma task_entry_due_date (t : string) (x : Task.t) (d : document) :
  stored_as Task.dict x d →
  Mongo.entry_holds d ("due_date", Mongo.Field (Mongo.CEq (VStr t)))
  = bool_decide (Task.due_date x = Some t).
Proof.
  intros [oid ->].
  change (Mongo.eq_holds (VStr t) (Some (Fields.of_opt_str (Task.due_date x)))
          = bool_decide (Task.due_date x = Some t)).
  destruct (Task.due_date x) as [s |].
  - cbn [Fields.of_opt_str]. rewrite eq_holds_str. apply bool_decide_ext.
    split; congruence.
  - symmetry. by apply bool_decide_eq_false_2.
Qed.

Lemma matches_cons (e : string * Mongo.qentry) (q : Mongo.query) (d : document) :
  Mongo.matches (e :: q) d = Mongo.entry_holds d e && Mongo.matches q d.
Proof. reflexivity. Qed.

Lemma bool_decide_intro (b : bool) (P : Prop) `{Decision P} :
  (b = true ↔ P) → b = bool_decide P.
Proof.
  intros Hb. destruct b.
  - symmetry. apply bool_decide_eq_true_2. by apply Hb.
  - symmetry. apply bool_decide_eq_false_2. intros HP. by apply Hb in HP.
Qed.

(** ** The sample stores and their contents *)

Lemma office_represents : represents Sample.office Contents.office.
Proof.
  split; [| split]; [| constructor | constructor].
  repeat constructor; eexists; reflexivity.
Qed.

Lemma busy_office_represents : represents Sample.busy_office Contents.busy_office.
Proof. split; [| split]; repeat constructor; eexists; reflexivity. Qed.

(** * The handlers on the typed contents *)

(** X1.  Whatever requests were served since the store was empty, every
    stored document is the dictionary of an entity under the [_id] of the
    store, and the entities are those the requests produce one by one:
    a creation appends, an update or a completion rewrites the first entity
    with the identifier in place, a deletion removes it. *)
Theorem requests_act_on_contents (rs : list request) : represents (serve rs) (run rs).
Proof.
  unfold serve, run.
  assert (H : represents empty_store empty_contents) by (by repeat split).
  revert H. generalize empty_store, empty_contents.
  induction rs as [| r rs IH]; intros db c H; [done |].
  cbn [fold_left]. apply IH. by apply handle_represents.
Qed.

(** [get_tasks] on the contents. *)
Lemma get_tasks_on_contents (db : database) (c : contents) (now : Datetime.datetime)
    (patient_id : option string) (status : option TaskStatus.t) (due_today : option bool) :
  represents db c →
  get_tasks db now patient_id status due_today
  = Ok (take 1000
          (filter
             (task_passes (given patient_id) status
                (if flag due_today
                 then Some (Datetime.date_isoformat (Datetime.date_of now)) else None))
             (the_tasks c))).
Proof.
  intros (_ & Ht & _). unfold get_tasks.
  assert (Htruthy : ∀ s, Str.truthy (TaskStatus.value s) = true) by (by intros []).
  destruct (given patient_id) as [p |], status as [s |], (flag due_today);
    rewrite ?Htruthy; cbn [Mongo.set_item existsb List.app fst String.eqb Ascii.eqb
                             Bool.eqb orb map];
    (apply (list_written Task.dict _ stored_task_init); [reflexivity | | done]);
    intros x d Hx; apply bool_decide_intro;
    rewrite ?matches_cons, ?(task_entry_patient_id _ _ _ Hx),
      ?(task_entry_status _ _ _ Hx), ?(task_entry_due_date _ _ _ Hx);
    cbn [Mongo.matches forallb]; unfold task_passes; cbn [from_option];
    rewrite ?andb_true_iff, ?bool_decide_eq_true; tauto.
Qed.

(** ** The order of [sort] *)

Lemma ascii_compare_trans (a b c : ascii) (o : comparison) :
  Ascii.compare a b = o → Ascii.compare b c = o → Ascii.compare a c = o.
Proof.
  unfold Ascii.compare. destruct o.
  - rewrite !N.compare_eq_iff. congruence.
  - rewrite !N.compare_lt_iff. lia.
  - rewrite !N.compare_gt_iff. lia.
Qed.

Lemma ascii_compare_Eq (a b : ascii) : Ascii.compare a b = Eq → a = b.
Proof.
  unfold Ascii.compare. rewrite N.compare_eq_iff. intros H.
  rewrite <- (ascii_N_embedding a), <- (ascii_N_embedding b). by rewrite H.
Qed.

Lemma leb_trans (a b c : string) :
  String.leb a b = true → String.leb b c = true → String.leb a c = true.
Proof.
  unfold String.leb. revert b c.
  induction a as [| x a IH]; intros [| y b] [| z c]; simpl; try done.
  destruct (Ascii.compare x y) eqn:Hxy; [| | done].
  - apply ascii_compare_Eq in Hxy as ->.
    destruct (Ascii.compare y z); [apply IH | done | done].
  - destruct (Ascii.compare y z) eqn:Hyz; [| | done].
    + apply ascii_compare_Eq in Hyz as ->. by rewrite Hxy.
    + by rewrite (ascii_compare_trans x y z Lt).
Qed.

#[global] Instance key_le_total : Total key_le.
Proof.
  intros [m s] [n t]. unfold key_le. cbn [fst snd].
  destruct (N.ltb_spec m n), (N.ltb_spec n m), (N.eqb_spec m n), (N.eqb_spec n m);
    cbn [orb andb]; try lia; auto.
  destruct (String.leb_total s t); auto.
Qed.

#[global] Instance key_le_trans : Transitive key_le.
Proof.
  intros [m s] [n t] [o u]. unfold key_le. cbn [fst snd].
  rewrite !orb_true_iff, !andb_true_iff, !N.ltb_lt, !N.eqb_eq.
  intros [H1 | [H1 H1']] [H2 | [H2 H2']]; try (left; lia).
  right. split; [lia | by apply (leb_trans s t u)].
Qed.

#[global] Instance in_order_total field direction : Total (in_order field direction).
Proof.
  intros a b. unfold in_order. destruct (direction <? 0)%Z; apply key_le_total.
Qed.

#[global] Instance in_order_trans field direction : Transitive (in_order field direction).
Proof.
  intros a b c. unfold in_order.
  destruct (direction <? 0)%Z; intros H1 H2; by eapply key_le_trans.
Qed.

Lemma cursor_sort_spec (field : string) (direction : Z) (cursor : list document) :
  StronglySorted (in_order field direction) (cursor_sort field direction cursor) ∧
  cursor_sort field direction cursor ≡ₚ cursor.
Proof.
  split; [apply StronglySorted_merge_sort; apply _ | apply merge_sort_Permutation].
Qed.

(** The order of two stored contact logs under [sort("contact_date", -1)]. *)
Lemma log_order_agrees (x y : ContactLog.t) (d e : document) :
  stored_as ContactLog.dict x d → stored_as ContactLog.dict y e →
  in_order "contact_date" (-1) d e ↔ newest_first x y.
Proof.
  intros [i ->] [j ->]. unfold in_order, key_le, newest_first.
  change ((false || (true && String.leb (ContactLog.contact_date y)
                               (ContactLog.contact_date x))) = true
          ↔ String.leb (ContactLog.contact_date y) (ContactLog.contact_date x) = true).
  done.
Qed.

Section sorted_written.
Context {X : Type} (dict : X → document) (init : document → result X).
Hypothesis init_written : ∀ x d, stored_as dict x d → init d = Ok x.

Lemma omap_parsed (xs : list X) (docs : list document) :
  Forall2 (stored_as dict) xs docs → omap (parsed init) docs = xs.
Proof.
  induction 1 as [| x d xs docs Hx _ IH]; [done |].
  cbn [omap list_omap]. unfold parsed at 1. rewrite (init_written x d Hx).
  by rewrite <- IH.
Qed.

Lemma parsed_written (docs : list document) :
  Forall (λ d, ∃ x, stored_as dict x d) docs →
  Forall2 (stored_as dict) (omap (parsed init) docs) docs.
Proof.
  induction 1 as [| d docs [x Hx] _ IH]; [constructor |].
  cbn [omap list_omap]. unfold parsed at 1. rewrite (init_written x d Hx).
  by constructor.
Qed.

(** The entities of a rearranged cursor are the entities rearranged. *)
Lemma permutation_written (xs : list X) (docs docs' : list document) :
  Forall2 (stored_as dict) xs docs → docs' ≡ₚ docs →
  ∃ xs', Forall2 (stored_as dict) xs' docs' ∧ xs' ≡ₚ xs.
Proof.
  intros Hxs Hperm. exists (omap (parsed init) docs'). split.
  - apply parsed_written. rewrite Hperm.
    clear Hperm. induction Hxs; constructor; eauto.
  - rewrite <- (omap_parsed xs docs Hxs). by rewrite Hperm.
Qed.

Lemma StronglySorted_written (R : relation document) (Q : relation X)
    (xs : list X) (docs : list document) :
  (∀ x y d e, stored_as dict x d → stored_as dict y e → R d e → Q x y) →
  Forall2 (stored_as dict) xs docs →
  StronglySorted R docs → StronglySorted Q xs.
Proof.
  intros HRQ Hxs. induction Hxs as [| x d xs docs Hx Hxs IH]; [constructor |].
  intros Hs. apply StronglySorted_inv in Hs as [Hs Hd].
  constructor; [by apply IH |].
  clear IH Hs. induction Hxs as [| y e xs docs Hy Hxs IH]; [constructor |].
  apply Forall_cons in Hd as [Hde Hd]. constructor; eauto.
Qed.

End sorted_written.

Lemma log_entry_patient_id (p : string) (x : ContactLog.t) (d : document) :
  stored_as ContactLog.dict x d →
  Mongo.matches [("patient_id", Mongo.Field (Mongo.CEq (VStr p)))] d
  = bool_decide (ContactLog.patient_id x = p).
Proof.
  intros [oid ->]. rewrite matches_cons.
  change (Mongo.eq_holds (VStr p) (Some (VStr (ContactLog.patient_id x))) && true
          = bool_decide (ContactLog.patient_id x = p)).
  by rewrite andb_true_r, eq_holds_str.
Qed.

(** The listing of a patient's contact logs on the contents. *)
Lemma get_patient_contact_logs_sorted (db : database) (c : contents) (patient_id : string) :
  represents db c →
  ∃ sorted,
    get_patient_contact_logs db patient_id = Ok (take 1000 sorted) ∧
    sorted ≡ₚ filter (λ x, ContactLog.patient_id x = patient_id) (the_logs c) ∧
    StronglySorted newest_first sorted.
Proof.
  intros (_ & _ & Hl). unfold get_patient_contact_logs.
  change (Mongo.find (contact_logs db)
            [("patient_id", Mongo.Field (Mongo.CEq (VStr patient_id)))])
    with (Ok (filter (λ d, Mongo.matches
                             [("patient_id", Mongo.Field (Mongo.CEq (VStr patient_id)))] d
                           = true) (contact_logs db))).
  cbn [bind].
  pose proof (filter_written ContactLog.dict _
                (λ x, ContactLog.patient_id x = patient_id) _ _
                (λ x d H, log_entry_patient_id patient_id x d H) Hl) as Hf.
  destruct (cursor_sort_spec "contact_date" (-1)
              (filter (λ d, Mongo.matches
                              [("patient_id", Mongo.Field (Mongo.CEq (VStr patient_id)))] d
                            = true) (contact_logs db))) as [Hsorted Hperm].
  destruct (permutation_written ContactLog.dict _ stored_log_init _ _ _ Hf Hperm)
    as (sorted & Hs & Hp).
  exists sorted. split; [| split; [done |]].
  - apply (traverse_written ContactLog.dict); [apply stored_log_init |].
    by apply Forall2_take.
  - eapply (StronglySorted_written ContactLog.dict); [| exact Hs | exact Hsorted].
    intros x y d e Hx Hy. by apply log_order_agrees.
Qed.

(** ** Looking a patient up by identifier *)

Lemma patient_by_id_agrees (i : string) (p : Patient.t) (d : document) :
  stored_as Patient.dict p d →
  Mongo.matches (by_id i) d = bool_decide (Patient.id p = i).
Proof. intros [oid ->]. by apply by_id_matches. Qed.

Lemma task_by_id_agrees (i : string) (x : Task.t) (d : document) :
  stored_as Task.dict x d →
  Mongo.matches (by_id i) d = bool_decide (Task.id x = i).
Proof. intros [oid ->]. by apply by_id_matches. Qed.

Section first_match.
Context {X : Type} (dict : X → document).

(** The first match among the documents is the document of the first
    match among the entities. *)
Lemma head_written (q : Mongo.query) (P : X → Prop) `{∀ x, Decision (P x)}
    (xs : list X) (docs : list document) :
  (∀ x d, stored_as dict x d → Mongo.matches q d = bool_decide (P x)) →
  Forall2 (stored_as dict) xs docs →
  option_Forall2 (stored_as dict) (head (filter P xs))
    (head (filter (λ d, Mongo.matches q d = true) docs)).
Proof.
  intros HP Hxs.
  destruct (filter_written dict q P xs docs HP Hxs); by constructor.
Qed.

Lemma delete_first_count (q : Mongo.query) (docs : list document) :
  snd (Mongo.delete_first q docs)
  = {| Mongo.deleted_count :=
         match head (filter (λ d, Mongo.matches q d = true) docs) with
         | Some _ => 1
         | None => 0
         end |}.
Proof.
  induction docs as [| d docs IH]; [done |].
  cbn [Mongo.delete_first]. rewrite filter_cons.
  destruct (Mongo.matches q d) eqn:Hd.
  - by rewrite decide_True.
  - rewrite decide_False by (by intros ?). exact IH.
Qed.

Lemma delete_first_missing (q : Mongo.query) (docs : list document) :
  head (filter (λ d, Mongo.matches q d = true) docs) = None →
  fst (Mongo.delete_first q docs) = docs.
Proof.
  induction docs as [| d docs IH]; [done |].
  cbn [Mongo.delete_first]. rewrite filter_cons.
  destruct (Mongo.matches q d) eqn:Hd.
  - by rewrite decide_True.
  - rewrite decide_False by (by intros ?). intros H. cbn [fst]. by rewrite IH.
Qed.

End first_match.

Lemma head_filter_None {A} (P : A → Prop) `{∀ x, Decision (P x)} (l : list A) :
  head (filter P l) = None ↔ ∀ x, x ∈ l → ¬ P x.
Proof.
  split.
  - intros Hh x Hx HP.
    assert (Hin : x ∈ filter P l) by (by apply list_elem_of_filter).
    destruct (filter P l); [by apply elem_of_nil in Hin | done].
  - intros Hno. by rewrite (filter_none P l Hno).
Qed.

Lemma with_patients_same (db : database) : with_patients db (patients db) = db.
Proof. by destruct db. Qed.

(** [get_patient] on the contents. *)
Lemma get_patient_on_contents (db : database) (c : contents) (patient_id : string) :
  represents db c →
  get_patient db patient_id
  = match head (filter (λ p, Patient.id p = patient_id) (the_patients c)) with
    | Some p => Ok p
    | None => not_found "Patient not found"
    end.
Proof.
  intros (Hp & _ & _). unfold get_patient. rewrite find_one_by_id. cbn [bind].
  destruct (head_written Patient.dict (by_id patient_id)
              (λ p, Patient.id p = patient_id) _ _
              (patient_by_id_agrees patient_id) Hp) as [p d Hpd |]; [| done].
  destruct Hpd as [oid ->].
  rewrite (found_nonempty _ "_id" (VOid oid)) by apply lookup_insert_eq.
  apply Patient_init_dict_oid.
Qed.

Lemma update_patient_on_contents (db : database) (c : contents) (now : Datetime.datetime)
    (patient_id : string) (u : PatientUpdate.t) :
  represents db c →
  update_patient db now patient_id u
  = match head (filter (λ p, Patient.id p = patient_id) (the_patients c)) with
    | Some p =>
        (with_patients db
           (fst (Mongo.update_first (by_id patient_id) (update_fields now u) (patients db))),
         Ok (merged_patient now u p))
    | None => (db, not_found "Patient not found")
    end.
Proof.
  intros (Hp & _ & _).
  pose proof (head_written Patient.dict (by_id patient_id)
                (λ p, Patient.id p = patient_id) _ _
                (patient_by_id_agrees patient_id) Hp) as Hh.
  destruct (head (filter (λ d, Mongo.matches (by_id patient_id) d = true) (patients db)))
    as [d |] eqn:Hd; inversion Hh as [p d' Hpd Hp' Hd' |]; subst.
  - assert (Hfind : Mongo.find_one (patients db) (by_id patient_id) = Ok (Some d)).
    { by rewrite find_one_by_id, Hd. }
    destruct (update_patient_existing db now patient_id u d p Hfind
                (stored_patient_init p d Hpd)) as [_ Hsnd].
    rewrite <- Hsnd. unfold update_patient at 1. rewrite Hfind.
    destruct Hpd as [oid ->].
    rewrite (found_nonempty _ "_id" (VOid oid)) by apply lookup_insert_eq.
    rewrite update_one_by_id. cbn [fst]. f_equal.
    unfold update_patient. rewrite Hfind.
    rewrite (found_nonempty _ "_id" (VOid oid)) by apply lookup_insert_eq.
    by rewrite update_one_by_id.
  - unfold update_patient. by rewrite find_one_by_id, Hd.
Qed.

Lemma delete_patient_on_contents (db : database) (c : contents) (patient_id : string) :
  represents db c →
  delete_patient db patient_id
  = match head (filter (λ p, Patient.id p = patient_id) (the_patients c)) with
    | Some p =>
        (with_patients db (fst (Mongo.delete_first (by_id patient_id) (patients db))),
         Ok "Patient deleted successfully")
    | None => (db, not_found "Patient not found")
    end.
Proof.
  intros (Hp & _ & _). unfold delete_patient.
  change (Mongo.delete_one (patients db) (by_id patient_id))
    with (Ok (Mongo.delete_first (by_id patient_id) (patients db))).
  cbv beta iota. rewrite delete_first_count. cbn [Mongo.deleted_count].
  pose proof (head_written Patient.dict (by_id patient_id)
                (λ p, Patient.id p = patient_id) _ _
                (patient_by_id_agrees patient_id) Hp) as Hh.
  destruct (head (filter (λ d, Mongo.matches (by_id patient_id) d = true) (patients db)))
    as [d |] eqn:Hd; inversion Hh; subst; [done |].
  by rewrite (delete_first_missing _ _ Hd), with_patients_same.
Qed.

(** ** Removing and replacing the first match *)

Lemma eqb_decide (a b : string) : String.eqb a b = bool_decide (a = b).
Proof. symmetry. apply bool_decide_eqb. Qed.

Lemma filter_remove_first_other {X} (f : X → string) (i j : string) (xs : list X) :
  i ≠ j →
  filter (λ x, f x = j) (remove_first (λ x, String.eqb (f x) i) xs)
  = filter (λ x, f x = j) xs.
Proof.
  intros Hij. induction xs as [| x xs IH]; [done |].
  cbn [remove_first]. destruct (String.eqb_spec (f x) i) as [Hx | Hx].
  - rewrite filter_cons, decide_False by congruence. done.
  - by rewrite !filter_cons, IH.
Qed.

Lemma filter_remove_first_same {X} (f : X → string) (i : string) (xs : list X) :
  filter (λ x, f x = i) (remove_first (λ x, String.eqb (f x) i) xs)
  = tail (filter (λ x, f x = i) xs).
Proof.
  induction xs as [| x xs IH]; [done |].
  cbn [remove_first]. destruct (String.eqb_spec (f x) i) as [Hx | Hx].
  - rewrite filter_cons, decide_True by done. done.
  - rewrite !filter_cons, !decide_False by done. done.
Qed.

Lemma replace_first_lookup {X} (P : X → bool) (g : X → X) (xs : list X) (n : nat) (x : X) :
  xs !! n = Some x →
  replace_first P g xs !! n = Some x ∨ replace_first P g xs !! n = Some (g x).
Proof.
  revert n. induction xs as [| y xs IH]; intros n Hn; [done |].
  cbn [replace_first]. destruct (P y).
  - destruct n as [| n]; [| by left]. injection Hn as ->. by right.
  - destruct n as [| n]; [by left |]. by apply IH.
Qed.

(** ** Completing a task *)

Lemma completion_on_stored (now : Datetime.datetime) (x : Task.t) (oid : N) :
  completion now ∪ <["_id" := VOid oid]> (Task.dict x)
  = <["_id" := VOid oid]> (Task.dict (completed_task now x)).
Proof.
  rewrite <- completion_on_dict.
  apply map_eq. intros i. rewrite !lookup_union.
  destruct (decide (i = "_id")) as [-> | Hi].
  - by rewrite !lookup_insert_eq.
  - rewrite !lookup_insert_ne by done. by rewrite lookup_union.
Qed.

Lemma completed_task_same (now : Datetime.datetime) (x : Task.t) :
  completed_task now x = x
  ↔ Task.status x = TaskStatus.COMPLETED ∧
    Task.completed_at x = Some (Datetime.isoformat now).
Proof.
  destruct x as [i p ty ti de a st du cr co]. unfold completed_task. cbn.
  split; [intros H; injection H; auto | intros [-> ->]; done].
Qed.

Lemma completion_changes (now : Datetime.datetime) (x : Task.t) (d : document) :
  stored_as Task.dict x d →
  completion now ∪ d = d
  ↔ Task.status x = TaskStatus.COMPLETED ∧
    Task.completed_at x = Some (Datetime.isoformat now).
Proof.
  intros [oid ->]. rewrite completion_on_stored, <- completed_task_same. split.
  - intros H. apply Ok_inj. rewrite <- (Task_init_dict_oid stored x (VOid oid)),
      <- (Task_init_dict_oid stored (completed_task now x) (VOid oid)). by rewrite H.
  - by intros ->.
Qed.

Lemma with_tasks_same (db : database) : with_tasks db (tasks db) = db.
Proof. by destruct db. Qed.

Lemma complete_task_on_contents (db : database) (c : contents) (now : Datetime.datetime)
    (task_id : string) :
  represents db c →
  snd (complete_task db now task_id)
  = match head (filter (λ x, Task.id x = task_id) (the_tasks c)) with
    | Some x =>
        if decide (Task.status x = TaskStatus.COMPLETED ∧
                   Task.completed_at x = Some (Datetime.isoformat now))
        then not_found "Task not found"
        else Ok "Task completed successfully"
    | None => not_found "Task not found"
    end.
Proof.
  intros (_ & Ht & _).
  pose proof (head_written Task.dict (by_id task_id) (λ x, Task.id x = task_id) _ _
                (task_by_id_agrees task_id) Ht) as Hh.
  destruct (head (filter (λ d, Mongo.matches (by_id task_id) d = true) (tasks db)))
    as [d |] eqn:Hd; inversion Hh as [x d' Hxd Hx' Hd' |]; subst.
  - assert (Hfind : Mongo.find_one (tasks db) (by_id task_id) = Ok (Some d)).
    { by rewrite find_one_by_id, Hd. }
    destruct (complete_task_existing db now task_id d Hfind) as (_ & _ & _ & ->).
    pose proof (completion_changes now x d Hxd) as Hch.
    destruct (decide (Task.status x = TaskStatus.COMPLETED ∧
                      Task.completed_at x = Some (Datetime.isoformat now))) as [Hyes | Hno].
    + by rewrite bool_decide_eq_true_2 by (by apply Hch).
    + by rewrite bool_decide_eq_false_2 by (by rewrite Hch).
  - rewrite complete_task_missing; [done |]. by rewrite find_one_by_id, Hd.
Qed.

Lemma call_center_represents :
  represents Contents.call_center_store Contents.call_center.
Proof.
  unfold Contents.call_center_store, Contents.call_center, Contents.calls.
  cbn [fold_left]. do 2 apply handle_represents. exact busy_office_represents.
Qed.

(** ** Tasks *)

(** X2.  [create_task] accepts every input, whether or not a patient with the
    given identifier exists: the task gets the status pending, the assignee
    "admin", no completion time and the clock reading as creation time; only
    the task collection changes.  An unfiltered listing made afterwards ends
    with the new task while fewer than 1000 tasks were stored, and does not
    show it from then on. *)
Theorem create_task_then_list (db : database) (c : contents) (random : Z)
    (now today : Datetime.datetime) (data : TaskCreate.t) :
  represents db c →
  let x := created_task random now data in
  let db' := fst (create_task db random now data) in
  snd (create_task db random now data) = Ok x ∧
  Task.status x = TaskStatus.PENDING ∧
  Task.assigned_to x = "admin" ∧
  Task.completed_at x = None ∧
  Task.created_at x = Datetime.isoformat now ∧
  patients db' = patients db ∧
  contact_logs db' = contact_logs db ∧
  get_tasks db' today None None None
  = Ok (if decide (length (the_tasks c) < 1000)%nat then (the_tasks c ++ [x])%list
        else take 1000 (the_tasks c)).
Proof.
  intros Hc x db'.
  pose proof (handle_represents db c (CreateTask random now data) Hc) as (_ & Ht & _).
  change (handle db (CreateTask random now data)) with db' in Ht.
  cbn [apply the_tasks] in Ht. fold x in Ht.
  assert (Hcreate : create_task db random now data
                    = (inserted db (patients db)
                         (Mongo.insert_one (tasks db) (next_oid db) (Task.dict x))
                         (contact_logs db), Ok x)).
  { unfold create_task. by rewrite Task_init_create. }
  subst db'. rewrite Hcreate in *. cbn [fst snd patients contact_logs inserted].
  repeat (split; [reflexivity |]).
  unfold get_tasks.
  cbn [given flag].
  rewrite (list_written Task.dict _ stored_task_init [] (λ _, True) 1000
             (the_tasks c ++ [x])%list); [| done | | exact Ht].
  - f_equal. rewrite filter_all by done.
    destruct (decide (length (the_tasks c) < 1000)%nat) as [Hlt | Hge].
    + apply take_ge. rewrite length_app. cbn. lia.
    + apply take_app_le. lia.
  - intros y d _. symmetry. by apply bool_decide_eq_true_2.
Qed.

Lemma create_task_then_list_witness :
  represents Sample.office Contents.office ∧
  snd (create_task Sample.office 9 Sample.utc0 Sample.task_in) = Ok Sample.the_task ∧
  get_tasks (fst (create_task Sample.office 9 Sample.utc0 Sample.task_in)) Sample.utc1
    None None None
  = Ok [Sample.the_task].
Proof.
  split; [exact office_represents |].
  pose proof (create_task_then_list Sample.office Contents.office 9 Sample.utc0
                Sample.utc1 Sample.task_in office_represents) as H.
  split; [exact (proj1 H) | exact (proj2 (proj2 (proj2 (proj2 (proj2 (proj2 (proj2 H)))))))].
Defined.

(** X3.  [complete_task] stamps the first task with the identifier: its status
    becomes completed and its completion time the clock reading, whatever
    the status was, the other fields and the other collections stay.  The
    answer is the success message exactly when that changed the task: a
    task that was already completed at the same clock reading, like an
    unknown identifier, gets "Task not found". *)
Theorem complete_task_outcome (db : database) (c : contents) (now : Datetime.datetime)
    (task_id : string) :
  represents db c →
  let db' := fst (complete_task db now task_id) in
  represents db'
    {| the_patients := the_patients c;
       the_tasks := replace_first (λ x, String.eqb (Task.id x) task_id)
                      (completed_task now) (the_tasks c);
       the_logs := the_logs c |} ∧
  patients db' = patients db ∧
  contact_logs db' = contact_logs db ∧
  snd (complete_task db now task_id)
  = match head (filter (λ x, Task.id x = task_id) (the_tasks c)) with
    | Some x =>
        if decide (Task.status x = TaskStatus.COMPLETED ∧
                   Task.completed_at x = Some (Datetime.isoformat now))
        then not_found "Task not found"
        else Ok "Task completed successfully"
    | None => not_found "Task not found"
    end.
Proof.
  intros Hc db'. split; [| split; [| split]].
  - exact (handle_represents db c (CompleteTask now task_id) Hc).
  - subst db'. unfold complete_task. by rewrite update_one_by_id.
  - subst db'. unfold complete_task. by rewrite update_one_by_id.
  - by apply complete_task_on_contents.
Qed.

Lemma complete_task_outcome_witness :
  represents Sample.busy_office Contents.busy_office ∧
  snd (complete_task Sample.busy_office Sample.utc1 Sample.task_id)
  = Ok "Task completed successfully" ∧
  snd (complete_task (fst (complete_task Sample.busy_office Sample.utc1 Sample.task_id))
         Sample.utc1 Sample.task_id)
  = not_found "Task not found".
Proof.
  split; [exact busy_office_represents |].
  pose proof (complete_task_outcome Sample.busy_office Contents.busy_office Sample.utc1
                Sample.task_id busy_office_represents) as (H1 & _ & _ & H2).
  split; [exact H2 |].
  exact (proj2 (proj2 (proj2 (complete_task_outcome _ _ Sample.utc1 Sample.task_id H1)))).
Defined.

(** ** Contact logs *)

(** X4.  [get_patient_contact_logs] never fails on written logs.  It returns
    logs of that patient only, each one stored, the most recent first
    (timestamps in byte order); all of them when the patient has at most
    1000, otherwise 1000 of them, none older than a log left out. *)
Theorem contact_logs_newest_first (db : database) (c : contents) (patient_id : string) :
  represents db c →
  let mine := filter (λ x, ContactLog.patient_id x = patient_id) (the_logs c) in
  ∃ logs rest,
    get_patient_contact_logs db patient_id = Ok logs ∧
    StronglySorted newest_first logs ∧
    (logs ++ rest)%list ≡ₚ mine ∧
    length logs = min 1000 (length mine) ∧
    Forall (λ x, x ∈ the_logs c ∧ ContactLog.patient_id x = patient_id) logs ∧
    Forall (λ old, Forall (λ x, newest_first x old) logs) rest.
Proof.
  intros Hc mine.
  destruct (get_patient_contact_logs_sorted db c patient_id Hc) as (sorted & Hget & Hperm & Hs).
  fold mine in Hperm.
  exists (take 1000 sorted), (drop 1000 sorted).
  rewrite <- (take_drop 1000 sorted) in Hs.
  split; [done |]. split; [| split; [| split; [| split]]].
  - by apply StronglySorted_app_1_l in Hs.
  - by rewrite take_drop.
  - by rewrite length_take, <- Hperm, Nat.min_comm.
  - apply Forall_forall. intros x Hx.
    assert (Hin : x ∈ mine).
    { rewrite <- Hperm, <- (take_drop 1000 sorted). apply elem_of_app. by left. }
    by apply list_elem_of_filter in Hin as [? ?].
  - apply Forall_forall. intros old Hold. apply Forall_forall. intros x Hx.
    by apply (StronglySorted_app_1_elem_of _ _ _ _ _ Hs).
Qed.

Example contact_logs_call_center :
  get_patient_contact_logs Contents.call_center_store Sample.john_id
  = Ok [created_log 13 Sample.utc1 Sample.log_in; Sample.the_log] ∧
  get_patient_contact_logs Contents.call_center_store Contents.ann_id
  = Ok [created_log 12 Sample.utc0 Contents.ann_log_in].
Proof. split; reflexivity. Qed.

Lemma contact_logs_newest_first_witness :
  represents Contents.call_center_store Contents.call_center ∧
  ∃ logs rest,
    get_patient_contact_logs Contents.call_center_store Sample.john_id = Ok logs ∧
    StronglySorted newest_first logs ∧
    (logs ++ rest)%list
    ≡ₚ filter (λ x, ContactLog.patient_id x = Sample.john_id)
         (the_logs Contents.call_center) ∧
    length logs
    = min 1000 (length (filter (λ x, ContactLog.patient_id x = Sample.john_id)
                          (the_logs Contents.call_center))) ∧
    Forall (λ x, x ∈ the_logs Contents.call_center ∧
                 ContactLog.patient_id x = Sample.john_id) logs ∧
    Forall (λ old, Forall (λ x, newest_first x old) logs) rest.
Proof.
  split; [exact call_center_represents |].
  exact (contact_logs_newest_first Contents.call_center_store Contents.call_center
           Sample.john_id call_center_represents).
Defined.

(** X5.  [create_contact_log] accepts every input and stamps the log with the
    clock reading; only the log collection changes.  While the patient has
    fewer than 1000 logs the new one is in the patient's listing. *)
Theorem create_contact_log_then_list (db : database) (c : contents) (random : Z)
    (now : Datetime.datetime) (data : ContactLogCreate.t) :
  represents db c →
  (length (filter (λ x, ContactLog.patient_id x = ContactLogCreate.patient_id data)
             (the_logs c)) < 1000)%nat →
  let x := created_log random now data in
  let db' := fst (create_contact_log db random now data) in
  snd (create_contact_log db random now data) = Ok x ∧
  ContactLog.contact_date x = Datetime.isoformat now ∧
  patients db' = patients db ∧
  tasks db' = tasks db ∧
  ∃ logs, get_patient_contact_logs db' (ContactLogCreate.patient_id data) = Ok logs ∧
          x ∈ logs.
Proof.
  intros Hc Hlen x db'.
  pose proof (handle_represents db c (CreateContactLog random now data) Hc) as Hc'.
  change (handle db (CreateContactLog random now data)) with db' in Hc'.
  assert (Hcreate : create_contact_log db random now data
                    = (inserted db (patients db) (tasks db)
                         (Mongo.insert_one (contact_logs db) (next_oid db)
                            (ContactLog.dict x)), Ok x)).
  { unfold create_contact_log. by rewrite ContactLog_init_create. }
  split; [by rewrite Hcreate |]. split; [done |].
  split; [subst db'; by rewrite Hcreate |]. split; [subst db'; by rewrite Hcreate |].
  destruct (get_patient_contact_logs_sorted db' _ (ContactLogCreate.patient_id data) Hc')
    as (sorted & Hget & Hperm & _).
  cbn [apply the_logs] in Hperm. fold x in Hperm.
  rewrite filter_app, filter_cons, decide_True, filter_nil in Hperm by done.
  exists (take 1000 sorted). split; [done |].
  rewrite take_ge.
  - rewrite Hperm. apply elem_of_app. right. apply list_elem_of_here.
  - rewrite Hperm, length_app. cbn. lia.
Qed.

Lemma create_contact_log_then_list_witness :
  represents Sample.busy_office Contents.busy_office ∧
  (length (filter (λ x, ContactLog.patient_id x
                        = ContactLogCreate.patient_id Sample.log_in)
             (the_logs Contents.busy_office)) < 1000)%nat ∧
  snd (create_contact_log Sample.busy_office 13 Sample.utc1 Sample.log_in)
  = Ok (created_log 13 Sample.utc1 Sample.log_in) ∧
  ∃ logs,
    get_patient_contact_logs
      (fst (create_contact_log Sample.busy_office 13 Sample.utc1 Sample.log_in))
      Sample.john_id = Ok logs ∧
    created_log 13 Sample.utc1 Sample.log_in ∈ logs.
Proof.
  assert (Hlen : (length (filter (λ x, ContactLog.patient_id x
                                       = ContactLogCreate.patient_id Sample.log_in)
                            (the_logs Contents.busy_office)) < 1000)%nat).
  { vm_compute. lia. }
  split; [exact busy_office_represents |]. split; [exact Hlen |].
  pose proof (create_contact_log_then_list Sample.busy_office Contents.busy_office 13
                Sample.utc1 Sample.log_in busy_office_represents Hlen) as H.
  split; [exact (proj1 H) | exact (proj2 (proj2 (proj2 (proj2 H))))].
Defined.

(** ** Patients *)

Lemma not_found_not_Ok {A} (detail : string) (a : A) : not_found detail ≠ Ok a.
Proof. discriminate. Qed.

(** X6.  "Patient not found" is the answer of [get_patient], [update_patient]
    and [delete_patient] exactly when no stored patient has the identifier,
    and then the store is left as it was. *)
Theorem patient_not_found_iff_absent (db : database) (c : contents)
    (now : Datetime.datetime) (patient_id : string) (u : PatientUpdate.t) :
  represents db c →
  let absent := ∀ p, p ∈ the_patients c → Patient.id p ≠ patient_id in
  (absent ↔ get_patient db patient_id = not_found "Patient not found") ∧
  (absent ↔ snd (update_patient db now patient_id u) = not_found "Patient not found") ∧
  (absent ↔ snd (delete_patient db patient_id) = not_found "Patient not found") ∧
  (absent → fst (update_patient db now patient_id u) = db ∧
            fst (delete_patient db patient_id) = db).
Proof.
  intros Hc absent.
  rewrite (get_patient_on_contents db c patient_id Hc),
    (update_patient_on_contents db c now patient_id u Hc),
    (delete_patient_on_contents db c patient_id Hc).
  assert (Habs : absent
                 ↔ head (filter (λ p, Patient.id p = patient_id) (the_patients c)) = None).
  { symmetry. apply head_filter_None. }
  rewrite Habs.
  destruct (head (filter (λ p, Patient.id p = patient_id) (the_patients c))) as [p |];
    cbn [fst snd]; repeat split; try done; intros H; discriminate H.
Qed.

Lemma patient_not_found_iff_absent_witness :
  represents Sample.office Contents.office ∧
  get_patient Sample.office "no-such-id" = not_found "Patient not found" ∧
  snd (update_patient Sample.office Sample.utc1 "no-such-id" Sample.upd)
  = not_found "Patient not found" ∧
  snd (delete_patient Sample.office "no-such-id") = not_found "Patient not found" ∧
  fst (update_patient Sample.office Sample.utc1 "no-such-id" Sample.upd) = Sample.office ∧
  fst (delete_patient Sample.office "no-such-id") = Sample.office.
Proof.
  split; [exact office_represents |].
  pose proof (patient_not_found_iff_absent Sample.office Contents.office Sample.utc1
                "no-such-id" Sample.upd office_represents) as (H1 & H2 & H3 & H4).
  assert (Habs : ∀ p, p ∈ the_patients Contents.office → Patient.id p ≠ "no-such-id").
  { intros p Hp. cbn in Hp.
    repeat (apply elem_of_cons in Hp as [-> | Hp]; [vm_compute; discriminate |]).
    by apply elem_of_nil in Hp. }
  split; [exact (proj1 H1 Habs) |]. split; [exact (proj1 H2 Habs) |].
  split; [exact (proj1 H3 Habs) | exact (H4 Habs)].
Defined.

(** X7.  [delete_patient] on an identifier that is stored removes the first
    patient with it and nothing else: the tasks and contact logs of that
    patient stay, every other identifier reads as before, and the deleted
    identifier reads "not found" afterwards exactly when one patient had
    it. *)
Theorem delete_patient_removes_first (db : database) (c : contents)
    (patient_id : string) (p : Patient.t) :
  represents db c →
  head (filter (λ p, Patient.id p = patient_id) (the_patients c)) = Some p →
  let db' := fst (delete_patient db patient_id) in
  snd (delete_patient db patient_id) = Ok "Patient deleted successfully" ∧
  represents db'
    {| the_patients :=
         remove_first (λ p, String.eqb (Patient.id p) patient_id) (the_patients c);
       the_tasks := the_tasks c; the_logs := the_logs c |} ∧
  length (patients db') + 1 = length (patients db) ∧
  tasks db' = tasks db ∧
  contact_logs db' = contact_logs db ∧
  (∀ other, other ≠ patient_id → get_patient db' other = get_patient db other) ∧
  (get_patient db' patient_id = not_found "Patient not found"
   ↔ length (filter (λ p, Patient.id p = patient_id) (the_patients c)) = 1).
Proof.
  intros Hc Hp db'.
  pose proof (handle_represents db c (DeletePatient patient_id) Hc) as Hc'.
  change (handle db (DeletePatient patient_id)) with db' in Hc'. cbn [apply] in Hc'.
  pose proof (delete_patient_on_contents db c patient_id Hc) as Hdel.
  rewrite Hp in Hdel.
  split; [by rewrite Hdel |]. split; [exact Hc' |].
  split; [| split; [by subst db'; rewrite Hdel | split; [by subst db'; rewrite Hdel |]]].
  - destruct Hc as (Hps & _ & _), Hc' as (Hps' & _ & _). cbn [the_patients] in Hps'.
    rewrite <- (Forall2_length _ _ _ Hps), <- (Forall2_length _ _ _ Hps').
    clear -Hp. induction (the_patients c) as [| q qs IH]; [done |].
    rewrite filter_cons in Hp. cbn [remove_first].
    destruct (String.eqb_spec (Patient.id q) patient_id) as [Hq | Hq].
    + cbn. lia.
    + rewrite decide_False in Hp by done. cbn. rewrite <- (IH Hp). lia.
  - split.
    + intros other Hother.
      rewrite (get_patient_on_contents db' _ other Hc'),
        (get_patient_on_contents db c other Hc).
      cbn [the_patients].
      by rewrite (filter_remove_first_other Patient.id patient_id other).
    + rewrite (get_patient_on_contents db' _ patient_id Hc'). cbn [the_patients].
      rewrite (filter_remove_first_same Patient.id patient_id).
      destruct (filter (λ p, Patient.id p = patient_id) (the_patients c))
        as [| q [| q' qs]]; cbn; split; (done || lia).
Qed.

Lemma delete_patient_removes_first_witness :
  represents Sample.busy_office Contents.busy_office ∧
  head (filter (λ p, Patient.id p = Sample.john_id) (the_patients Contents.busy_office))
  = Some Sample.john ∧
  snd (delete_patient Sample.busy_office Sample.john_id)
  = Ok "Patient deleted successfully" ∧
  tasks (fst (delete_patient Sample.busy_office Sample.john_id))
  = tasks Sample.busy_office ∧
  (get_patient (fst (delete_patient Sample.busy_office Sample.john_id)) Sample.john_id
   = not_found "Patient not found"
   ↔ length (filter (λ p, Patient.id p = Sample.john_id)
               (the_patients Contents.busy_office)) = 1).
Proof.
  assert (Hp : head (filter (λ p, Patient.id p = Sample.john_id)
                       (the_patients Contents.busy_office)) = Some Sample.john)
    by reflexivity.
  split; [exact busy_office_represents |]. split; [exact Hp |].
  pose proof (delete_patient_removes_first Sample.busy_office Contents.busy_office
                Sample.john_id Sample.john busy_office_represents Hp)
    as (H1 & _ & _ & H2 & _ & _ & H3).
  split; [exact H1 |]. split; [exact H2 | exact H3].
Defined.

(** X8.  What [update_patient] answers is what [get_patient] answers right
    after it, the entity or "not found"; every other identifier reads as
    before, and the tasks and contact logs are not touched. *)
Theorem update_patient_then_get (db : database) (c : contents) (now : Datetime.datetime)
    (patient_id : string) (u : PatientUpdate.t) :
  represents db c →
  let db' := fst (update_patient db now patient_id u) in
  get_patient db' patient_id = snd (update_patient db now patient_id u) ∧
  (∀ other, other ≠ patient_id → get_patient db' other = get_patient db other) ∧
  length (patients db') = length (patients db) ∧
  tasks db' = tasks db ∧
  contact_logs db' = contact_logs db.
Proof.
  intros Hc db'.
  pose proof (handle_represents db c (UpdatePatient now patient_id u) Hc) as Hc'.
  change (handle db (UpdatePatient now patient_id u)) with db' in Hc'. cbn [apply] in Hc'.
  pose proof (update_patient_on_contents db c now patient_id u Hc) as Hupd.
  assert (Hrep : ∀ i (qs : list Patient.t),
             head (filter (λ p, Patient.id p = i)
                     (replace_first (λ p, String.eqb (Patient.id p) patient_id)
                        (merged_patient now u) qs))
             = if decide (i = patient_id)
               then merged_patient now u <$> head (filter (λ p, Patient.id p = i) qs)
               else head (filter (λ p, Patient.id p = i) qs)).
  { intros i qs. induction qs as [| q qs IH]; [by destruct (decide (i = patient_id)) |].
    cbn [replace_first]. destruct (String.eqb_spec (Patient.id q) patient_id) as [Hq | Hq].
    - rewrite !filter_cons. cbn [Patient.id merged_patient].
      destruct (decide (i = patient_id)) as [-> | Hi].
      + by rewrite !decide_True.
      + rewrite !decide_False by congruence. done.
    - rewrite !filter_cons. destruct (decide (Patient.id q = i)) as [Hqi | Hqi].
      + rewrite decide_False by congruence. done.
      + exact IH. }
  split; [| split; [| split]].
  - rewrite (get_patient_on_contents db' _ patient_id Hc'). cbn [the_patients].
    rewrite Hrep, decide_True by done.
    by destruct (head (filter (λ p, Patient.id p = patient_id) (the_patients c)));
      rewrite Hupd.
  - intros other Hother.
    rewrite (get_patient_on_contents db' _ other Hc'),
      (get_patient_on_contents db c other Hc).
    cbn [the_patients]. by rewrite Hrep, decide_False.
  - destruct Hc as (Hps & _ & _), Hc' as (Hps' & _ & _). cbn [the_patients] in Hps'.
    rewrite <- (Forall2_length _ _ _ Hps), <- (Forall2_length _ _ _ Hps').
    clear. induction (the_patients c) as [| q qs IH]; [done |].
    cbn [replace_first]. destruct (String.eqb _ _); cbn; by rewrite ?IH.
  - subst db'. rewrite Hupd.
    by destruct (head (filter (λ p, Patient.id p = patient_id) (the_patients c))).
Qed.

Lemma update_patient_then_get_witness :
  represents Sample.office Contents.office ∧
  get_patient (fst (update_patient Sample.office Sample.utc1 Sample.john_id Sample.upd))
    Sample.john_id
  = snd (update_patient Sample.office Sample.utc1 Sample.john_id Sample.upd) ∧
  get_patient (fst (update_patient Sample.office Sample.utc1 Sample.john_id Sample.upd))
    Contents.ann_id
  = Ok Sample.ann.
Proof.
  split; [exact office_represents |].
  pose proof (update_patient_then_get Sample.office Contents.office Sample.utc1
                Sample.john_id Sample.upd office_represents) as (H1 & H2 & _).
  split; [exact H1 |].
  refine (eq_trans (H2 Contents.ann_id _) _); [vm_compute; discriminate | reflexivity].
Defined.

(** ** The monthly summary *)

(** The month pattern on a string: a true prefix test. *)
Lemma month_regex_holds (t : Datetime.datetime) (s : string) :
  Mongo.cond_holds (Mongo.CRegex ("^" ++ Datetime.strftime_Y_m t) "") (Some (VStr s))
  = Str.starts_with (Datetime.strftime_Y_m t) s.
Proof.
  unfold Mongo.cond_holds.
  change ("^" ++ Datetime.strftime_Y_m t) with (String "^" (Datetime.strftime_Y_m t)).
  rewrite regex_compile_anchored by apply strftime_plain.
  cbn [Mongo.candidates existsb Mongo.regex_holds].
  rewrite orb_false_r. unfold Regex.regex_search. cbn [Regex.anchored Regex.items].
  change (Regex.has_option "i" "") with false.
  by rewrite match_here_literal.
Qed.

Lemma month_regex_null (t : Datetime.datetime) :
  Mongo.cond_holds (Mongo.CRegex ("^" ++ Datetime.strftime_Y_m t) "") (Some VNull) = false.
Proof.
  unfold Mongo.cond_holds.
  change ("^" ++ Datetime.strftime_Y_m t) with (String "^" (Datetime.strftime_Y_m t)).
  by rewrite regex_compile_anchored by apply strftime_plain.
Qed.

Lemma month_query_valid (t : Datetime.datetime) (k : string) (q : Mongo.query) :
  Mongo.query_valid q = true →
  Mongo.query_valid
    (q ++ [(k, Mongo.Field (Mongo.CRegex ("^" ++ Datetime.strftime_Y_m t) ""))])%list = true.
Proof.
  intros Hq. unfold Mongo.query_valid in *. rewrite forallb_app, Hq.
  cbn [forallb Mongo.entry_valid snd andb]. by rewrite (month_pattern_valid t "" "").
Qed.

Lemma created_in_month_agrees (t : Datetime.datetime) (p : Patient.t) (d : document) :
  stored_as Patient.dict p d →
  Mongo.matches
    [("created_at", Mongo.Field (Mongo.CRegex ("^" ++ Datetime.strftime_Y_m t) ""))] d
  = bool_decide (in_month (Datetime.strftime_Y_m t) (Patient.created_at p)).
Proof.
  intros [oid ->]. rewrite matches_cons. cbn [Mongo.matches forallb].
  rewrite andb_true_r. unfold Mongo.entry_holds. cbn [fst snd].
  change (<["_id":=VOid oid]> (Patient.dict p) !! "created_at")
    with (Some (VStr (Patient.created_at p))).
  rewrite month_regex_holds. apply bool_decide_intro. done.
Qed.

Lemma billed_in_month_agrees (t : Datetime.datetime) (p : Patient.t) (d : document) :
  stored_as Patient.dict p d →
  Mongo.matches
    [("last_billing_date", Mongo.Field (Mongo.CRegex ("^" ++ Datetime.strftime_Y_m t) ""))] d
  = bool_decide (billed_in (Datetime.strftime_Y_m t) p).
Proof.
  intros [oid ->]. rewrite matches_cons. cbn [Mongo.matches forallb].
  rewrite andb_true_r. unfold Mongo.entry_holds. cbn [fst snd].
  change (<["_id":=VOid oid]> (Patient.dict p) !! "last_billing_date")
    with (Some (Fields.of_opt_str (Patient.last_billing_date p))).
  apply bool_decide_intro. unfold billed_in.
  destruct (Patient.last_billing_date p) as [s |]; cbn [Fields.of_opt_str from_option].
  - by rewrite month_regex_holds.
  - by rewrite month_regex_null.
Qed.

Lemma unreachable_agrees (t : Datetime.datetime) (x : ContactLog.t) (d : document) :
  stored_as ContactLog.dict x d →
  Mongo.matches
    [("outcome",
      Mongo.Field (Mongo.CIn [VStr (ContactOutcome.value ContactOutcome.NO_ANSWER);
                              VStr (ContactOutcome.value ContactOutcome.DISCONNECTED)]));
     ("contact_date", Mongo.Field (Mongo.CRegex ("^" ++ Datetime.strftime_Y_m t) ""))] d
  = bool_decide (unreachable_in (Datetime.strftime_Y_m t) x).
Proof.
  intros [oid ->]. rewrite !matches_cons. cbn [Mongo.matches forallb].
  rewrite andb_true_r. unfold Mongo.entry_holds. cbn [fst snd].
  change (<["_id":=VOid oid]> (ContactLog.dict x) !! "contact_date")
    with (Some (VStr (ContactLog.contact_date x))).
  change (<["_id":=VOid oid]> (ContactLog.dict x) !! "outcome")
    with (Some (VStr (ContactOutcome.value (ContactLog.outcome x)))).
  rewrite month_regex_holds. apply bool_decide_intro.
  unfold unreachable_in, in_month. rewrite andb_true_iff.
  apply and_iff_compat_r.
  destruct (ContactLog.outcome x); cbn; split; intros H;
    first [done | by left | by right | by destruct H].
Qed.

Lemma medicaid_issue_agrees (p : Patient.t) (d : document) :
  stored_as Patient.dict p d →
  Mongo.matches [("medicaid_eligible", Mongo.Field (Mongo.CEq (VBool false)))] d
  = bool_decide (Patient.medicaid_eligible p = false).
Proof.
  intros Hp. apply bool_decide_intro.
  apply medicaid_filter_agrees. by apply stored_patient_init.
Qed.

(** X9.  [get_monthly_summary] never fails on written documents.  With the
    month ["YYYY-MM"] of the local clock it counts: all patients; those
    whose creation timestamp starts with the month; those with a last
    billing date that starts with it (none without one); the contact logs
    whose timestamp starts with it and whose outcome is no answer or
    disconnected; and the patients that are not eligible. *)
Theorem monthly_summary_counts (db : database) (c : contents) (now : Datetime.datetime) :
  represents db c →
  let current_month := Datetime.strftime_Y_m now in
  get_monthly_summary db now
  = Ok {| total_patients := length (the_patients c);
          new_patients :=
            length (filter (λ p, in_month current_month (Patient.created_at p))
                      (the_patients c));
          billed_patients := length (filter (billed_in current_month) (the_patients c));
          unable_to_contact := length (filter (unreachable_in current_month) (the_logs c));
          medicaid_issues :=
            length (filter (λ p, Patient.medicaid_eligible p = false) (the_patients c));
          month := current_month |}.
Proof.
  intros (Hp & _ & Hl) current_month. subst current_month. unfold get_monthly_summary.
  pose proof (month_query_valid now "created_at" [] eq_refl) as Hnew.
  pose proof (month_query_valid now "last_billing_date" [] eq_refl) as Hbilled.
  pose proof (month_query_valid now "contact_date"
                [("outcome",
                  Mongo.Field
                    (Mongo.CIn [VStr (ContactOutcome.value ContactOutcome.NO_ANSWER);
                                VStr (ContactOutcome.value ContactOutcome.DISCONNECTED)]))]
                eq_refl) as Hunable.
  cbn [app] in Hnew, Hbilled, Hunable.
  rewrite (count_written Patient.dict [] (λ _, True) (the_patients c) (patients db));
    [| done | by intros; symmetry; apply bool_decide_eq_true_2 | done].
  rewrite filter_all by done. cbn [bind].
  rewrite (count_written Patient.dict _ _ _ _ Hnew (created_in_month_agrees now) Hp).
  cbn [bind].
  rewrite (count_written Patient.dict _ _ _ _ Hbilled (billed_in_month_agrees now) Hp).
  cbn [bind].
  rewrite (count_written ContactLog.dict _ _ _ _ Hunable (unreachable_agrees now) Hl).
  cbn [bind].
  rewrite (count_written Patient.dict
             [("medicaid_eligible", Mongo.Field (Mongo.CEq (VBool false)))] _ _ _
             eq_refl medicaid_issue_agrees Hp).
  reflexivity.
Qed.

Lemma monthly_summary_counts_witness :
  represents Contents.call_center_store Contents.call_center ∧
  get_monthly_summary Contents.call_center_store Sample.local0
  = Ok {| total_patients := 2; new_patients := 2; billed_patients := 0;
          unable_to_contact := 2; medicaid_issues := 1; month := "2024-01" |}.
Proof.
  split; [exact call_center_represents |].
  exact (monthly_summary_counts Contents.call_center_store Contents.call_center
           Sample.local0 call_center_represents).
Defined.

(** ** What no request does *)

Lemma update_first_lookup (q : Mongo.query) (fields : document) (coll : list document)
    (n : nat) (d : document) :
  coll !! n = Some d →
  fst (Mongo.update_first q fields coll) !! n = Some d ∨
  fst (Mongo.update_first q fields coll) !! n = Some (fields ∪ d).
Proof.
  revert n. induction coll as [| e coll IH]; intros n Hn; [done |].
  cbn [Mongo.update_first]. destruct (Mongo.matches q e).
  - destruct n as [| n]; [| by left]. injection Hn as ->. by right.
  - destruct n as [| n]; [by left |]. by apply IH.
Qed.

(** What a request does to the two collections of tasks and contact logs. *)
Lemma handle_tasks_logs (db : database) (r : request) :
  (contact_logs (handle db r) = contact_logs db ∨
   ∃ d, contact_logs (handle db r) = (contact_logs db ++ [d])%list) ∧
  (tasks (handle db r) = tasks db ∨
   (∃ d, tasks (handle db r) = (tasks db ++ [d])%list) ∨
   ∃ now task_id,
     tasks (handle db r)
     = fst (Mongo.update_first (by_id task_id) (completion now) (tasks db))).
Proof.
  destruct r as [random now now' data | now pid u | pid
    | random now data | now tid | random now data]; cbn [handle].
  - rewrite create_patient_eq. by split; left.
  - unfold update_patient. rewrite find_one_by_id.
    destruct (found _); [rewrite update_one_by_id |]; by split; left.
  - unfold delete_patient.
    change (Mongo.delete_one (patients db) (by_id pid))
      with (Ok (Mongo.delete_first (by_id pid) (patients db))).
    by split; left.
  - unfold create_task. rewrite Task_init_create. split; [by left |].
    right. left. eexists. reflexivity.
  - unfold complete_task. rewrite update_one_by_id. split; [by left |].
    right. right. by exists now, tid.
  - unfold create_contact_log. rewrite ContactLog_init_create. split; [| by left].
    right. eexists. reflexivity.
Qed.

Lemma completion_lookup (now : Datetime.datetime) (d : document) (k : string) :
  (completion now ∪ d) !! k
  = if decide (k = "status") then Some (VStr "completed")
    else if decide (k = "completed_at") then Some (VStr (Datetime.isoformat now))
    else d !! k.
Proof.
  rewrite lookup_union. unfold completion.
  rewrite !list_to_map_cons, list_to_map_nil.
  destruct (decide (k = "status")) as [-> | Hs].
  { rewrite lookup_insert_eq. by destruct (d !! "status"). }
  rewrite lookup_insert_ne by done.
  destruct (decide (k = "completed_at")) as [-> | Hc].
  { rewrite lookup_insert_eq. by destruct (d !! "completed_at"). }
  rewrite lookup_insert_ne by done. rewrite lookup_empty. by destruct (d !! k).
Qed.

(** X10.  No history of requests removes or rewrites a contact log: the stored
    logs stay, in their order, at the head of the collection. *)
Theorem contact_logs_only_grow (db : database) (rs : list request) :
  contact_logs db `prefix_of` contact_logs (fold_left handle rs db).
Proof.
  revert db. induction rs as [| r rs IH]; intros db; [done |].
  cbn [fold_left]. etrans; [| apply IH].
  destruct (handle_tasks_logs db r) as [[-> | [d ->]] _]; [done |].
  by apply prefix_app_r.
Qed.

(** X11.  No history of requests removes a task or moves it, and none changes a
    field of it other than the status and the completion time; a task that
    is completed stays completed. *)
Theorem tasks_never_reopen (db : database) (rs : list request) (n : nat) (d : document) :
  tasks db !! n = Some d →
  ∃ d', tasks (fold_left handle rs db) !! n = Some d' ∧
        (∀ k, k ≠ "status" → k ≠ "completed_at" → d' !! k = d !! k) ∧
        (d !! "status" = Some (VStr "completed") →
         d' !! "status" = Some (VStr "completed")).
Proof.
  revert db d. induction rs as [| r rs IH]; intros db d Hd; [by exists d |].
  cbn [fold_left].
  assert (Hstep : ∃ d1, tasks (handle db r) !! n = Some d1 ∧
                        (∀ k, k ≠ "status" → k ≠ "completed_at" → d1 !! k = d !! k) ∧
                        (d !! "status" = Some (VStr "completed") →
                         d1 !! "status" = Some (VStr "completed"))).
  { destruct (handle_tasks_logs db r) as [_ [-> | [[e ->] | (now & tid & ->)]]].
    - by exists d.
    - exists d. split; [| done]. by apply lookup_app_l_Some.
    - destruct (update_first_lookup (by_id tid) (completion now) _ n d Hd) as [H | H].
      + by exists d.
      + exists (completion now ∪ d). split; [done |]. split.
        * intros k Hs Hc. rewrite completion_lookup.
          by rewrite decide_False, decide_False.
        * intros _. by rewrite completion_lookup. }
  destruct Hstep as (d1 & H1 & Hk1 & Hs1).
  destruct (IH (handle db r) d1 H1) as (d' & H' & Hk' & Hs').
  exists d'. split; [done |]. split.
  - intros k Hs Hc. by rewrite Hk', Hk1.
  - auto.
Qed.

Lemma tasks_never_reopen_witness :
  tasks Sample.busy_office !! 0%nat
  = Some (<["_id" := VOid 2]> (Task.dict Sample.the_task)) ∧
  ∃ d', tasks (fold_left handle
                 [CompleteTask Sample.utc1 Sample.task_id; DeletePatient Sample.john_id;
                  CreateTask 14 Sample.utc1 Sample.task_in]
                 Sample.busy_office) !! 0%nat = Some d' ∧
        (∀ k, k ≠ "status" → k ≠ "completed_at" →
              d' !! k = <["_id" := VOid 2]> (Task.dict Sample.the_task) !! k) ∧
        (<["_id" := VOid 2]> (Task.dict Sample.the_task) !! "status"
         = Some (VStr "completed") →
         d' !! "status" = Some (VStr "completed")).
Proof.
  split; [reflexivity |].
  exact (tasks_never_reopen Sample.busy_office
           [CompleteTask Sample.utc1 Sample.task_id; DeletePatient Sample.john_id;
            CreateTask 14 Sample.utc1 Sample.task_in]
           0 (<["_id" := VOid 2]> (Task.dict Sample.the_task)) eq_refl).
Defined.

(** ** The cap of the listings *)

Lemma listed_length {A} (f : document → result A) (n : nat) (cursor : list document)
    (l : list A) :
  traverse f (Mongo.to_list n cursor) = Ok l → (length l ≤ n)%nat.
Proof.
  intros H. rewrite (traverse_length _ _ _ H). unfold Mongo.to_list.
  rewrite length_take. lia.
Qed.

(** X12.  No listing holds more than 1000 entities, whatever the store holds, and
    the daily report counts at most 3000 items. *)
Theorem listings_capped (db : database) :
  (∀ now search tan_expiring l,
     get_patients db now search tan_expiring = Ok l → (length l ≤ 1000)%nat) ∧
  (∀ now patient_id status due_today l,
     get_tasks db now patient_id status due_today = Ok l → (length l ≤ 1000)%nat) ∧
  (∀ patient_id l,
     get_patient_contact_logs db patient_id = Ok l → (length l ≤ 1000)%nat) ∧
  (∀ utcnow now r,
     get_daily_call_report db utcnow now = Ok r →
     (length (daily_tasks r) ≤ 1000)%nat ∧ (length (callbacks_needed r) ≤ 1000)%nat ∧
     (length (expiring_tans r) ≤ 1000)%nat ∧ (total_items r ≤ 3000)%nat).
Proof.
  split; [| split; [| split]].
  - intros now search tan_expiring l H. unfold get_patients in H. bind_inv H.
    by apply listed_length in H.
  - intros now patient_id status due_today l H. unfold get_tasks in H. bind_inv H.
    by apply listed_length in H.
  - intros patient_id l H. unfold get_patient_contact_logs in H. bind_inv H.
    by apply listed_length in H.
  - intros utcnow now r H. unfold get_daily_call_report in H. bind_inv H.
    apply Ok_inj in H. rewrite <- H.
    cbn [daily_tasks callbacks_needed expiring_tans total_items].
    repeat match goal with
           | E : traverse _ (Mongo.to_list _ _) = Ok _ |- _ =>
               apply listed_length in E
           end.
    unfold Mongo.to_list. rewrite !length_take. repeat split; lia.
Qed.

(** ** Dictionaries before they are stored *)

Lemma prepare_for_mongo_lookup (data : document) (k : string) :
  prepare_for_mongo data !! k = date_to_iso <$> data !! k.
Proof. apply lookup_fmap. Qed.

Lemma date_to_iso_twice (v : value) : date_to_iso (date_to_iso v) = date_to_iso v.
Proof. by destruct v. Qed.

(** A dictionary whose listed values are no dates. *)
Lemma prepare_for_mongo_same (l : list (string * value)) :
  Forall (λ kv, date_to_iso (snd kv) = snd kv) l →
  prepare_for_mongo (list_to_map l) = list_to_map l.
Proof.
  intros Hl. apply map_eq. intros k. rewrite prepare_for_mongo_lookup.
  destruct (list_to_map l !! k) as [v |] eqn:Hk; [| done].
  apply elem_of_list_to_map_2 in Hk. cbn [fmap option_fmap option_map]. f_equal.
  rewrite Forall_forall in Hl. exact (Hl (k, v) Hk).
Qed.

Ltac no_dates :=
  repeat (apply List.Forall_cons;
          [cbn [snd]; unfold Fields.of_opt_str; repeat case_match; reflexivity |]);
  apply List.Forall_nil.

(** X13.  [prepare_for_mongo] keeps the keys, turns the dates among the values
    into their ISO text and leaves every other value, also a list or an
    embedded dictionary that holds dates; a second call changes nothing.
    The dictionaries of the three input models hold no dates: the calls in
    the handlers return what they are given. *)
Theorem prepare_for_mongo_shallow (data : document) :
  prepare_for_mongo (prepare_for_mongo data) = prepare_for_mongo data ∧
  (∀ k, prepare_for_mongo data !! k = None ↔ data !! k = None) ∧
  (∀ k d, data !! k = Some (VDate d) →
          prepare_for_mongo data !! k = Some (VStr (Datetime.date_isoformat d))) ∧
  (∀ k v, data !! k = Some v → (∀ d, v ≠ VDate d) → prepare_for_mongo data !! k = Some v) ∧
  (∀ k d, prepare_for_mongo data !! k ≠ Some (VDate d)) ∧
  (∀ x, prepare_for_mongo (PatientCreate.dict x) = PatientCreate.dict x) ∧
  (∀ x, prepare_for_mongo (TaskCreate.dict x) = TaskCreate.dict x) ∧
  (∀ x, prepare_for_mongo (ContactLogCreate.dict x) = ContactLogCreate.dict x).
Proof.
  split; [| split; [| split; [| split; [| split; [| split; [| split]]]]]].
  - apply map_eq. intros k. rewrite !prepare_for_mongo_lookup.
    destruct (data !! k) as [v |]; [| done]. cbn. by rewrite date_to_iso_twice.
  - intros k. rewrite prepare_for_mongo_lookup. apply fmap_None.
  - intros k d Hk. by rewrite prepare_for_mongo_lookup, Hk.
  - intros k v Hk Hv. rewrite prepare_for_mongo_lookup, Hk. cbn. f_equal.
    destruct v; try done. by destruct (Hv d).
  - intros k d. rewrite prepare_for_mongo_lookup.
    destruct (data !! k) as [[] |]; cbn; congruence.
  - intros x. apply prepare_for_mongo_same. no_dates.
  - intros x. apply prepare_for_mongo_same. no_dates.
  - intros x. apply prepare_for_mongo_same. no_dates.
Qed.

(** ** The models *)

Lemma TaskType_value_inj (a b : TaskType.t) : TaskType.value a = TaskType.value b → a = b.
Proof. by destruct a, b. Qed.

Lemma ContactOutcome_value_inj (a b : ContactOutcome.t) :
  ContactOutcome.value a = ContactOutcome.value b → a = b.
Proof. by destruct a, b. Qed.

Ltac enum_cases s :=
  repeat match goal with
         | |- context [String.eqb s ?t] => destruct (String.eqb_spec s t) as [-> |]
         end.

(** X14.  The text of an enumeration member parses back to the member, and
    no other text parses: the members are told apart by their texts. *)
Theorem enums_round_trip :
  (∀ e, TaskStatus.of_string (TaskStatus.value e) = Some e) ∧
  (∀ s e, TaskStatus.of_string s = Some e → TaskStatus.value e = s) ∧
  (∀ e, TaskType.of_string (TaskType.value e) = Some e) ∧
  (∀ s e, TaskType.of_string s = Some e → TaskType.value e = s) ∧
  (∀ e, ContactOutcome.of_string (ContactOutcome.value e) = Some e) ∧
  (∀ s e, ContactOutcome.of_string s = Some e → ContactOutcome.value e = s).
Proof.
  split; [by intros [] |]. split.
  { intros s e. unfold TaskStatus.of_string. enum_cases s; intros H;
      by (discriminate H || (injection H as <-)). }
  split; [by intros [] |]. split.
  { intros s e. unfold TaskType.of_string. enum_cases s; intros H;
      by (discriminate H || (injection H as <-)). }
  split; [by intros [] |].
  intros s e. unfold ContactOutcome.of_string. enum_cases s; intros H;
    by (discriminate H || (injection H as <-)).
Qed.

Lemma Patient_init_dict (f : string → result string) (p : Patient.t) :
  Patient.init f (Patient.dict p) = Ok p.
Proof. apply Patient_init_intro; field_of_dict. Qed.

Lemma Task_init_dict (f : string → result string) (x : Task.t) :
  Task.init f (Task.dict x) = Ok x.
Proof.
  unfold Task.init.
  rewrite (enum_lookup TaskType.of_string TaskType.value _ "task_type" _ (Task.task_type x));
    [| by destruct (Task.task_type x) | reflexivity].
  rewrite (enum_lookup TaskStatus.of_string TaskStatus.value _ "status" _ (Task.status x));
    [| by destruct (Task.status x) | reflexivity].
  rewrite (opt_str_lookup "due_date" _ (Task.due_date x)) by reflexivity.
  rewrite (opt_str_lookup "completed_at" _ (Task.completed_at x)) by reflexivity.
  by destruct x.
Qed.

Lemma ContactLog_init_dict (f : string → result string) (x : ContactLog.t) :
  ContactLog.init f (ContactLog.dict x) = Ok x.
Proof.
  unfold ContactLog.init.
  rewrite (enum_lookup ContactOutcome.of_string ContactOutcome.value _ "outcome" _
             (ContactLog.outcome x));
    [| by destruct (ContactLog.outcome x) | reflexivity].
  rewrite (opt_str_lookup "follow_up_date" _ (ContactLog.follow_up_date x)) by reflexivity.
  by destruct x.
Qed.

(** X15.  Validating the dictionary of an entity gives the entity back, with or
    without the [_id] of the store and whatever the default factories
    would produce: no default is used, nothing is lost.  So two entities
    with the same dictionary are the same. *)
Theorem models_round_trip (f : string → result string) :
  (∀ p, Patient.init f (Patient.dict p) = Ok p) ∧
  (∀ x, Task.init f (Task.dict x) = Ok x) ∧
  (∀ x, ContactLog.init f (ContactLog.dict x) = Ok x) ∧
  (∀ p v, Patient.init f (<["_id" := v]> (Patient.dict p)) = Ok p) ∧
  (∀ x v, Task.init f (<["_id" := v]> (Task.dict x)) = Ok x) ∧
  (∀ x v, ContactLog.init f (<["_id" := v]> (ContactLog.dict x)) = Ok x) ∧
  (∀ p q, Patient.dict p = Patient.dict q → p = q) ∧
  (∀ x y, Task.dict x = Task.dict y → x = y) ∧
  (∀ x y, ContactLog.dict x = ContactLog.dict y → x = y).
Proof.
  split; [apply Patient_init_dict |]. split; [apply Task_init_dict |].
  split; [apply ContactLog_init_dict |].
  split; [intros; apply Patient_init_dict_oid |].
  split; [intros; apply Task_init_dict_oid |].
  split; [intros; apply ContactLog_init_dict_oid |].
  split; [| split].
  - intros p q H. apply Ok_inj.
    by rewrite <- (Patient_init_dict f p), <- (Patient_init_dict f q), H.
  - intros x y H. apply Ok_inj.
    by rewrite <- (Task_init_dict f x), <- (Task_init_dict f y), H.
  - intros x y H. apply Ok_inj.
    by rewrite <- (ContactLog_init_dict f x), <- (ContactLog_init_dict f y), H.
Qed.

(** ** More on patients *)

(** X16.  [update_patient] with no field set writes the update time only: the
    merge dictionary holds that one key, and the patient comes back as it
    was but for the refreshed time. *)
Theorem update_patient_no_fields (db : database) (c : contents) (now : Datetime.datetime)
    (patient_id : string) (p : Patient.t) :
  represents db c →
  head (filter (λ p, Patient.id p = patient_id) (the_patients c)) = Some p →
  update_fields now no_fields = {[ "updated_at" := VStr (Datetime.isoformat now) ]} ∧
  snd (update_patient db now patient_id no_fields) = Ok (touched now p) ∧
  get_patient (fst (update_patient db now patient_id no_fields)) patient_id
  = Ok (touched now p).
Proof.
  intros Hc Hp. split; [reflexivity |].
  assert (Hsnd : snd (update_patient db now patient_id no_fields) = Ok (touched now p)).
  { rewrite (update_patient_on_contents db c now patient_id no_fields Hc), Hp.
    reflexivity. }
  split; [exact Hsnd |].
  pose proof (handle_represents db c (UpdatePatient now patient_id no_fields) Hc) as Hc'.
  cbn [handle apply] in Hc'.
  rewrite (get_patient_on_contents _ _ patient_id Hc'). cbn [the_patients].
  clear -Hp. induction (the_patients c) as [| q qs IH]; [done |].
  rewrite filter_cons in Hp. cbn [replace_first].
  destruct (String.eqb_spec (Patient.id q) patient_id) as [Hq | Hq].
  - rewrite decide_True in Hp by done. injection Hp as ->.
    rewrite filter_cons, decide_True by done. reflexivity.
  - rewrite decide_False in Hp by done. rewrite filter_cons, decide_False by done.
    by apply IH.
Qed.

Lemma update_patient_no_fields_witness :
  represents Sample.office Contents.office ∧
  head (filter (λ p, Patient.id p = Sample.john_id) (the_patients Contents.office))
  = Some Sample.john ∧
  snd (update_patient Sample.office Sample.utc1 Sample.john_id no_fields)
  = Ok (touched Sample.utc1 Sample.john).
Proof.
  assert (Hp : head (filter (λ p, Patient.id p = Sample.john_id)
                       (the_patients Contents.office)) = Some Sample.john)
    by reflexivity.
  split; [exact office_represents |]. split; [exact Hp |].
  exact (proj1 (proj2 (update_patient_no_fields Sample.office Contents.office Sample.utc1
                         Sample.john_id Sample.john office_represents Hp))).
Defined.

(** X17.  [create_patient] accepts every input and changes the patient
    collection only.  An unfiltered listing made afterwards ends with the
    new patient while fewer than 1000 patients were stored, and does not
    show the new patient from then on. *)
Theorem create_patient_then_list (db : database) (c : contents) (random : Z)
    (now now' today : Datetime.datetime) (data : PatientCreate.t) :
  represents db c →
  let p := created_patient random now now' data in
  let db' := fst (create_patient db random now now' data) in
  snd (create_patient db random now now' data) = Ok p ∧
  tasks db' = tasks db ∧
  contact_logs db' = contact_logs db ∧
  get_patients db' today None None
  = Ok (if decide (length (the_patients c) < 1000)%nat then (the_patients c ++ [p])%list
        else take 1000 (the_patients c)).
Proof.
  intros Hc p db'.
  pose proof (handle_represents db c (CreatePatient random now now' data) Hc)
    as (Hp & _ & _).
  change (handle db (CreatePatient random now now' data)) with db' in Hp.
  cbn [apply the_patients] in Hp. fold p in Hp.
  subst db'. rewrite create_patient_eq in *. cbn [fst snd tasks contact_logs inserted].
  repeat (split; [reflexivity |]).
  unfold get_patients. cbn [given flag bind].
  rewrite (list_written Patient.dict _ stored_patient_init [] (λ _, True) 1000
             (the_patients c ++ [p])%list); [| done | | exact Hp].
  - f_equal. rewrite filter_all by done.
    destruct (decide (length (the_patients c) < 1000)%nat) as [Hlt | Hge].
    + apply take_ge. rewrite length_app. cbn. lia.
    + apply take_app_le. lia.
  - intros y d _. symmetry. by apply bool_decide_eq_true_2.
Qed.

Lemma create_patient_then_list_witness :
  represents Sample.office Contents.office ∧
  get_patients (fst (create_patient Sample.office 11 Sample.utc0 Sample.utc0 Sample.ann_in))
    Sample.local0 None None
  = Ok [Sample.john; Sample.ann;
        created_patient 11 Sample.utc0 Sample.utc0 Sample.ann_in].
Proof.
  split; [exact office_represents |].
  exact (proj2 (proj2 (proj2 (create_patient_then_list Sample.office Contents.office 11
                                Sample.utc0 Sample.utc0 Sample.local0 Sample.ann_in
                                office_represents)))).
Defined.

(** ** Listing tasks *)

(** X18.  [get_tasks] never fails on written tasks.  It returns the first 1000,
    in store order, of the tasks that pass every condition given: the
    patient identifier (an empty one counts as not given), the status, and
    a due date equal to the UTC date of the request.  So every task listed
    is stored and passes them, and when at most 1000 tasks pass, each of
    them is listed. *)
Theorem get_tasks_filters (db : database) (c : contents) (now : Datetime.datetime)
    (patient_id : option string) (status : option TaskStatus.t) (due_today : option bool) :
  represents db c →
  let passes :=
    task_passes (given patient_id) status
      (if flag due_today then Some (Datetime.date_isoformat (Datetime.date_of now))
       else None) in
  get_tasks db now patient_id status due_today
  = Ok (take 1000 (filter passes (the_tasks c))) ∧
  (∀ x, x ∈ take 1000 (filter passes (the_tasks c)) → x ∈ the_tasks c ∧ passes x) ∧
  ((length (filter passes (the_tasks c)) ≤ 1000)%nat →
   ∀ x, x ∈ the_tasks c → passes x → x ∈ take 1000 (filter passes (the_tasks c))).
Proof.
  intros Hc passes. split; [by apply get_tasks_on_contents |]. split.
  - intros x Hx.
    assert (Hx' : x ∈ filter passes (the_tasks c)).
    { by apply (subseteq_take 1000 (filter passes (the_tasks c))). }
    by apply list_elem_of_filter in Hx' as [? ?].
  - intros Hlen x Hx Hpass. rewrite take_ge by done. by apply list_elem_of_filter.
Qed.

Lemma get_tasks_filters_witness :
  represents Sample.busy_office Contents.busy_office ∧
  get_tasks Sample.busy_office Sample.utc0 (Some Sample.john_id)
    (Some TaskStatus.PENDING) (Some true) = Ok [Sample.the_task] ∧
  get_tasks Sample.busy_office Sample.utc0 (Some "")
    (Some TaskStatus.COMPLETED) None = Ok [].
Proof.
  split; [exact busy_office_represents |]. split.
  - exact (proj1 (get_tasks_filters Sample.busy_office Contents.busy_office Sample.utc0
                    (Some Sample.john_id) (Some TaskStatus.PENDING) (Some true)
                    busy_office_represents)).
  - exact (proj1 (get_tasks_filters Sample.busy_office Contents.busy_office Sample.utc0
                    (Some "") (Some TaskStatus.COMPLETED) None busy_office_represents)).
Defined.

Lemma replace_first_elem {X} (P : X → Prop) `{∀ x, Decision (P x)} (Q : X → bool)
    (g : X → X) (xs : list X) (x : X) :
  (∀ y, Q y = bool_decide (P y)) →
  head (filter P xs) = Some x → g x ∈ replace_first Q g xs.
Proof.
  intros HQ. induction xs as [| y xs IH]; [done |].
  rewrite filter_cons. cbn [replace_first]. rewrite HQ.
  destruct (decide (P y)) as [Hy | Hy].
  - rewrite bool_decide_eq_true_2 by done. intros [= ->]. apply list_elem_of_here.
  - rewrite bool_decide_eq_false_2 by done. intros Hx.
    apply list_elem_of_further. by apply IH.
Qed.

Lemma replace_first_length {X} (Q : X → bool) (g : X → X) (xs : list X) :
  length (replace_first Q g xs) = length xs.
Proof.
  induction xs as [| y xs IH]; [done |].
  cbn [replace_first]. destruct (Q y); cbn; by rewrite ?IH.
Qed.

(** X19.  A task that is due on the day of its completion stays in the listing
    of the tasks due today, now as completed, and is not among the daily
    tasks of the report, which holds no completed task at all (stores of at
    most 1000 tasks, where no listing is cut short). *)
Theorem completed_task_listed_not_reported (db : database) (c : contents)
    (utcnow now t : Datetime.datetime) (task_id : string) (x : Task.t) :
  represents db c →
  (length (the_tasks c) ≤ 1000)%nat →
  head (filter (λ x, Task.id x = task_id) (the_tasks c)) = Some x →
  Task.due_date x = Some (Datetime.date_isoformat (Datetime.date_of utcnow)) →
  Datetime.plus_days now 30 = Ok t →
  let db' := fst (complete_task db utcnow task_id) in
  ∃ l r,
    get_tasks db' utcnow None None (Some true) = Ok l ∧
    completed_task utcnow x ∈ l ∧
    get_daily_call_report db' utcnow now = Ok r ∧
    Forall (λ y, Task.status y ≠ TaskStatus.COMPLETED) (daily_tasks r) ∧
    completed_task utcnow x ∉ daily_tasks r.
Proof.
  intros Hc Hlen Hx Hdue Ht db'.
  pose proof (handle_represents db c (CompleteTask utcnow task_id) Hc) as Hc'.
  change (handle db (CompleteTask utcnow task_id)) with db' in Hc'.
  cbn [apply] in Hc'.
  set (today := Datetime.date_isoformat (Datetime.date_of utcnow)) in *.
  set (ts := replace_first (λ x, String.eqb (Task.id x) task_id) (completed_task utcnow)
               (the_tasks c)) in *.
  assert (Hin : completed_task utcnow x ∈ ts).
  { apply (replace_first_elem (λ x, Task.id x = task_id)); [| done].
    intros y. apply eqb_decide. }
  destruct Hc' as (Hps & Hts & Hls). cbn [the_patients the_tasks the_logs] in *.
  pose proof (get_daily_call_report_Ok db' utcnow now t ts (the_logs c) (the_patients c)
                (traverse_written Task.dict _ _ _ stored_task_init Hts)
                (traverse_written ContactLog.dict _ _ _ stored_log_init Hls)
                (traverse_written Patient.dict _ _ _ stored_patient_init Hps) Ht) as Hr.
  cbv zeta in Hr. fold today in Hr.
  eexists _, _. split; [| split; [| split; [exact Hr |]]].
  - apply (get_tasks_on_contents db' {| the_patients := the_patients c; the_tasks := ts;
                                        the_logs := the_logs c |}).
    by repeat split.
  - cbn [given flag the_tasks]. rewrite take_ge.
    + apply list_elem_of_filter. split; [| done]. by repeat split.
    + etrans; [apply length_filter |]. subst ts. by rewrite replace_first_length.
  - cbn [daily_tasks].
    assert (Hopen : Forall (λ y, Task.status y ≠ TaskStatus.COMPLETED)
                      (take 1000 (filter (due_and_open today) ts))).
    { apply Forall_take, Forall_forall. intros y Hy.
      by apply list_elem_of_filter in Hy as [[_ Hy] _]. }
    split; [exact Hopen |].
    intros Hcon. rewrite Forall_forall in Hopen. by apply (Hopen _ Hcon).
Qed.

Lemma completed_task_listed_not_reported_witness :
  represents Sample.busy_office Contents.busy_office ∧
  (length (the_tasks Contents.busy_office) ≤ 1000)%nat ∧
  head (filter (λ x, Task.id x = Sample.task_id) (the_tasks Contents.busy_office))
  = Some Sample.the_task ∧
  Task.due_date Sample.the_task
  = Some (Datetime.date_isoformat (Datetime.date_of Sample.utc1)) ∧
  Datetime.plus_days Sample.local0 30 = Ok Sample.local30 ∧
  ∃ l r,
    get_tasks (fst (complete_task Sample.busy_office Sample.utc1 Sample.task_id))
      Sample.utc1 None None (Some true) = Ok l ∧
    completed_task Sample.utc1 Sample.the_task ∈ l ∧
    get_daily_call_report (fst (complete_task Sample.busy_office Sample.utc1 Sample.task_id))
      Sample.utc1 Sample.local0 = Ok r ∧
    Forall (λ y, Task.status y ≠ TaskStatus.COMPLETED) (daily_tasks r) ∧
    completed_task Sample.utc1 Sample.the_task ∉ daily_tasks r.
Proof.
  assert (Hlen : (length (the_tasks Contents.busy_office) ≤ 1000)%nat)
    by (vm_compute; lia).
  split; [exact busy_office_represents |]. split; [exact Hlen |].
  split; [reflexivity |]. split; [reflexivity |]. split; [reflexivity |].
  exact (completed_task_listed_not_reported Sample.busy_office Contents.busy_office
           Sample.utc1 Sample.local0 Sample.local30 Sample.task_id Sample.the_task
           busy_office_represents Hlen eq_refl eq_refl eq_refl).
Defined.
